(** * MOF matcher: a shallow embedding of [find_matching_mofs]

    The development follows [src/mof_matcher.py].  The function filters a
    pandas table of MOF records by the caller's criteria, groups the
    matching records by the "MOF" column and reduces every group to one row
    of the fixed output schema [OUTPUT_COLS].  The module [App] adds the
    caller, the search form of [src/app.py].

    Modelling conventions.
    - Python text is a [string]: the bytes of its UTF-8 encoding.
      [str.strip] removes the white space of Unicode, each character in
      its UTF-8 bytes.  [str.lower] rests on the case tables of Unicode and
      is a parameter.
    - A number is a binary64 float, with the arithmetic and the
      comparisons of IEEE 754 ([PrimFloat]): the floats of Python, which
      the form of [app.py] passes as criteria, and the dtype float64 of
      pandas.  Python integers and integer columns are not covered.
    - A criteria value is [None], text or a float; a cell is missing, text
      or a float.  pandas has NaN for a missing number: the cells [NA] and
      [Num nan] both stand for a missing value and are treated alike.
    - A pandas column carries its dtype (numeric [float64] or [object]),
      because [DataFrame.mean(numeric_only=True)] selects columns by dtype.
    - Rows carry labels ([index]), natural numbers that need not be
      distinct; boolean indexing keeps them, [idxmax] returns one and
      [.loc] reads by them.  Column names are distinct.
    - DataFrame objects live in a store; [df.copy()] makes a new object and
      [df[col] = ...] updates an object in place.  Tables that are only
      read are plain values.
    - The rows handed to [pd.DataFrame(rows, columns=cols)] are [Series]
      or [dict]s, and the constructor treats the two differently.
    - What pandas does with text that spells a number, how Python prints a
      float, what [astype(str)] makes of a missing value, [str.lower], and
      the order in which pandas adds up a column are taken as parameters of
      the development (the class [Runtime]). *)

From Stdlib Require Import List String Ascii Bool Arith Lia ZArith.
From Stdlib Require Import Sorted OrderedTypeEx DecimalString.
From Stdlib Require Import Permutation.
From Stdlib Require Import Uint63 Floats.
Import ListNotations.

Local Open Scope string_scope.
Local Open Scope list_scope.

(** ** Python text *)

Module Py.

(** The characters for which [str.isspace] holds, by the bytes of their
    UTF-8 encoding.  One byte: TAB, LF, VT, FF, CR, the four separators FS,
    GS, RS, US, and the space. *)
Definition is_space (c : ascii) : bool :=
  let n := nat_of_ascii c in
  ((9 <=? n)%nat && (n <=? 13)%nat) || ((28 <=? n)%nat && (n <=? 32)%nat).

(** Two bytes: U+0085 (C2 85) and U+00A0 (C2 A0). *)
Definition is_space2 (c1 c2 : ascii) : bool :=
  let n1 := nat_of_ascii c1 in
  let n2 := nat_of_ascii c2 in
  (n1 =? 194)%nat && ((n2 =? 133)%nat || (n2 =? 160)%nat).

(** Three bytes: U+1680 (E1 9A 80), U+2000 to U+200A (E2 80 80 to
    E2 80 8A), U+2028, U+2029 and U+202F (E2 80 A8, A9, AF), U+205F
    (E2 81 9F) and U+3000 (E3 80 80). *)
Definition is_space3 (c1 c2 c3 : ascii) : bool :=
  let n1 := nat_of_ascii c1 in
  let n2 := nat_of_ascii c2 in
  let n3 := nat_of_ascii c3 in
  ((n1 =? 225)%nat && (n2 =? 154)%nat && (n3 =? 128)%nat)
  || ((n1 =? 226)%nat && (n2 =? 128)%nat
      && (((128 <=? n3)%nat && (n3 <=? 138)%nat)
          || (n3 =? 168)%nat || (n3 =? 169)%nat || (n3 =? 175)%nat))
  || ((n1 =? 226)%nat && (n2 =? 129)%nat && (n3 =? 159)%nat)
  || ((n1 =? 227)%nat && (n2 =? 128)%nat && (n3 =? 128)%nat).

Definition is_empty (s : string) : bool :=
  match s with EmptyString => true | _ => false end.

(** [str.lstrip]: the leading white-space characters are dropped. *)
Fixpoint lstrip (s : string) : string :=
  match s with
  | EmptyString => EmptyString
  | String c1 s1 =>
      if is_space c1 then lstrip s1 else
      match s1 with
      | EmptyString => s
      | String c2 s2 =>
          if is_space2 c1 c2 then lstrip s2 else
          match s2 with
          | EmptyString => s
          | String c3 s3 => if is_space3 c1 c2 c3 then lstrip s3 else s
          end
      end
  end.

(** [str.rstrip]: the text is cut where what follows is white space
    only. *)
Fixpoint rstrip (s : string) : string :=
  match s with
  | EmptyString => EmptyString
  | String c s' =>
      if is_empty (lstrip s) then EmptyString else String c (rstrip s')
  end.

Definition strip (s : string) : string := rstrip (lstrip s).

(** A caller-supplied criterion value: [None], a [str], or a [float]. *)
Inductive value : Type :=
| None_
| Str_ (s : string)
| Num_ (v : PrimFloat.float).

(** A [dict] with text keys: the items in insertion order, keys unique. *)
Definition dict (V : Type) : Type := list (string * V).

Definition keys {V} (d : dict V) : list string := map fst d.

(** [d[k] = v]: an existing key keeps its place, a new key goes last. *)
Fixpoint setitem {V} (d : dict V) (k : string) (v : V) : dict V :=
  match d with
  | [] => [(k, v)]
  | (k', v') :: d' =>
      if String.eqb k' k then (k, v) :: d' else (k', v') :: setitem d' k v
  end.

Fixpoint get {V} (d : dict V) (k : string) : option V :=
  match d with
  | [] => None
  | (k', v) :: d' => if String.eqb k' k then Some v else get d' k
  end.

(** [x in l] on a list of text. *)
Definition contains (l : list string) (x : string) : bool :=
  existsb (String.eqb x) l.

End Py.

(** ** The schema constants *)

Definition INPUT_COLS : list string :=
  [ "MOF"; "N2"; "CO2"; "CH4"; "Gas Temperature (°C)"; "Gas Pressure (bar)";
    "Gas uptake (mmol/g)"; "Void Fraction"; "MSA (m²/g)"; "VSA (m²/cm³)";
    "PLD (Å)"; "LCD (Å)" ].

Definition OUTPUT_COLS : list string :=
  [ "MOF"; "KH (mmol/bar.g)"; "W 0.1 (mmol/g)"; "W 0.2 (mmol/g)";
    "W 0.3 (mmol/g)"; "W 0.4 (mmol/g)"; "W 0.5 (mmol/g)"; "W 0.6 (mmol/g)";
    "W 0.7 (mmol/g)"; "W 0.8 (mmol/g)"; "W 0.9 (mmol/g)";
    "N2"; "CO2"; "CH4"; "Gas Temperature (°C)"; "Gas Pressure (bar)";
    "Gas uptake (mmol/g)"; "Void Fraction"; "MSA (m²/g)"; "VSA (m²/cm³)";
    "PLD (Å)"; "LCD (Å)" ].

(** ** pandas values *)

(** One cell of a table: missing (None / NaN), a float, or text.  A float
    that is NaN is a missing value as well. *)
Inductive cell : Type :=
| NA
| Num (x : PrimFloat.float)
| Str (s : string).

Inductive dtype : Type := float64 | object.

Record Series : Type := mkSeries { dtype_of : dtype; values : list cell }.

(** A table: the row labels and the named columns, in schema order. *)
Record DataFrame : Type :=
  mkDataFrame { index : list nat; data : Py.dict Series }.

Definition columns (df : DataFrame) : list string := Py.keys (data df).

Definition nrows (df : DataFrame) : nat := List.length (index df).

(** [df.empty]: some axis has length zero. *)
Definition empty (df : DataFrame) : bool :=
  (nrows df =? 0)%nat || (List.length (data df) =? 0)%nat.

(** [pd.DataFrame(columns=cols)]: no rows. *)
Definition DataFrame_new (cols : list string) : DataFrame :=
  {| index := []; data := map (fun c => (c, mkSeries object [])) cols |}.

(** All columns are as long as the index. *)
Definition aligned (df : DataFrame) : Prop :=
  Forall (fun cs => List.length (values (snd cs)) = nrows df) (data df).

(** Keep the entries of [l] whose flag in [mask] is set (boolean indexing). *)
Fixpoint compress {A} (mask : list bool) (l : list A) : list A :=
  match mask, l with
  | b :: mask', x :: l' =>
      if b then x :: compress mask' l' else compress mask' l'
  | _, _ => []
  end.

(** [df[mask]]: the rows whose flag is set, labels and dtypes kept. *)
Definition select_rows (df : DataFrame) (mask : list bool) : DataFrame :=
  {| index := compress mask (index df);
     data := map (fun cs => (fst cs,
                    mkSeries (dtype_of (snd cs)) (compress mask (values (snd cs)))))
                 (data df) |}.

(** [mask &= flags], elementwise on aligned series. *)
Fixpoint mask_and (mask flags : list bool) : list bool :=
  match mask, flags with
  | b :: mask', f :: flags' => (b && f) :: mask_and mask' flags'
  | _, _ => []
  end.

(** [isna] on one cell. *)
Definition is_na (c : cell) : bool :=
  match c with
  | NA => true
  | Num x => PrimFloat.is_nan x
  | Str _ => false
  end.

(** A cell with its missing values spelled [NA]. *)
Definition present (c : cell) : cell := if is_na c then NA else c.

(** The order of two floats neither of which is NaN. *)
Definition float_order (x y : PrimFloat.float) : comparison :=
  match (x ?= y)%float with
  | FLt => Lt
  | FGt => Gt
  | _ => Eq
  end.

(** The order pandas sorts group keys in: numbers before text, numbers by
    value, text by code point; a missing value comes last. *)
Definition cell_compare (a b : cell) : comparison :=
  match present a, present b with
  | Num x, Num y => float_order x y
  | Num _, Str _ => Lt
  | Str _, Num _ => Gt
  | Str s, Str t => String.compare s t
  | NA, NA => Eq
  | NA, _ => Gt
  | _, NA => Lt
  end.

(** [value == key] on one cell; a missing value equals nothing. *)
Definition cell_eqb (a b : cell) : bool :=
  negb (is_na a) && negb (is_na b) &&
  match cell_compare a b with Eq => true | _ => false end.

(** Insert a key into an ascending list without duplicates; a key that is
    already there keeps its first spelling. *)
Fixpoint insert_key (k : cell) (l : list cell) : list cell :=
  match l with
  | [] => [k]
  | x :: l' =>
      match cell_compare k x with
      | Lt => k :: l
      | Eq => l
      | Gt => x :: insert_key k l'
      end
  end.

(** The group keys of a column: its present values, distinct, ascending
    ([groupby] sorts the keys and drops missing ones). *)
Fixpoint group_keys (vals : list cell) (acc : list cell) : list cell :=
  match vals with
  | [] => acc
  | v :: vals' =>
      group_keys vals' (if is_na v then acc else insert_key v acc)
  end.

(** [between(lower, upper)] on one cell, both ends included: the
    comparisons are those of the floats, which NaN never passes. *)
Definition between_cell (lower upper : PrimFloat.float) (c : cell) : bool :=
  match c with
  | Num y => (lower <=? y)%float && (y <=? upper)%float
  | _ => false
  end.

(** [series == text] on one cell. *)
Definition eq_text_cell (text : string) (c : cell) : bool :=
  match c with
  | Str t => String.eqb t text
  | _ => false
  end.

(** The [.str] accessor: a method applied to text, missing elsewhere. *)
Definition str_method (f : string -> string) (c : cell) : cell :=
  match c with
  | Str s => Str (f s)
  | _ => NA
  end.

(** The floats a column holds, missing values left out. *)
Definition numbers (l : list cell) : list PrimFloat.float :=
  flat_map (fun c => match c with
                     | Num x => if PrimFloat.is_nan x then [] else [x]
                     | _ => []
                     end) l.

(** A column as pandas adds it up: a missing value counts as 0. *)
Definition fill_zero (c : cell) : PrimFloat.float :=
  match c with
  | Num x => if PrimFloat.is_nan x then 0%float else x
  | _ => 0%float
  end.

(** A column as [idxmax] scans it: a missing value counts as -inf. *)
Definition fill_neg_inf (c : cell) : PrimFloat.float :=
  match c with
  | Num x => if PrimFloat.is_nan x then neg_infinity else x
  | _ => neg_infinity
  end.

(** A count as a float. *)
Definition float_of_nat (n : nat) : PrimFloat.float :=
  PrimFloat.of_uint63 (Uint63.of_Z (Z.of_nat n)).

Definition is_numeric (t : dtype) : bool :=
  match t with float64 => true | object => false end.

(** The scan of [idxmax]: the first row holding the greatest value.
    [best] is the row found so far with its value. *)
Fixpoint idxmax_from (l : list cell) (i : nat)
    (best : option (nat * PrimFloat.float)) : option (nat * PrimFloat.float) :=
  match l with
  | [] => best
  | c :: l' =>
      idxmax_from l' (S i)
        match best with
        | None => Some (i, fill_neg_inf c)
        | Some (_, b) =>
            if (b <? fill_neg_inf c)%float then Some (i, fill_neg_inf c)
            else best
        end
  end.

(** [series.idxmax()] on a column with the row labels [labels]: the label
    of the first row holding the greatest value, where pandas counts a
    missing value as -inf; none when every value is missing. *)
Definition idxmax (labels : list nat) (s : Series) : option nat :=
  if forallb is_na (values s) then None
  else option_map (fun pm => nth (fst pm) labels 0%nat)
         (idxmax_from (values s) 0 None).

(** [series.reindex(cols)] / a row read by column name, missing when the
    name is not there. *)
Definition lookup_cell (row : Py.dict cell) (c : string) : cell :=
  match Py.get row c with Some v => v | None => NA end.

Definition reindex (row : Py.dict cell) (cols : list string) : Py.dict cell :=
  map (fun c => (c, lookup_cell row c)) cols.

Definition infer_dtype (l : list cell) : dtype :=
  match l with
  | [] => object
  | _ => if forallb (fun c => match c with Str _ => false | _ => true end) l
         then float64 else object
  end.

(** What the loop over the groups appends to [grouped_rows]: a [Series]
    (line 132) or a [dict] (line 138), either way cells under column
    names. *)
Inductive row_kind : Type := a_Series | a_dict.

Record grouped_row : Type :=
  mkRow { kind : row_kind; cells :> Py.dict cell }.

(** The table of the rows, each read by column name and numbered from 0. *)
Definition table_of_rows (rows : list grouped_row) (cols : list string)
  : DataFrame :=
  {| index := seq 0 (List.length rows);
     data := map (fun c =>
                    let l := map (fun r : grouped_row => lookup_cell r c) rows in
                    (c, mkSeries (infer_dtype l) l)) cols |}.

(** [df[col] = series] on the value of a table. *)
Definition set_column (df : DataFrame) (col : string) (s : Series) : DataFrame :=
  {| index := index df; data := Py.setitem (data df) col s |}.

(** The cell of column [col] in row position [i]. *)
Definition cell_at (df : DataFrame) (col : string) (i : nat) : cell :=
  match Py.get (data df) col with
  | Some s => nth i (values s) NA
  | None => NA
  end.

(** The positions of the rows labelled [label]. *)
Definition rows_labelled (df : DataFrame) (label : nat) : list nat :=
  filter (fun i => (nth i (index df) 0 =? label)%nat) (seq 0 (nrows df)).

(** What [df.loc[label, cols]] gives: one row, as a [Series] over [cols],
    when one row has the label, and a table of the rows that have it when
    there are several. *)
Inductive selection : Type :=
| one_row (top_row : Py.dict cell)
| several_rows (frame : DataFrame).

(** [c in top_row.index] and [top_row[c]] (lines 127-128).  The index of a
    row is its column names; the index of a table is its row labels, which
    are numbers and no column names. *)
Definition selection_get (top_row : selection) (c : string) : option cell :=
  match top_row with
  | one_row r => Py.get r c
  | several_rows _ => None
  end.

(** ** The object store and the exception monad *)

Inductive exn : Type :=
| KeyError_missing_columns (missing_cols : list string)
    (* "Missing columns in dataset: [...]" *)
| KeyError_labels (labels : list string)   (* pandas: columns not found *)
| KeyError_row (label : nat)               (* pandas: row label not found *)
| ValueError_all_missing
    (* idxmax of an all-missing column: a ValueError, or in pandas 2 the
       KeyError of the label NaN that idxmax returns there *)
| TypeError                                (* arithmetic on [None] *)
| AttributeError                           (* a dict where a Series is read *)
| UnboundObject.                           (* a reference to no object *)

Inductive outcome (A : Type) : Type :=
| Return (a : A)
| Raise (e : exn).
Arguments Return {A} a.
Arguments Raise {A} e.

(** [pd.DataFrame(rows, columns=cols)].  pandas chooses how to read the
    rows by the first of them.  After a [dict] every row is read as a
    mapping, which a [Series] is too.  After a [Series] every row is read
    as a [Series], and a [dict] among them makes the constructor fail. *)
Definition DataFrame_of_rows (rows : list grouped_row) (cols : list string)
  : outcome DataFrame :=
  match rows with
  | first :: rest =>
      match kind first with
      | a_Series =>
          if existsb (fun r => match kind r with
                               | a_dict => true
                               | a_Series => false
                               end) rest
          then Raise AttributeError
          else Return (table_of_rows rows cols)
      | a_dict => Return (table_of_rows rows cols)
      end
  | [] => Return (table_of_rows rows cols)
  end.

Definition ref : Type := nat.
Definition store : Type := list DataFrame.

(** A computation reads and updates the store and returns or raises; the
    store survives a raise. *)
Definition M (A : Type) : Type := store -> outcome A * store.

Definition ret {A} (a : A) : M A := fun st => (Return a, st).

Definition raise {A} (e : exn) : M A := fun st => (Raise e, st).

Definition bind {A B} (m : M A) (k : A -> M B) : M B :=
  fun st =>
    match m st with
    | (Return a, st') => k a st'
    | (Raise e, st') => (Raise e, st')
    end.

Declare Scope py_scope.
Delimit Scope py_scope with py.
Notation "x <- m ;; k" := (bind m (fun x => k))
  (at level 61, m at next level, right associativity) : py_scope.
Notation "m ;; k" := (bind m (fun _ => k))
  (at level 61, right associativity) : py_scope.

Local Open Scope py_scope.

Fixpoint update {A} (l : list A) (i : nat) (x : A) : list A :=
  match l, i with
  | [], _ => []
  | _ :: l', O => x :: l'
  | y :: l', S i' => y :: update l' i' x
  end.

Definition deref (r : ref) : M DataFrame :=
  fun st =>
    match nth_error st r with
    | Some d => (Return d, st)
    | None => (Raise UnboundObject, st)
    end.

(** A new object holding [d]. *)
Definition new (d : DataFrame) : M ref :=
  fun st => (Return (List.length st), st ++ [d]).

(** [df.copy()]. *)
Definition copy (r : ref) : M ref :=
  d <- deref r ;; new d.

(** [df[col]]. *)
Definition getitem (r : ref) (col : string) : M Series :=
  d <- deref r ;;
  match Py.get (data d) col with
  | Some s => ret s
  | None => raise (KeyError_labels [col])
  end.

(** [df[col] = s], in place. *)
Definition setitem (r : ref) (col : string) (s : Series) : M unit :=
  fun st =>
    match nth_error st r with
    | Some d => (Return tt, update st r (set_column d col s))
    | None => (Raise UnboundObject, st)
    end.

(** [df.loc[label, cols]]: the rows labelled [label], restricted to
    [cols], all of which must be columns of the table. *)
Definition loc (d : DataFrame) (label : nat) (cols : list string)
  : outcome selection :=
  match rows_labelled d label with
  | [] => Raise (KeyError_row label)
  | i :: others =>
      match filter (fun c => negb (Py.contains (columns d) c)) cols with
      | [] =>
          match others with
          | [] => Return (one_row (map (fun c => (c, cell_at d c i)) cols))
          | _ =>
              Return (several_rows
                        {| index := map (fun _ => label) (i :: others);
                           data := map (fun c =>
                                     (c, mkSeries
                                           match Py.get (data d) c with
                                           | Some s => dtype_of s
                                           | None => object
                                           end
                                           (map (cell_at d c) (i :: others))))
                                     cols |})
          end
      | not_found => Raise (KeyError_labels not_found)
      end
  end.

(** A step that only reads. *)
Definition lift {A} (o : outcome A) : M A := fun st => (o, st).

(** A [for] loop that threads an accumulator. *)
Fixpoint for_each {A S} (body : S -> A -> M S) (l : list A) (s : S) : M S :=
  match l with
  | [] => ret s
  | x :: l' => s' <- body s x ;; for_each body l' s'
  end.

(** ** The matcher *)

Definition keep_cols : list string :=
  [ "N2"; "CO2"; "CH4"; "Gas Temperature (°C)"; "Gas Pressure (bar)";
    "Gas uptake (mmol/g)" ].

Definition avg_cols : list string :=
  filter (fun c => negb (Py.contains (keep_cols ++ ["MOF"]) c)) OUTPUT_COLS.

(** Lines 57-66: the criteria that are neither [None] nor blank text, under
    their stripped names. *)
Fixpoint normalise (items : Py.dict Py.value) (provided : Py.dict Py.value)
  : Py.dict Py.value :=
  match items with
  | [] => provided
  | (k, v) :: items' =>
      match v with
      | Py.None_ => normalise items' provided
      | Py.Str_ s =>
          if Py.is_empty (Py.strip s) then normalise items' provided
          else normalise items' (Py.setitem provided (Py.strip k) v)
      | Py.Num_ _ => normalise items' (Py.setitem provided (Py.strip k) v)
      end
  end.

(** What the matcher takes from Python and pandas without the source
    saying how it is computed. *)
Class Runtime : Type := {
  (** [pd.to_numeric] on text: the float the text spells, if any. *)
  to_numeric_text : string -> option PrimFloat.float;
  (** [str(x)] for a float. *)
  str_of_number : PrimFloat.float -> string;
  (** What [astype(str)] makes of a missing value: text ("nan") in
      pandas 2, still missing in pandas 3. *)
  str_of_missing : option string;
  (** [str.lower], the lower-case mapping of Unicode. *)
  str_lower : string -> string;
  (** The sum pandas forms of the floats of a column, in the order of
      additions that pandas and numpy choose. *)
  float_sum : list PrimFloat.float -> PrimFloat.float
}.

Section Matcher.

Context {rt : Runtime}.

(** [pd.to_numeric(series, errors="coerce")]: a float stays, text becomes
    the float it spells, and what is no number is missing. *)
Definition to_numeric_cell (c : cell) : cell :=
  match c with
  | NA => NA
  | Num x => present (Num x)
  | Str s =>
      match to_numeric_text s with
      | Some x => present (Num x)
      | None => NA
      end
  end.

Definition to_numeric (s : Series) : Series :=
  mkSeries float64 (map to_numeric_cell (values s)).

(** [series.astype(str)]. *)
Definition astype_str_cell (c : cell) : cell :=
  match present c with
  | NA => match str_of_missing with Some t => Str t | None => NA end
  | Num x => Str (str_of_number x)
  | Str s => Str s
  end.

(** [series.astype(str).str.strip().str.lower()]. *)
Definition normalise_text_cell (c : cell) : cell :=
  str_method str_lower (str_method Py.strip (astype_str_cell c)).

(** The mean of a float column as pandas forms it: the sum of the column,
    a missing value counted as 0, over the number of present values;
    missing when no value is present. *)
Definition mean_cells (l : list cell) : cell :=
  match numbers l with
  | [] => NA
  | nums =>
      Num (float_sum (map fill_zero l) / float_of_nat (List.length nums))%float
  end.

(** [frame.mean(numeric_only=True)]: one mean per column of numeric dtype,
    the other columns are left out. *)
Definition mean_numeric_only (cols : Py.dict Series) : Py.dict cell :=
  map (fun cs => (fst cs, mean_cells (values (snd cs))))
      (filter (fun cs => is_numeric (dtype_of (snd cs))) cols).

(** The two factors of the tolerance band: the floats Python reads the
    literals [0.98] and [1.02] as. *)
Definition factor_098 : PrimFloat.float := 0x1.f5c28f5c28f5cp-1%float.
Definition factor_102 : PrimFloat.float := 0x1.051eb851eb852p+0%float.

Definition normalise_text (s : Series) : Series :=
  mkSeries object (map normalise_text_cell (values s)).

(** Lines 81-89: one turn of the loop over [provided.items()]. *)
Definition apply_criterion (df_work : ref) (mask : list bool)
    (item : string * Py.value) : M (list bool) :=
  let (col, val) := item in
  match val with
  | Py.Str_ s =>
      c <- getitem df_work col ;;
      setitem df_work col (normalise_text c) ;;
      c' <- getitem df_work col ;;
      ret (mask_and mask
             (map (eq_text_cell (str_lower (Py.strip s))) (values c')))
  | Py.Num_ v =>
      c <- getitem df_work col ;;
      setitem df_work col (to_numeric c) ;;
      let lower := (v * factor_098)%float in
      let upper := (v * factor_102)%float in
      c' <- getitem df_work col ;;
      ret (mask_and mask (map (between_cell lower upper) (values c')))
  | Py.None_ =>
      c <- getitem df_work col ;;
      setitem df_work col (to_numeric c) ;;
      raise TypeError
  end.

(** Lines 105-138: the output row of a group, read off the group's table.
    [idxmax] gives the label of the row of the greatest uptake, and [.loc]
    reads the rows of that label. *)
Definition reduce_group (g : DataFrame) (mof_name : cell)
  : outcome grouped_row :=
  if (1 <? nrows g)%nat then
    match Py.get (data g) "Gas uptake (mmol/g)" with
    | None => Raise (KeyError_labels ["Gas uptake (mmol/g)"])
    | Some u =>
        match idxmax (index g) u with
        | None => Raise ValueError_all_missing
        | Some idx_max =>
            match loc g idx_max keep_cols with
            | Raise e => Raise e
            | Return top_row =>
                let avg_cols_existing :=
                  filter (Py.contains (columns g)) avg_cols in
                let avg_row :=
                  mean_numeric_only
                    (flat_map (fun c => match Py.get (data g) c with
                                        | Some s => [(c, s)]
                                        | None => []
                                        end) avg_cols_existing) in
                let avg_row := Py.setitem avg_row "MOF" mof_name in
                let avg_row :=
                  fold_left (fun row c =>
                               match selection_get top_row c with
                               | Some v => Py.setitem row c v
                               | None => row
                               end) keep_cols avg_row in
                Return (mkRow a_Series (reindex avg_row OUTPUT_COLS))
            end
        end
    end
  else
    Return (mkRow a_dict
              (map (fun c => (c, if Py.contains (columns g) c
                                 then cell_at g c 0 else NA)) OUTPUT_COLS)).

(** Lines 99-138: one group to one output row.  The group is copied, the
    uptake column of the copy is made numeric in place, and the row is
    read off the copy. *)
Definition aggregate_group (group : DataFrame) (mof_name : cell)
  : M grouped_row :=
  group <- new group ;;
  g0 <- deref group ;;
  (if Py.contains (columns g0) "Gas uptake (mmol/g)" then
     u <- getitem group "Gas uptake (mmol/g)" ;;
     setitem group "Gas uptake (mmol/g)" (to_numeric u)
   else ret tt) ;;
  g <- deref group ;;
  lift (reduce_group g mof_name).

(** Line 98: the groups of [matched.groupby("MOF")], keys ascending. *)
Definition groupby (matched : DataFrame) (col : string)
  : M (list (cell * DataFrame)) :=
  match Py.get (data matched) col with
  | None => raise (KeyError_labels [col])
  | Some s =>
      ret (map (fun key =>
                  (key, select_rows matched
                          (map (fun v => cell_eqb v key) (values s))))
               (group_keys (values s) []))
  end.

(** Lines 96-138: the loop over the groups, appending to [grouped_rows]. *)
Definition aggregate_groups (groups : list (cell * DataFrame))
  : M (list grouped_row) :=
  for_each (fun grouped_rows kg =>
              row <- aggregate_group (snd kg) (fst kg) ;;
              ret (grouped_rows ++ [row]))
           groups [].

(** Lines 76-91: the matching subset, cut from the working copy. *)
Definition filter_records (df : ref) (provided : Py.dict Py.value)
  : M DataFrame :=
  d <- deref df ;;
  let mask := repeat true (nrows d) in
  df_work <- copy df ;;
  mask <- for_each (apply_criterion df_work) provided mask ;;
  w <- deref df_work ;;
  ret (select_rows w mask).

Definition missing_columns (d : DataFrame) (provided : Py.dict Py.value)
  : list string :=
  filter (fun k => negb (Py.contains (columns d) k)) (Py.keys provided).

Definition find_matching_mofs (df : ref) (inputs : Py.dict Py.value)
  : M DataFrame :=
  d <- deref df ;;
  if empty d then ret (DataFrame_new OUTPUT_COLS) else
  let provided := normalise inputs [] in
  match provided with
  | [] => ret (DataFrame_new OUTPUT_COLS)
  | _ =>
      match missing_columns d provided with
      | (_ :: _) as missing_cols =>
          raise (KeyError_missing_columns missing_cols)
      | [] =>
          matched <- filter_records df provided ;;
          if empty matched then ret (DataFrame_new OUTPUT_COLS) else
          groups <- groupby matched "MOF" ;;
          grouped_rows <- aggregate_groups groups ;;
          lift (DataFrame_of_rows grouped_rows OUTPUT_COLS)
      end
  end.

(** *** Notions used to state the properties *)

(** The predicate a criterion puts on the cell of its column. *)
Definition satisfies (val : Py.value) (c : cell) : bool :=
  match val with
  | Py.Str_ s =>
      eq_text_cell (str_lower (Py.strip s)) (normalise_text_cell c)
  | Py.Num_ v =>
      between_cell (v * factor_098)%float (v * factor_102)%float
        (to_numeric_cell c)
  | Py.None_ => false
  end.

(** Row [i] of [d] satisfies every criterion. *)
Definition matches (provided : Py.dict Py.value) (d : DataFrame) (i : nat)
  : bool :=
  forallb (fun cv => satisfies (snd cv) (cell_at d (fst cv) i)) provided.

(** The copy of a group once its uptake column is numeric. *)
Definition with_numeric_uptake (g : DataFrame) : DataFrame :=
  match Py.get (data g) "Gas uptake (mmol/g)" with
  | Some u => set_column g "Gas uptake (mmol/g)" (to_numeric u)
  | None => g
  end.

(** The column a criterion leaves in the working copy. *)
Definition coerce_column (val : Py.value) (s : Series) : Series :=
  match val with
  | Py.Str_ _ => normalise_text s
  | _ => to_numeric s
  end.

(** The working copy after the loop over the criteria. *)
Fixpoint work_table (provided : Py.dict Py.value) (d : DataFrame) : DataFrame :=
  match provided with
  | [] => d
  | (col, val) :: rest =>
      work_table rest
        match Py.get (data d) col with
        | Some s => set_column d col (coerce_column val s)
        | None => d
        end
  end.


End Matcher.

(** A criteria value that is no criterion: [None] or blank text. *)
Definition blank (v : Py.value) : Prop :=
  match v with
  | Py.None_ => True
  | Py.Str_ s => Py.strip s = ""
  | Py.Num_ _ => False
  end.

(** A criterion as normalisation keeps it. *)
Definition is_criterion (v : Py.value) : bool :=
  match v with
  | Py.None_ => false
  | Py.Str_ s => negb (Py.is_empty (Py.strip s))
  | Py.Num_ _ => true
  end.

(** Row [p] holds [m], no row holds more, and the rows before [p] hold
    less, a missing value counted as -inf: [p] is the first row of the
    maximum. *)
Definition first_maximum (l : list cell) (p : nat) (m : PrimFloat.float)
  : Prop :=
  (p < List.length l)%nat
  /\ fill_neg_inf (nth p l NA) = m
  /\ (forall j, (j < List.length l)%nat ->
                (fill_neg_inf (nth j l NA) <=? m)%float = true)
  /\ (forall j, (j < p)%nat ->
                (fill_neg_inf (nth j l NA) <? m)%float = true).

(** What the scan of [idxmax] has found in the rows it has seen. *)
Definition leader (seen : list cell) (best : option (nat * PrimFloat.float))
  : Prop :=
  match best with
  | None => seen = []
  | Some (p, m) => first_maximum seen p m
  end.

(** The place of a float in the order of the floats, as three integers
    compared one after the other: -inf, the negative floats by exponent and
    mantissa, the two zeros, the positive floats, +inf. *)
Definition sf_key (f : spec_float) : Z * Z * Z :=
  match f with
  | S754_infinity true => (0, 0, 0)
  | S754_finite true m e => (1, - e, - Zpos m)
  | S754_zero _ => (2, 0, 0)
  | S754_finite false m e => (3, e, Zpos m)
  | S754_infinity false => (4, 0, 0)
  | S754_nan => (5, 0, 0)
  end%Z.

Definition float_key (x : PrimFloat.float) : Z * Z * Z := sf_key (Prim2SF x).

Definition key_lt (a b : Z * Z * Z) : Prop :=
  let '(a1, a2, a3) := a in
  let '(b1, b2, b3) := b in
  (a1 < b1 \/ (a1 = b1 /\ (a2 < b2 \/ (a2 = b2 /\ a3 < b3))))%Z.

(** The number of bytes of the white-space character [s] starts with, 0
    when it starts with none. *)
Definition space_width (s : string) : nat :=
  match s with
  | String c1 (String c2 (String c3 _)) =>
      if Py.is_space c1 then 1
      else if Py.is_space2 c1 c2 then 2
      else if Py.is_space3 c1 c2 c3 then 3 else 0
  | String c1 (String c2 EmptyString) =>
      if Py.is_space c1 then 1 else if Py.is_space2 c1 c2 then 2 else 0
  | String c1 EmptyString => if Py.is_space c1 then 1 else 0
  | EmptyString => 0
  end.

(** [s[n:]]. *)
Fixpoint drop (n : nat) (s : string) : string :=
  match n, s with
  | S n', String _ s' => drop n' s'
  | _, _ => s
  end.

(** Strictly ascending in the order of the group keys. *)
Definition ascending : list cell -> Prop :=
  StronglySorted (fun a b => cell_compare a b = Lt).

(** The cells of a column, top to bottom; none for a column that is not
    there. *)
Definition column_values (d : DataFrame) (col : string) : list cell :=
  match Py.get (data d) col with
  | Some s => values s
  | None => []
  end.

(** The last value given in [items] under a spelling of the name [k],
    blank values and [None] passed over. *)
Fixpoint last_given (items : Py.dict Py.value) (k : string)
  : option Py.value :=
  match items with
  | [] => None
  | (k', v) :: items' =>
      match last_given items' k with
      | Some v' => Some v'
      | None =>
          if is_criterion v && String.eqb (Py.strip k') k then Some v else None
      end
  end.

(** [m] leaves the first [n] objects of the store as they are, never
    shrinks the store, and returns only values in [post]. *)
Definition keeps_below (n : nat) {A} (m : M A) (post : A -> Prop) : Prop :=
  forall st, (n <= List.length st)%nat ->
    firstn n (snd (m st)) = firstn n st
    /\ (n <= List.length (snd (m st)))%nat
    /\ match fst (m st) with Return a => post a | Raise _ => True end.

(** ** The caller: the search form of [app.py]

    Lines 46-79 of [app.py]: the form's text fields are parsed into
    criteria, an empty set of criteria is answered with a warning, and the
    outcome of the matcher is turned into a message.  [float(val)] is a
    parameter: the number a text spells, if Python reads it as one. *)

Module App.

Section Form.

Variable float : string -> option PrimFloat.float.

(** Lines 48-58: the loop that fills [parsed_inputs]. *)
Fixpoint parse_inputs (items : Py.dict (option string))
    (parsed_inputs : Py.dict Py.value) : Py.dict Py.value :=
  match items with
  | [] => parsed_inputs
  | (col_name, None) :: items' => parse_inputs items' parsed_inputs
  | (col_name, Some val) :: items' =>
      let val := Py.strip val in
      if Py.is_empty val then parse_inputs items' parsed_inputs
      else
        parse_inputs items'
          (Py.setitem parsed_inputs col_name
             match float val with
             | Some x => Py.Num_ x
             | None => Py.Str_ val
             end)
  end.

(** Lines 50-58 for one field: what the field adds to the criteria. *)
Definition field_criterion (kv : string * option string)
  : Py.dict Py.value :=
  match snd kv with
  | None => []
  | Some val =>
      if Py.is_empty (Py.strip val) then []
      else [(fst kv,
             match float (Py.strip val) with
             | Some x => Py.Num_ x
             | None => Py.Str_ (Py.strip val)
             end)]
  end.

(** What the page shows after a submit.  Both [except] branches show the
    exception with [st.error]; they differ in the words put before it. *)
Inductive message : Type :=
| warning_no_input
| error (e : exn)
| info_no_match
| success (n : nat) (result_df : DataFrame).

(** Lines 46-79: the body of [if submitted:], with the loaded table in
    [df_data]. *)
Definition on_submit {rt : Runtime} (df_data : ref)
    (input_values : Py.dict (option string)) : M message :=
  let parsed_inputs := parse_inputs input_values [] in
  match parsed_inputs with
  | [] => ret warning_no_input
  | _ =>
      fun st =>
        match find_matching_mofs df_data parsed_inputs st with
        | (Raise e, st') => (Return (error e), st')
        | (Return result_df, st') =>
            if empty result_df then (Return info_no_match, st')
            else (Return (success (nrows result_df) result_df), st')
        end
  end.

End Form.

End App.

(** *** A runtime for the worked examples

    Enough of pandas' number parsing, of Python's float printing and of
    [str.lower] for the tables below: unsigned decimal integers are parsed,
    integral values are printed as Python prints such floats, the letters
    A to Z are lower-cased, [astype(str)] spells a missing value "nan",
    and a column is added up from its first value to its last. *)
Module Demo.

Definition float_of_Z (z : Z) : PrimFloat.float :=
  if (z <? 0)%Z then (- PrimFloat.of_uint63 (Uint63.of_Z (- z)))%float
  else PrimFloat.of_uint63 (Uint63.of_Z z).

Definition lower_char (c : ascii) : ascii :=
  let n := nat_of_ascii c in
  if ((65 <=? n)%nat && (n <=? 90)%nat) then ascii_of_nat (n + 32) else c.

Fixpoint lower (s : string) : string :=
  match s with
  | EmptyString => EmptyString
  | String c s' => String (lower_char c) (lower s')
  end.

Definition runtime : Runtime :=
  {| to_numeric_text := fun s =>
       option_map (fun u => float_of_Z (Z.of_uint u)) (NilZero.uint_of_string s);
     str_of_number := fun x =>
       String.append
         (NilZero.string_of_int
            (Z.to_int
               match Prim2SF x with
               | S754_finite s m e =>
                   let z := Z.shiftl (Zpos m) e in if s then (- z)%Z else z
               | _ => 0%Z
               end)) ".0";
     str_of_missing := Some "nan";
     str_lower := lower;
     float_sum := fun l => fold_left PrimFloat.add l 0%float |}.

Definition call : ref -> Py.dict Py.value -> M DataFrame :=
  find_matching_mofs (rt := runtime).

Definition floats (l : list Z) : Series :=
  mkSeries float64 (map (fun z => Num (float_of_Z z)) l).

Definition texts (l : list string) : Series :=
  mkSeries object (map Str l).

(** Two records of entity "A", one of entity "B" (the scenario of the
    specification), with the descriptor in "PLD (Å)". *)
Definition scenario : DataFrame :=
  {| index := [0; 1; 2]%nat;
     data := [ ("MOF", texts ["A"; "A"; "B"]);
               ("N2", floats [1; 2; 3]%Z);
               ("CO2", floats [4; 5; 6]%Z);
               ("CH4", floats [7; 8; 9]%Z);
               ("Gas Temperature (°C)", floats [25; 30; 35]%Z);
               ("Gas Pressure (bar)", floats [1; 1; 1]%Z);
               ("Gas uptake (mmol/g)", floats [2; 5; 1]%Z);
               ("PLD (Å)", floats [10; 20; 30]%Z) ] |}.

(** The scenario with a descriptor column that holds text in one row and
    is therefore of object dtype. *)
Definition mixed : DataFrame :=
  set_column scenario "Void Fraction"
    (mkSeries object [Num 10; Num 20; Str "n/a"]).

(** The scenario with the two records of entity "A" under one label. *)
Definition relabelled : DataFrame :=
  {| index := [7; 7; 9]%nat; data := data scenario |}.

(** Three entities in four records, out of order. *)
Definition unsorted : DataFrame :=
  {| index := [0; 1; 2; 3]%nat;
     data := [ ("MOF", texts ["ZIF-8"; "HKUST-1"; "ZIF-8"; "MOF-5"]);
               ("N2", floats [1; 1; 1; 1]%Z);
               ("CO2", floats [0; 0; 0; 0]%Z);
               ("CH4", floats [0; 0; 0; 0]%Z);
               ("Gas Temperature (°C)", floats [25; 25; 30; 25]%Z);
               ("Gas Pressure (bar)", floats [1; 1; 1; 1]%Z);
               ("Gas uptake (mmol/g)", floats [3; 4; 3; 6]%Z) ] |}.

(** The criteria that select the two records of entity "A". *)
Definition criteria : Py.dict Py.value :=
  [("MOF", Py.Str_ " a "); ("Gas Pressure (bar)", Py.Num_ 1); ("N2", Py.None_)].

(** The criterion that selects every record of the scenario. *)
Definition pressure : Py.dict Py.value :=
  [("Gas Pressure (bar)", Py.Num_ 1)].

(** The table and the store the call on the scenario ends with. *)
Definition answer : DataFrame :=
  Eval vm_compute in
    match fst (call 0 criteria [scenario]) with
    | Return out => out
    | Raise _ => DataFrame_new []
    end.

Definition final_store : store :=
  Eval vm_compute in snd (call 0 criteria [scenario]).

(** The table and the store the call on the four records ends with. *)
Definition sorted_answer : DataFrame :=
  Eval vm_compute in
    match fst (call 0 pressure [unsorted]) with
    | Return out => out
    | Raise _ => DataFrame_new []
    end.

Definition sorted_store : store :=
  Eval vm_compute in snd (call 0 pressure [unsorted]).

(** The two records of entity "A" as [groupby] hands them over. *)
Definition group_A : DataFrame := select_rows scenario [true; true; false].

End Demo.

(** *** Further tables and forms for the worked examples *)
Module Cases.

(** [float] on the texts of the examples: unsigned decimal integers. *)
Definition float (s : string) : option PrimFloat.float :=
  option_map (fun u => Demo.float_of_Z (Z.of_uint u))
    (NilZero.uint_of_string s).

(** The one record of entity "B" as [groupby] hands it over. *)
Definition group_B : DataFrame :=
  select_rows Demo.scenario [false; false; true].

(** A table without a name column. *)
Definition no_names : DataFrame :=
  {| index := [0; 1]%nat; data := [("N2", Demo.floats [1; 2]%Z)] |}.

(** The scenario with an uptake column that holds no number. *)
Definition no_uptake : DataFrame :=
  set_column Demo.scenario "Gas uptake (mmol/g)" (Demo.texts ["-"; "-"; "-"]).

(** The form of the page, filled in for the name and the pressure. *)
Definition form : Py.dict (option string) :=
  combine INPUT_COLS
    [ Some " a "; Some ""; Some ""; Some ""; Some ""; Some "1";
      Some ""; Some "  "; Some ""; Some ""; Some ""; Some "" ].

(** The form of the page with nothing typed in. *)
Definition blank_form : Py.dict (option string) :=
  map (fun c => (c, Some "")) INPUT_COLS.

End Cases.

(** * Properties *)

(** ** The order of the floats *)

Ltac key_cases :=
  repeat split; intros H;
  try discriminate; try reflexivity;
  try (injection H; intros); try lia; try (f_equal; lia); try congruence.

Lemma SFcompare_key f g :
  f <> S754_nan -> g <> S754_nan ->
  exists c, SFcompare f g = Some c
    /\ (c = Lt <-> key_lt (sf_key f) (sf_key g))
    /\ (c = Eq <-> sf_key f = sf_key g)
    /\ (c = Gt <-> key_lt (sf_key g) (sf_key f)).
Proof.
  intros Hf Hg.
  destruct f as [sf|sf| |sf mf ef], g as [sg|sg| |sg mg eg];
    try congruence; try destruct sf; try destruct sg;
    (eexists; split; [reflexivity|]); cbn [sf_key key_lt];
    try (key_cases; fail);
    change (PosDef.Pos.compare_cont Eq mf mg) with (Pos.compare mf mg);
    destruct (Z.compare_spec ef eg) as [->|He|He];
    try (key_cases; fail);
    destruct (Pos.compare_spec mf mg) as [->|Hm|Hm]; cbn [CompOpp];
    key_cases.
Qed.

Lemma is_nan_false x : is_nan x = false <-> Prim2SF x <> S754_nan.
Proof.
  unfold is_nan. rewrite negb_false_iff, eqb_spec. unfold SFeqb. split.
  - intros H E. rewrite E in H. discriminate.
  - intros H. destruct (SFcompare_key _ _ H H) as [c [-> [_ [Hc _]]]].
    now rewrite (proj2 Hc eq_refl).
Qed.

Lemma ltb_true x y :
  (x <? y)%float = true <->
  is_nan x = false /\ is_nan y = false /\ key_lt (float_key x) (float_key y).
Proof.
  rewrite ltb_spec, !is_nan_false. unfold SFltb, float_key. split.
  - intros H.
    assert (Hx : Prim2SF x <> S754_nan)
      by (intros E; rewrite E in H; discriminate).
    assert (Hy : Prim2SF y <> S754_nan)
      by (intros E; rewrite E in H; destruct (Prim2SF x); discriminate).
    destruct (SFcompare_key _ _ Hx Hy) as [c [Ec [Hc _]]]. rewrite Ec in H.
    repeat split; try assumption. apply Hc. now destruct c.
  - intros [Hx [Hy H]].
    destruct (SFcompare_key _ _ Hx Hy) as [c [-> [Hc _]]].
    now rewrite (proj2 Hc H).
Qed.

Lemma eqb_true x y :
  (x =? y)%float = true <->
  is_nan x = false /\ is_nan y = false /\ float_key x = float_key y.
Proof.
  rewrite eqb_spec, !is_nan_false. unfold SFeqb, float_key. split.
  - intros H.
    assert (Hx : Prim2SF x <> S754_nan)
      by (intros E; rewrite E in H; discriminate).
    assert (Hy : Prim2SF y <> S754_nan)
      by (intros E; rewrite E in H; destruct (Prim2SF x); discriminate).
    destruct (SFcompare_key _ _ Hx Hy) as [c [Ec [_ [Hc _]]]]. rewrite Ec in H.
    repeat split; try assumption. apply Hc. now destruct c.
  - intros [Hx [Hy H]].
    destruct (SFcompare_key _ _ Hx Hy) as [c [-> [_ [Hc _]]]].
    now rewrite (proj2 Hc H).
Qed.

Lemma leb_true x y :
  (x <=? y)%float = true <->
  is_nan x = false /\ is_nan y = false
  /\ (key_lt (float_key x) (float_key y) \/ float_key x = float_key y).
Proof.
  rewrite leb_spec, !is_nan_false. unfold SFleb, float_key. split.
  - intros H.
    assert (Hx : Prim2SF x <> S754_nan)
      by (intros E; rewrite E in H; discriminate).
    assert (Hy : Prim2SF y <> S754_nan)
      by (intros E; rewrite E in H; destruct (Prim2SF x); discriminate).
    destruct (SFcompare_key _ _ Hx Hy) as [c [Ec [Hl [He _]]]].
    rewrite Ec in H. repeat split; try assumption.
    destruct c; [right; now apply He | left; now apply Hl | discriminate].
  - intros [Hx [Hy H]].
    destruct (SFcompare_key _ _ Hx Hy) as [c [-> [Hl [He _]]]].
    destruct H as [H|H]; [now rewrite (proj2 Hl H) | now rewrite (proj2 He H)].
Qed.

(** Two numbers compare one way or the other. *)
Lemma key_total a b : key_lt a b \/ a = b \/ key_lt b a.
Proof.
  destruct a as [[a1 a2] a3], b as [[b1 b2] b3]. unfold key_lt.
  destruct (Z.lt_total a1 b1) as [H|[H|H]]; [lia| |lia].
  destruct (Z.lt_total a2 b2) as [H2|[H2|H2]]; [lia| |lia].
  destruct (Z.lt_total a3 b3) as [H3|[H3|H3]]; [lia| |lia].
  right. left. congruence.
Qed.

Lemma key_lt_trans a b c : key_lt a b -> key_lt b c -> key_lt a c.
Proof.
  destruct a as [[a1 a2] a3], b as [[b1 b2] b3], c as [[c1 c2] c3].
  unfold key_lt. lia.
Qed.

Lemma key_lt_irrefl a : ~ key_lt a a.
Proof. destruct a as [[a1 a2] a3]. unfold key_lt. lia. Qed.

Lemma leb_not_nan x y :
  (x <=? y)%float = true -> is_nan x = false /\ is_nan y = false.
Proof. intros H. apply leb_true in H. tauto. Qed.


(** ** White space *)

Lemma lstrip_unfold s :
  Py.lstrip s = match space_width s with
                | 0 => s
                | w => Py.lstrip (drop w s)
                end.
Proof.
  destruct s as [|c1 [|c2 [|c3 s]]]; cbn [Py.lstrip space_width];
    try reflexivity.
  - destruct (Py.is_space c1); reflexivity.
  - destruct (Py.is_space c1); [reflexivity|].
    destruct (Py.is_space2 c1 c2); reflexivity.
  - destruct (Py.is_space c1); [reflexivity|].
    destruct (Py.is_space2 c1 c2); [reflexivity|].
    destruct (Py.is_space3 c1 c2 c3); reflexivity.
Qed.

Lemma space_width_le s : space_width s <= String.length s.
Proof.
  destruct s as [|c1 [|c2 [|c3 s]]]; cbn [space_width String.length];
    repeat match goal with |- context [if ?b then _ else _] => destruct b end;
    lia.
Qed.

Lemma drop_length n s : n <= String.length s ->
  String.length (drop n s) = String.length s - n.
Proof.
  revert s. induction n as [|n IH]; intros [|c s] H; simpl in *; try lia.
  apply IH. lia.
Qed.

Lemma drop_append n s w : n <= String.length s -> drop n (s ++ w)%string = (drop n s ++ w)%string.
Proof.
  revert s. induction n as [|n IH]; intros [|c s] H; simpl in *;
    try reflexivity; try lia.
  apply IH. lia.
Qed.

(** The leading white-space character is read off the bytes it is made
    of, whatever follows. *)
Lemma space_width_append s w :
  space_width s <> 0 -> space_width (s ++ w)%string = space_width s.
Proof.
  destruct s as [|c1 [|c2 [|c3 s]]]; cbn [space_width String.append];
    intros H; try congruence; try reflexivity.
  - destruct (Py.is_space c1); [|congruence]. now destruct w as [|? [|? ?]].
  - destruct (Py.is_space c1); [now destruct w|].
    destruct (Py.is_space2 c1 c2); [|congruence]. now destruct w.
Qed.

Lemma lstrip_no_space s : space_width (Py.lstrip s) = 0.
Proof.
  remember (String.length s) as n eqn:Hn. revert s Hn.
  induction n as [n IH] using lt_wf_ind. intros s Hn.
  rewrite lstrip_unfold. destruct (space_width s) as [|w] eqn:E; [exact E|].
  pose proof (space_width_le s) as Hle.
  apply (IH (String.length (drop (S w) s))); [|reflexivity].
  rewrite drop_length by lia. lia.
Qed.

Lemma lstrip_fixed s : space_width s = 0 -> Py.lstrip s = s.
Proof. intros H. now rewrite lstrip_unfold, H. Qed.

Lemma lstrip_idempotent s : Py.lstrip (Py.lstrip s) = Py.lstrip s.
Proof. apply lstrip_fixed, lstrip_no_space. Qed.

(** White space followed by white space is white space. *)
Lemma lstrip_append s w :
  Py.lstrip s = "" -> Py.lstrip (s ++ w)%string = Py.lstrip w.
Proof.
  remember (String.length s) as n eqn:Hn. revert s Hn.
  induction n as [n IH] using lt_wf_ind. intros s Hn H.
  destruct s as [|c s']; [reflexivity|].
  rewrite lstrip_unfold in H.
  destruct (space_width (String c s')) as [|k] eqn:E; [discriminate|].
  pose proof (space_width_le (String c s')) as Hle.
  rewrite (lstrip_unfold (String c s' ++ w)%string).
  rewrite space_width_append by congruence. rewrite E.
  rewrite drop_append by lia.
  apply (IH (String.length (drop (S k) (String c s')))); auto.
  rewrite drop_length by lia. lia.
Qed.

Lemma rstrip_split s :
  exists w, s = (Py.rstrip s ++ w)%string /\ Py.lstrip w = "".
Proof.
  induction s as [|c s IH]; [exists ""; split; reflexivity|].
  cbn [Py.rstrip].
  destruct (Py.is_empty (Py.lstrip (String c s))) eqn:E.
  - exists (String c s). split; [reflexivity|].
    now destruct (Py.lstrip (String c s)).
  - destruct IH as [w [Hs Hw]]. exists w. split; [|assumption].
    cbn [String.append]. now rewrite <- Hs.
Qed.

Lemma rstrip_idempotent s : Py.rstrip (Py.rstrip s) = Py.rstrip s.
Proof.
  induction s as [|c s IH]; [reflexivity|]. cbn [Py.rstrip].
  destruct (Py.is_empty (Py.lstrip (String c s))) eqn:E; [reflexivity|].
  cbn [Py.rstrip]. rewrite IH.
  destruct (Py.is_empty (Py.lstrip (String c (Py.rstrip s)))) eqn:E';
    [|reflexivity].
  exfalso. destruct (rstrip_split s) as [w [Hs Hw]].
  assert (H : Py.lstrip (String c (Py.rstrip s)) = "")
    by (now destruct (Py.lstrip (String c (Py.rstrip s)))).
  apply (lstrip_append _ w) in H. cbn [String.append] in H.
  rewrite <- Hs, Hw in H. rewrite H in E. discriminate.
Qed.

(** Cutting the end off text that starts with no white space leaves text
    that starts with none. *)
Lemma rstrip_no_space s : space_width s = 0 -> space_width (Py.rstrip s) = 0.
Proof.
  intros H. destruct (rstrip_split s) as [w [Hs _]].
  destruct (space_width (Py.rstrip s)) as [|k] eqn:E; [reflexivity|].
  exfalso. rewrite Hs in H. rewrite space_width_append in H; congruence.
Qed.

(** [strip] has nothing left to strip from its own result. *)
Lemma strip_idempotent s : Py.strip (Py.strip s) = Py.strip s.
Proof.
  unfold Py.strip.
  rewrite (lstrip_fixed (Py.rstrip (Py.lstrip s)))
    by apply rstrip_no_space, lstrip_no_space.
  apply rstrip_idempotent.
Qed.

(** ** Text, dictionaries and the store *)

Lemma contains_In (l : list string) (x : string) :
  Py.contains l x = true <-> In x l.
Proof.
  unfold Py.contains. rewrite existsb_exists. split.
  - intros [y [Hy He]]. apply String.eqb_eq in He. now subst.
  - intros H. exists x. split; [assumption | apply String.eqb_refl].
Qed.

Lemma contains_false (l : list string) (x : string) :
  Py.contains l x = false <-> ~ In x l.
Proof.
  rewrite <- contains_In. destruct (Py.contains l x); split; congruence.
Qed.

Lemma get_Some_In {V} (d : Py.dict V) (k : string) (v : V) :
  Py.get d k = Some v -> In k (Py.keys d).
Proof.
  induction d as [|[k' v'] d IH]; simpl; [discriminate|].
  destruct (String.eqb_spec k' k); intros H; [now left | right; auto].
Qed.

Lemma In_get_Some {V} (d : Py.dict V) (k : string) :
  In k (Py.keys d) -> exists v, Py.get d k = Some v.
Proof.
  induction d as [|[k' v'] d IH]; simpl; [tauto|].
  intros [->|H]; [rewrite String.eqb_refl; eauto|].
  destruct (String.eqb k' k); eauto.
Qed.

Lemma get_setitem_same {V} (d : Py.dict V) (k : string) (v : V) :
  Py.get (Py.setitem d k v) k = Some v.
Proof.
  induction d as [|[k' v'] d IH]; simpl.
  - now rewrite String.eqb_refl.
  - destruct (String.eqb_spec k' k); simpl.
    + now rewrite String.eqb_refl.
    + destruct (String.eqb_spec k' k); [contradiction | assumption].
Qed.

Lemma get_setitem_other {V} (d : Py.dict V) (k k' : string) (v : V) :
  k <> k' -> Py.get (Py.setitem d k v) k' = Py.get d k'.
Proof.
  intros Hne. induction d as [|[k0 v0] d IH]; simpl.
  - destruct (String.eqb_spec k k'); [contradiction | reflexivity].
  - destruct (String.eqb_spec k0 k); simpl.
    + subst k0. destruct (String.eqb_spec k k'); [contradiction | reflexivity].
    + destruct (String.eqb_spec k0 k'); [reflexivity | assumption].
Qed.

(** Assigning to a key that is there keeps the keys and their order. *)
Lemma keys_setitem_present {V} (d : Py.dict V) (k : string) (v : V) :
  In k (Py.keys d) -> Py.keys (Py.setitem d k v) = Py.keys d.
Proof.
  induction d as [|[k0 v0] d IH]; simpl; [tauto|].
  intros H. destruct (String.eqb_spec k0 k); simpl.
  - now subst.
  - f_equal. apply IH. destruct H; [contradiction | assumption].
Qed.

Lemma keys_setitem_In {V} (d : Py.dict V) (k k' : string) (v : V) :
  In k' (Py.keys (Py.setitem d k v)) <-> k' = k \/ In k' (Py.keys d).
Proof.
  induction d as [|[k0 v0] d IH]; simpl.
  - intuition.
  - destruct (String.eqb_spec k0 k); simpl.
    + subst. intuition.
    + rewrite IH. intuition.
Qed.

Lemma keys_setitem_NoDup {V} (d : Py.dict V) (k : string) (v : V) :
  NoDup (Py.keys d) -> NoDup (Py.keys (Py.setitem d k v)).
Proof.
  induction d as [|[k0 v0] d IH]; simpl; intros H.
  - constructor; [simpl; tauto | constructor].
  - inversion H as [|? ? Hn Hd]; subst.
    destruct (String.eqb_spec k0 k); simpl.
    + subst. now constructor.
    + constructor; [|auto].
      change (~ In k0 (Py.keys (Py.setitem d k v))).
      rewrite keys_setitem_In. intros [->|Hin]; [congruence | contradiction].
Qed.

Lemma nth_error_new {A} (st : list A) (d : A) :
  nth_error (st ++ [d]) (List.length st) = Some d.
Proof. rewrite nth_error_app2, Nat.sub_diag; [reflexivity | lia]. Qed.

Lemma update_new {A} (st : list A) (d d' : A) :
  update (st ++ [d]) (List.length st) d' = st ++ [d'].
Proof. induction st; simpl; [reflexivity | now f_equal]. Qed.

Lemma update_length {A} (st : list A) (r : nat) (x : A) :
  List.length (update st r x) = List.length st.
Proof.
  revert r. induction st; intros [|r]; simpl; auto.
Qed.

Lemma update_firstn {A} (st : list A) (r n : nat) (x : A) :
  (n <= r)%nat -> firstn n (update st r x) = firstn n st.
Proof.
  revert r n. induction st as [|y st IH]; intros [|r] [|n] H; simpl;
    try reflexivity; try lia.
  f_equal. apply IH. lia.
Qed.

(** ** Running a computation *)

Lemma bind_Return {A B} (m : M A) (k : A -> M B) st a st' :
  m st = (Return a, st') -> bind m k st = k a st'.
Proof. unfold bind. now intros ->. Qed.

Lemma bind_Return_inv {A B} (m : M A) (k : A -> M B) st b st2 :
  bind m k st = (Return b, st2) ->
  exists a st1, m st = (Return a, st1) /\ k a st1 = (Return b, st2).
Proof.
  unfold bind. destruct (m st) as [[a|e] st1]; intros H.
  - eauto.
  - discriminate.
Qed.

Lemma Return_inj {A} (a b : A) : Return a = Return b -> a = b.
Proof. now intros [= ->]. Qed.

Lemma deref_run st r d :
  nth_error st r = Some d -> deref r st = (Return d, st).
Proof. unfold deref. now intros ->. Qed.

Lemma getitem_run st r d col s :
  nth_error st r = Some d -> Py.get (data d) col = Some s ->
  getitem r col st = (Return s, st).
Proof.
  intros Hr Hc. unfold getitem.
  rewrite (bind_Return _ _ _ _ _ (deref_run _ _ _ Hr)). now rewrite Hc.
Qed.

Lemma setitem_run st r d col s :
  nth_error st r = Some d ->
  setitem r col s st = (Return tt, update st r (set_column d col s)).
Proof. unfold setitem. now intros ->. Qed.

Lemma copy_run st r d :
  nth_error st r = Some d ->
  copy r st = (Return (List.length st), st ++ [d]).
Proof.
  intros Hr. unfold copy.
  now rewrite (bind_Return _ _ _ _ _ (deref_run _ _ _ Hr)).
Qed.

(** ** Normalising the criteria *)

Lemma normalise_blank items acc :
  Forall (fun kv => blank (snd kv)) items -> normalise items acc = acc.
Proof.
  induction 1 as [|[k v] items Hv _ IH]; simpl; [reflexivity|].
  destruct v as [|s|q]; simpl in Hv.
  - assumption.
  - now rewrite Hv.
  - contradiction.
Qed.

Lemma normalise_NoDup items acc :
  NoDup (Py.keys acc) -> NoDup (Py.keys (normalise items acc)).
Proof.
  revert acc. induction items as [|[k v] items IH]; intros acc H; simpl.
  - assumption.
  - destruct v as [|s|q]; [auto| |].
    + destruct (Py.is_empty (Py.strip s)); auto using keys_setitem_NoDup.
    + auto using keys_setitem_NoDup.
Qed.

Lemma setitem_Forall {V} (P : V -> Prop) (d : Py.dict V) k v :
  P v -> Forall (fun kv => P (snd kv)) d ->
  Forall (fun kv => P (snd kv)) (Py.setitem d k v).
Proof.
  intros Hv. induction 1 as [|[k0 v0] d H0 Hd IH]; simpl.
  - now repeat constructor.
  - destruct (String.eqb k0 k); constructor; auto.
Qed.

(** Only real criteria survive normalisation. *)
Lemma normalise_is_criterion items acc :
  Forall (fun kv => is_criterion (snd kv) = true) acc ->
  Forall (fun kv => is_criterion (snd kv) = true) (normalise items acc).
Proof.
  revert acc. induction items as [|[k v] items IH]; intros acc H; simpl.
  - assumption.
  - destruct v as [|s|q]; [auto| |].
    + destruct (Py.is_empty (Py.strip s)) eqn:E; [auto|].
      apply IH, (setitem_Forall (fun v => is_criterion v = true)); [|assumption].
      simpl. now rewrite E.
    + apply IH, (setitem_Forall (fun v => is_criterion v = true)); auto.
Qed.

Section Properties.

Context {rt : Runtime}.

(** ** The early exits *)

(** C10. On a table without rows the call returns the empty table of the
    output schema at once, whatever the criteria are: it raises nothing,
    even for criteria that name unknown columns, and it touches no object. *)
Theorem empty_dataset_returns_empty_table st df d inputs :
  nth_error st df = Some d ->
  nrows d = 0%nat ->
  find_matching_mofs df inputs st = (Return (DataFrame_new OUTPUT_COLS), st).
Proof.
  intros Hdf Hn. unfold find_matching_mofs.
  rewrite (bind_Return _ _ _ _ _ (deref_run _ _ _ Hdf)).
  unfold empty. now rewrite Hn.
Qed.

(** C1 (as the code has it). When every value of the criteria is [None],
    empty or blank text, the call returns the empty table of the output
    schema and raises nothing. *)
Theorem blank_criteria_return_empty_table st df d inputs :
  nth_error st df = Some d ->
  Forall (fun kv => blank (snd kv)) inputs ->
  find_matching_mofs df inputs st = (Return (DataFrame_new OUTPUT_COLS), st).
Proof.
  intros Hdf Hb. unfold find_matching_mofs.
  rewrite (bind_Return _ _ _ _ _ (deref_run _ _ _ Hdf)).
  destruct (empty d); [reflexivity|].
  now rewrite (normalise_blank _ _ Hb).
Qed.

(** C2. On a table that is not empty, criteria that name columns the table
    does not have make the call raise one [KeyError] listing all of them. *)
Theorem unknown_columns_raise_one_error st df d inputs :
  nth_error st df = Some d ->
  empty d = false ->
  (exists k, In k (Py.keys (normalise inputs [])) /\ ~ In k (columns d)) ->
  exists missing_cols,
    find_matching_mofs df inputs st
      = (Raise (KeyError_missing_columns missing_cols), st)
    /\ forall k, In k missing_cols <->
                 In k (Py.keys (normalise inputs [])) /\ ~ In k (columns d).
Proof.
  intros Hdf He [k [Hk Hn]].
  exists (missing_columns d (normalise inputs [])).
  assert (Hspec : forall k', In k' (missing_columns d (normalise inputs [])) <->
            In k' (Py.keys (normalise inputs [])) /\ ~ In k' (columns d)).
  { intros k'. unfold missing_columns. rewrite filter_In, negb_true_iff.
    now rewrite contains_false. }
  split; [|exact Hspec].
  unfold find_matching_mofs.
  rewrite (bind_Return _ _ _ _ _ (deref_run _ _ _ Hdf)), He.
  destruct (normalise inputs []) as [|kv provided] eqn:E; [destruct Hk|].
  destruct (missing_columns d (kv :: provided)) eqn:Em; [|reflexivity].
  exfalso. apply (proj2 (Hspec k)). now split.
Qed.

(** ** One criterion *)

Lemma mask_and_length mask flags :
  List.length mask = List.length flags ->
  List.length (mask_and mask flags) = List.length mask.
Proof.
  revert flags. induction mask as [|b mask IH]; intros [|f flags] H; simpl in *;
    try reflexivity; try discriminate.
  f_equal. apply IH. congruence.
Qed.

Lemma mask_and_nth mask flags i :
  List.length mask = List.length flags ->
  nth i (mask_and mask flags) false = nth i mask false && nth i flags false.
Proof.
  revert flags i. induction mask as [|b mask IH]; intros [|f flags] [|i] H;
    simpl in *; try reflexivity; try discriminate.
  apply IH. congruence.
Qed.

Lemma nth_map_lt {A B} (f : A -> B) (l : list A) (i : nat) (a : A) (b : B) :
  (i < List.length l)%nat -> nth i (map f l) b = f (nth i l a).
Proof.
  intros H. rewrite (nth_indep _ b (f a)); [apply map_nth|].
  now rewrite length_map.
Qed.

Lemma nth_error_update_same {A} (st : list A) (r : nat) (x y : A) :
  nth_error st r = Some y -> nth_error (update st r x) r = Some x.
Proof.
  revert r. induction st as [|z st IH]; intros [|r]; simpl; try discriminate;
    auto.
Qed.

Lemma update_update {A} (st : list A) (r : nat) (x y : A) :
  update (update st r x) r y = update st r y.
Proof.
  revert r. induction st as [|z st IH]; intros [|r]; simpl; try reflexivity.
  now f_equal.
Qed.

(** What one turn of the loop does to the store and to the mask. *)
Lemma apply_criterion_run st df_work dw col val s mask :
  nth_error st df_work = Some dw ->
  Py.get (data dw) col = Some s ->
  is_criterion val = true ->
  apply_criterion df_work mask (col, val) st
  = (Return (mask_and mask (map (satisfies val) (values s))),
     update st df_work (set_column dw col (coerce_column val s))).
Proof.
  intros Hw Hc Hv.
  assert (Hw' : forall x, nth_error (update st df_work (set_column dw col x))
                            df_work = Some (set_column dw col x))
    by (intros; eapply nth_error_update_same; eassumption).
  assert (Hc' : forall x, Py.get (data (set_column dw col x)) col = Some x)
    by (intros; apply get_setitem_same).
  destruct val as [|t|v]; [discriminate| |]; unfold apply_criterion.
  - rewrite (bind_Return _ _ _ _ _ (getitem_run _ _ _ _ _ Hw Hc)).
    rewrite (bind_Return _ _ _ _ _ (setitem_run _ _ _ _ _ Hw)).
    rewrite (bind_Return _ _ _ _ _ (getitem_run _ _ _ _ _ (Hw' _) (Hc' _))).
    unfold ret. simpl. now rewrite map_map.
  - rewrite (bind_Return _ _ _ _ _ (getitem_run _ _ _ _ _ Hw Hc)).
    rewrite (bind_Return _ _ _ _ _ (setitem_run _ _ _ _ _ Hw)).
    rewrite (bind_Return _ _ _ _ _ (getitem_run _ _ _ _ _ (Hw' _) (Hc' _))).
    unfold ret. simpl. now rewrite map_map.
Qed.

Lemma between_cell_true lower upper c :
  between_cell lower upper c = true <->
  exists y, c = Num y
            /\ (lower <=? y)%float = true /\ (y <=? upper)%float = true.
Proof.
  destruct c as [|y|t]; simpl.
  - split; [discriminate | intros [y [H _]]; discriminate].
  - rewrite andb_true_iff. split.
    + intros [H1 H2]. eauto.
    + intros [y' [E [H1 H2]]]. injection E as <-. now split.
  - split; [discriminate | intros [y [H _]]; discriminate].
Qed.


(** C4. A text criterion keeps a record exactly when the record was kept so
    far and the text of its cell, stripped and lower-cased, is the
    criterion, stripped and lower-cased.  A cell that has no text is never
    kept. *)
Theorem text_criterion_matches_normalised_text st df_work dw col s t mask i :
  nth_error st df_work = Some dw ->
  Py.get (data dw) col = Some s ->
  List.length mask = List.length (values s) ->
  (i < List.length mask)%nat ->
  is_criterion (Py.Str_ t) = true ->
  exists mask' st',
    apply_criterion df_work mask (col, Py.Str_ t) st = (Return mask', st')
    /\ (nth i mask' false = true <->
        nth i mask false = true /\
        exists text, astype_str_cell (nth i (values s) NA) = Str text
                     /\ str_lower (Py.strip text) = str_lower (Py.strip t))
    /\ (astype_str_cell (nth i (values s) NA) = NA ->
        nth i mask' false = false).
Proof.
  intros Hw Hc Hlen Hi Ht.
  eexists _, _. split; [apply (apply_criterion_run _ _ _ _ _ _ _ Hw Hc Ht)|].
  rewrite mask_and_nth by now rewrite length_map.
  rewrite (nth_map_lt _ _ _ NA) by lia.
  cbn [satisfies]. unfold normalise_text_cell.
  destruct (astype_str_cell (nth i (values s) NA)) as [|y|text] eqn:E; simpl.
  - rewrite andb_false_r. split; [|reflexivity].
    split; [discriminate | intros [_ [text [H _]]]; discriminate].
  - rewrite andb_false_r. split; [|discriminate].
    split; [discriminate | intros [_ [text [H _]]]; discriminate].
  - split; [|discriminate].
    rewrite andb_true_iff, String.eqb_eq. split.
    + intros [H1 H2]. eauto.
    + intros [H1 [text' [E' H2]]]. injection E' as <-. now split.
Qed.

(** ** The loop over the criteria *)

Lemma update_same {A} (st : list A) (r : nat) (x : A) :
  nth_error st r = Some x -> update st r x = st.
Proof.
  revert r. induction st as [|y st IH]; intros [|r]; simpl; try discriminate.
  - now intros [= ->].
  - intros H. f_equal. auto.
Qed.

Lemma coerce_column_length val s :
  List.length (values (coerce_column val s)) = List.length (values s).
Proof. destruct val; simpl; apply length_map. Qed.

Lemma set_column_aligned d col s :
  aligned d -> List.length (values s) = nrows d ->
  aligned (set_column d col s).
Proof.
  intros Ha Hs. unfold aligned, set_column. simpl.
  apply (setitem_Forall (fun s => List.length (values s) = nrows d));
    assumption.
Qed.

Lemma aligned_get d col s :
  aligned d -> Py.get (data d) col = Some s ->
  List.length (values s) = nrows d.
Proof.
  unfold aligned. generalize (nrows d) as n. intros n Ha.
  induction Ha as [|[k v] l Hv Hl IH]; simpl; [discriminate|].
  destruct (String.eqb k col); [now intros [= <-] | assumption].
Qed.

Lemma cell_at_set_column_other d col col' s i :
  col <> col' -> cell_at (set_column d col s) col' i = cell_at d col' i.
Proof.
  intros H. unfold cell_at, set_column. simpl.
  now rewrite get_setitem_other.
Qed.

Lemma matches_ext provided d d' i :
  (forall col, In col (Py.keys provided) -> cell_at d' col i = cell_at d col i) ->
  matches provided d' i = matches provided d i.
Proof.
  unfold matches. induction provided as [|[col val] provided IH]; intros H.
  - reflexivity.
  - cbn [forallb fst snd]. rewrite H by now left.
    f_equal. apply IH. intros c Hc. apply H. now right.
Qed.

(** The loop coerces the criteria columns of the working copy one after
    the other and leaves in the mask the records that satisfy all of them.
    As the criteria have distinct names, each one reads its column as the
    caller's table has it. *)
Lemma for_each_apply_criterion provided :
  forall st df_work dw mask,
    nth_error st df_work = Some dw ->
    aligned dw ->
    List.length mask = nrows dw ->
    NoDup (Py.keys provided) ->
    Forall (fun kv => is_criterion (snd kv) = true) provided ->
    (forall k, In k (Py.keys provided) -> In k (columns dw)) ->
    exists mask',
      for_each (apply_criterion df_work) provided mask st
      = (Return mask', update st df_work (work_table provided dw))
      /\ List.length mask' = List.length mask
      /\ forall i, nth i mask' false = nth i mask false && matches provided dw i.
Proof.
  induction provided as [|[col val] provided IH];
    intros st df_work dw mask Hw Ha Hlen Hnd Hcrit Hcols.
  - exists mask. simpl. unfold ret. rewrite (update_same _ _ _ Hw).
    repeat split. intros i. now rewrite andb_true_r.
  - simpl in Hnd. inversion Hnd as [|? ? Hnotin Hnd']; subst.
    inversion Hcrit as [|? ? Hval Hcrit']; subst. simpl in Hval.
    destruct (In_get_Some (data dw) col) as [s Hs];
      [apply Hcols; now left|].
    pose proof (aligned_get _ _ _ Ha Hs) as Hsl.
    set (dw1 := set_column dw col (coerce_column val s)).
    assert (Hcol : columns dw1 = columns dw).
    { unfold dw1, columns, set_column. simpl.
      apply keys_setitem_present, Hcols. now left. }
    destruct (IH (update st df_work dw1) df_work dw1
                 (mask_and mask (map (satisfies val) (values s))))
      as [mask' [Hrun [Hlen' Hnth]]].
    + eapply nth_error_update_same; eassumption.
    + apply set_column_aligned; [assumption|].
      now rewrite coerce_column_length.
    + rewrite mask_and_length; [assumption | now rewrite length_map, Hsl].
    + assumption.
    + assumption.
    + intros k Hk. rewrite Hcol. apply Hcols. now right.
    + exists mask'. split; [|split].
      * cbn [for_each].
        rewrite (bind_Return _ _ _ _ _
                   (apply_criterion_run _ _ _ _ _ _ mask Hw Hs Hval)).
        fold dw1. rewrite Hrun, update_update. cbn [work_table].
        now rewrite Hs.
      * rewrite Hlen'. apply mask_and_length. now rewrite length_map, Hsl.
      * intros i. rewrite Hnth.
        rewrite mask_and_nth by now rewrite length_map, Hsl.
        rewrite (matches_ext provided dw dw1).
        2:{ intros c Hc. apply cell_at_set_column_other.
            intros <-. contradiction. }
        unfold matches at 2. cbn [forallb fst snd].
        destruct (Nat.lt_ge_cases i (List.length (values s))) as [Hi|Hi].
        -- rewrite (nth_map_lt _ _ _ NA) by assumption.
           unfold cell_at. rewrite Hs. now rewrite andb_assoc.
        -- rewrite (nth_overflow mask) by lia. reflexivity.
Qed.

(** ** The matching subset *)

(** Boolean indexing keeps the flagged positions, in their order. *)
Lemma compress_filter_from {A} (a : A) (l : list A) :
  forall mask k,
    List.length mask = List.length l ->
    compress mask l
    = map (fun i => nth (i - k) l a)
        (filter (fun i => nth (i - k) mask false) (seq k (List.length l))).
Proof.
  induction l as [|x l IH]; intros [|b mask] k Hlen; simpl in Hlen;
    try discriminate; try reflexivity.
  assert (Hm : map (fun i => nth (i - k) (x :: l) a)
                 (filter (fun i => nth (i - k) (b :: mask) false)
                    (seq (S k) (List.length l)))
               = compress mask l).
  { rewrite (IH mask (S k)) by congruence.
    rewrite (filter_ext_in (fun i => nth (i - k) (b :: mask) false)
                           (fun i => nth (i - S k) mask false)).
    - apply map_ext_in. intros i Hi. apply filter_In in Hi.
      destruct Hi as [Hi _]. apply in_seq in Hi.
      replace (i - k)%nat with (S (i - S k)) by lia. reflexivity.
    - intros i Hi. apply in_seq in Hi.
      replace (i - k)%nat with (S (i - S k)) by lia. reflexivity. }
  change (seq k (List.length (x :: l))) with (k :: seq (S k) (List.length l)).
  cbn [filter]. rewrite Nat.sub_diag. change (nth 0 (b :: mask) false) with b.
  destruct b; cbn [compress map]; rewrite ?Nat.sub_diag;
    change (nth 0 (x :: l) a) with x; now rewrite Hm.
Qed.

Lemma compress_filter {A} (a : A) (l : list A) (mask : list bool) :
  List.length mask = List.length l ->
  compress mask l
  = map (fun i => nth i l a)
      (filter (fun i => nth i mask false) (seq 0 (List.length l))).
Proof.
  intros H. rewrite (compress_filter_from a l mask 0 H).
  rewrite (filter_ext (fun i => nth (i - 0) mask false)
                      (fun i => nth i mask false))
    by (intros; now rewrite Nat.sub_0_r).
  apply map_ext. intros. now rewrite Nat.sub_0_r.
Qed.

Lemma nth_repeat_true n i :
  (i < n)%nat -> nth i (repeat true n) false = true.
Proof.
  revert i. induction n as [|n IH]; intros [|i] H; simpl; try lia; auto.
  apply IH. lia.
Qed.

(** Lines 76-91 as one step: the working copy is a new object, and the
    subset is cut from it by the conjunction of the criteria. *)
Lemma filter_records_run st df d provided :
  nth_error st df = Some d ->
  aligned d ->
  NoDup (Py.keys provided) ->
  Forall (fun kv => is_criterion (snd kv) = true) provided ->
  (forall k, In k (Py.keys provided) -> In k (columns d)) ->
  exists mask,
    filter_records df provided st
    = (Return (select_rows (work_table provided d) mask),
       st ++ [work_table provided d])
    /\ List.length mask = nrows d
    /\ forall i, (i < nrows d)%nat -> nth i mask false = matches provided d i.
Proof.
  intros Hdf Ha Hnd Hcrit Hcols.
  destruct (for_each_apply_criterion provided (st ++ [d]) (List.length st) d
              (repeat true (nrows d)))
    as [mask [Hrun [Hlen Hnth]]]; auto using nth_error_new, repeat_length.
  exists mask. split; [|split].
  - unfold filter_records.
    rewrite (bind_Return _ _ _ _ _ (deref_run _ _ _ Hdf)).
    rewrite (bind_Return _ _ _ _ _ (copy_run _ _ _ Hdf)).
    rewrite (bind_Return _ _ _ _ _ Hrun).
    rewrite update_new.
    now rewrite (bind_Return _ _ _ _ _ (deref_run _ _ _ (nth_error_new _ _))).
  - now rewrite Hlen, repeat_length.
  - intros i Hi. now rewrite Hnth, nth_repeat_true.
Qed.

Lemma work_table_index provided :
  forall d, index (work_table provided d) = index d.
Proof.
  induction provided as [|[col val] provided IH]; intros d; simpl.
  - reflexivity.
  - destruct (Py.get (data d) col); now rewrite IH.
Qed.

Lemma work_table_columns provided :
  forall d, columns (work_table provided d) = columns d.
Proof.
  induction provided as [|[col val] provided IH]; intros d; simpl.
  - reflexivity.
  - destruct (Py.get (data d) col) as [s|] eqn:E; rewrite IH; [|reflexivity].
    unfold columns, set_column. simpl.
    apply keys_setitem_present. eapply get_Some_In; eassumption.
Qed.

Lemma missing_columns_nil d provided :
  missing_columns d provided = [] ->
  forall k, In k (Py.keys provided) -> In k (columns d).
Proof.
  unfold missing_columns. intros H k Hk.
  destruct (Py.contains (columns d) k) eqn:E; [now apply contains_In|].
  assert (Hin : In k (filter (fun k => negb (Py.contains (columns d) k))
                        (Py.keys provided)))
    by (apply filter_In; split; [assumption | now rewrite E]).
  rewrite H in Hin. destruct Hin.
Qed.

Lemma select_rows_columns d mask : columns (select_rows d mask) = columns d.
Proof.
  unfold columns, select_rows, Py.keys. simpl. rewrite map_map. reflexivity.
Qed.

(** The call from the point where the criteria are known to be in order. *)
Lemma find_matching_mofs_main st df d inputs :
  nth_error st df = Some d ->
  empty d = false ->
  normalise inputs [] <> [] ->
  missing_columns d (normalise inputs []) = [] ->
  find_matching_mofs df inputs st
  = bind (filter_records df (normalise inputs []))
      (fun matched =>
         if empty matched then ret (DataFrame_new OUTPUT_COLS) else
         groups <- groupby matched "MOF" ;;
         grouped_rows <- aggregate_groups groups ;;
         lift (DataFrame_of_rows grouped_rows OUTPUT_COLS)) st.
Proof.
  intros Hdf He Hp Hm. unfold find_matching_mofs.
  rewrite (bind_Return _ _ _ _ _ (deref_run _ _ _ Hdf)), He.
  destruct (normalise inputs []) eqn:E; [congruence|].
  now rewrite Hm.
Qed.

Lemma get_select_rows d mask col :
  Py.get (data (select_rows d mask)) col
  = option_map (fun s => mkSeries (dtype_of s) (compress mask (values s)))
      (Py.get (data d) col).
Proof.
  unfold select_rows. simpl. induction (data d) as [|[k s] l IH]; simpl.
  - reflexivity.
  - destruct (String.eqb k col); [reflexivity | assumption].
Qed.

Lemma work_table_aligned provided :
  forall d, aligned d -> aligned (work_table provided d).
Proof.
  induction provided as [|[col val] provided IH]; intros d Ha; simpl.
  - assumption.
  - destruct (Py.get (data d) col) as [s|] eqn:E; apply IH; [|assumption].
    apply set_column_aligned; [assumption|].
    rewrite coerce_column_length. eapply aligned_get; eassumption.
Qed.



End Properties.

(** ** The caller's objects *)

Lemma keeps_ret n {A} (a : A) (post : A -> Prop) :
  post a -> keeps_below n (ret a) post.
Proof. intros H st Hn. simpl. auto. Qed.

Lemma keeps_raise n {A} e (post : A -> Prop) : keeps_below n (raise e) post.
Proof. intros st Hn. simpl. auto. Qed.

Lemma keeps_bind n {A B} (m : M A) (k : A -> M B) post post' :
  keeps_below n m post ->
  (forall a, post a -> keeps_below n (k a) post') ->
  keeps_below n (bind m k) post'.
Proof.
  intros Hm Hk st Hn. specialize (Hm st Hn). unfold bind.
  destruct (m st) as [[a|e] st1]; simpl in *.
  - destruct Hm as [H1 [H2 H3]]. destruct (Hk a H3 st1 H2) as [H4 [H5 H6]].
    split; [congruence | auto].
  - destruct Hm as [H1 [H2 _]]. auto.
Qed.

Lemma keeps_deref n r : keeps_below n (deref r) (fun _ => True).
Proof.
  intros st Hn. unfold deref. destruct (nth_error st r); simpl; auto.
Qed.

(** A new object lies above everything that was there. *)
Lemma keeps_new n d : keeps_below n (new d) (fun r => (n <= r)%nat).
Proof.
  intros st Hn. unfold new. simpl. rewrite length_app. simpl.
  repeat split; try lia.
  rewrite firstn_app. replace (n - List.length st)%nat with 0%nat by lia.
  simpl. apply app_nil_r.
Qed.

Lemma keeps_copy n r : keeps_below n (copy r) (fun r' => (n <= r')%nat).
Proof.
  unfold copy. eapply keeps_bind; [apply keeps_deref|].
  intros d _. apply keeps_new.
Qed.

Lemma keeps_getitem n r col : keeps_below n (getitem r col) (fun _ => True).
Proof.
  unfold getitem. eapply keeps_bind; [apply keeps_deref|].
  intros d _. destruct (Py.get (data d) col);
    [now apply keeps_ret | apply keeps_raise].
Qed.

Lemma keeps_lift n {A} (o : outcome A) : keeps_below n (lift o) (fun _ => True).
Proof. intros st Hn. unfold lift. simpl. destruct o; auto. Qed.

(** An assignment changes the object it is made to and no other. *)
Lemma keeps_setitem n r col s :
  (n <= r)%nat -> keeps_below n (setitem r col s) (fun _ => True).
Proof.
  intros Hr st Hn. unfold setitem. destruct (nth_error st r); simpl; auto.
  rewrite update_length, update_firstn; auto.
Qed.

Lemma keeps_for_each n {A S} (body : S -> A -> M S) (l : list A) :
  (forall s x, keeps_below n (body s x) (fun _ => True)) ->
  forall s, keeps_below n (for_each body l s) (fun _ => True).
Proof.
  intros Hb. induction l as [|x l IH]; intros s; simpl.
  - now apply keeps_ret.
  - eapply keeps_bind; [apply Hb|]. intros s' _. apply IH.
Qed.

Section Frame.

Context {rt : Runtime}.

Lemma keeps_apply_criterion n df_work mask item :
  (n <= df_work)%nat ->
  keeps_below n (apply_criterion df_work mask item) (fun _ => True).
Proof.
  intros Hw. destruct item as [col [|t|v]]; unfold apply_criterion.
  - eapply keeps_bind; [apply keeps_getitem|]. intros c _.
    eapply keeps_bind; [now apply keeps_setitem|]. intros _ _.
    apply keeps_raise.
  - eapply keeps_bind; [apply keeps_getitem|]. intros c _.
    eapply keeps_bind; [now apply keeps_setitem|]. intros _ _.
    eapply keeps_bind; [apply keeps_getitem|]. intros c' _.
    now apply keeps_ret.
  - eapply keeps_bind; [apply keeps_getitem|]. intros c _.
    eapply keeps_bind; [now apply keeps_setitem|]. intros _ _.
    eapply keeps_bind; [apply keeps_getitem|]. intros c' _.
    now apply keeps_ret.
Qed.

Lemma keeps_filter_records n df provided :
  keeps_below n (filter_records df provided) (fun _ => True).
Proof.
  unfold filter_records.
  eapply keeps_bind; [apply keeps_deref|]. intros d _.
  eapply keeps_bind; [apply keeps_copy|]. intros df_work Hw. cbn beta in Hw.
  eapply keeps_bind;
    [apply keeps_for_each; intros; now apply keeps_apply_criterion|].
  intros mask _.
  eapply keeps_bind; [apply keeps_deref|]. intros w _. now apply keeps_ret.
Qed.

Lemma keeps_aggregate_group n group mof_name :
  keeps_below n (aggregate_group group mof_name) (fun _ => True).
Proof.
  unfold aggregate_group.
  eapply keeps_bind; [apply keeps_new|]. intros g Hg. cbn beta in Hg.
  eapply keeps_bind; [apply keeps_deref|]. intros g0 _.
  eapply keeps_bind with (post := fun _ => True).
  { destruct (Py.contains (columns g0) "Gas uptake (mmol/g)").
    - eapply keeps_bind; [apply keeps_getitem|]. intros u _.
      now apply keeps_setitem.
    - now apply keeps_ret. }
  intros _ _.
  eapply keeps_bind; [apply keeps_deref|]. intros gd _.
  apply keeps_lift.
Qed.

Lemma keeps_groupby n matched col :
  keeps_below n (groupby matched col) (fun _ => True).
Proof.
  unfold groupby. destruct (Py.get (data matched) col);
    [now apply keeps_ret | apply keeps_raise].
Qed.

Lemma keeps_aggregate_groups n groups :
  keeps_below n (aggregate_groups groups) (fun _ => True).
Proof.
  unfold aggregate_groups. apply keeps_for_each. intros rows kg.
  eapply keeps_bind; [apply keeps_aggregate_group|]. intros row _.
  now apply keeps_ret.
Qed.

Lemma keeps_find_matching_mofs n df inputs :
  keeps_below n (find_matching_mofs df inputs) (fun _ => True).
Proof.
  unfold find_matching_mofs.
  eapply keeps_bind; [apply keeps_deref|]. intros d _.
  destruct (empty d); [now apply keeps_ret|].
  destruct (normalise inputs []) as [|kv provided]; [now apply keeps_ret|].
  destruct (missing_columns d (kv :: provided)); [|apply keeps_raise].
  eapply keeps_bind; [apply keeps_filter_records|]. intros matched _.
  destruct (empty matched); [now apply keeps_ret|].
  eapply keeps_bind; [apply keeps_groupby|]. intros groups _.
  eapply keeps_bind; [apply keeps_aggregate_groups|]. intros rows _.
  apply keeps_lift.
Qed.

(** C9. Whatever the call does - return or raise - the caller's table is
    afterwards what it was before, and so is every other object the caller
    had: the coercions are assignments to objects made during the call. *)
Theorem input_dataset_unchanged st df d inputs :
  nth_error st df = Some d ->
  nth_error (snd (find_matching_mofs df inputs st)) df = Some d
  /\ firstn (List.length st) (snd (find_matching_mofs df inputs st)) = st.
Proof.
  intros Hdf.
  destruct (keeps_find_matching_mofs (List.length st) df inputs st (le_n _))
    as [Hfirst [Hlen _]].
  rewrite firstn_all in Hfirst. split; [|exact Hfirst].
  assert (Hlt : (df < List.length st)%nat)
    by (apply nth_error_Some; congruence).
  rewrite <- (firstn_skipn (List.length st)
                (snd (find_matching_mofs df inputs st))).
  rewrite Hfirst. rewrite nth_error_app1; assumption.
Qed.

(** ** The output schema *)

Lemma DataFrame_new_columns cols : columns (DataFrame_new cols) = cols.
Proof.
  unfold columns, DataFrame_new, Py.keys. simpl. rewrite map_map.
  apply map_id.
Qed.

Lemma table_of_rows_columns rows cols :
  columns (table_of_rows rows cols) = cols.
Proof.
  unfold columns, table_of_rows, Py.keys. simpl. rewrite map_map.
  apply map_id.
Qed.

(** The constructor gives the table of the rows or fails. *)
Lemma DataFrame_of_rows_Return rows cols out :
  DataFrame_of_rows rows cols = Return out -> out = table_of_rows rows cols.
Proof.
  unfold DataFrame_of_rows. destruct rows as [|first rest].
  - intros H. apply Return_inj in H. now symmetry.
  - destruct (kind first).
    + destruct (existsb _ rest); [discriminate|].
      intros H. apply Return_inj in H. now symmetry.
    + intros H. apply Return_inj in H. now symmetry.
Qed.

(** C8. A table the call returns has the columns [OUTPUT_COLS], in that
    order, whether it has rows or not. *)
Theorem returned_table_has_output_schema st df inputs out st' :
  find_matching_mofs df inputs st = (Return out, st') ->
  columns out = OUTPUT_COLS.
Proof.
  unfold find_matching_mofs. intros H.
  apply bind_Return_inv in H. destruct H as [d [st1 [_ H]]].
  destruct (empty d).
  { injection H as <- _. apply DataFrame_new_columns. }
  destruct (normalise inputs []) as [|kv provided].
  { injection H as <- _. apply DataFrame_new_columns. }
  destruct (missing_columns d (kv :: provided)); [|discriminate].
  apply bind_Return_inv in H. destruct H as [matched [st2 [_ H]]].
  destruct (empty matched).
  { injection H as <- _. apply DataFrame_new_columns. }
  apply bind_Return_inv in H. destruct H as [groups [st3 [_ H]]].
  apply bind_Return_inv in H. destruct H as [rows [st4 [_ H]]].
  apply (f_equal fst) in H. cbn [fst lift] in H.
  apply DataFrame_of_rows_Return in H. subst out.
  apply table_of_rows_columns.
Qed.

End Frame.

(** ** Group keys *)

Lemma float_order_key x y :
  is_nan x = false -> is_nan y = false ->
  (float_order x y = Lt <-> key_lt (float_key x) (float_key y))
  /\ (float_order x y = Eq <-> float_key x = float_key y)
  /\ (float_order x y = Gt <-> key_lt (float_key y) (float_key x)).
Proof.
  intros Hx Hy. apply is_nan_false in Hx, Hy.
  unfold float_order, float_key. rewrite compare_spec.
  destruct (SFcompare_key _ _ Hx Hy) as [c [-> [Hl [He Hg]]]].
  destruct c; cbn [flatten_cmp_opt]; rewrite <- Hl, <- He, <- Hg;
    repeat split; congruence.
Qed.

Lemma key_lt_neq a b : key_lt a b -> a <> b.
Proof. intros H ->. now apply key_lt_irrefl in H. Qed.

Lemma key_lt_asym a b : key_lt a b -> ~ key_lt b a.
Proof. intros H H'. apply (key_lt_irrefl a). eapply key_lt_trans; eauto. Qed.

Lemma float_order_refl x : is_nan x = false -> float_order x x = Eq.
Proof. intros H. now apply (float_order_key x x H H). Qed.

Lemma float_order_antisym x y :
  is_nan x = false -> is_nan y = false ->
  float_order y x = CompOpp (float_order x y).
Proof.
  intros Hx Hy.
  destruct (float_order_key x y Hx Hy) as [Hl [He Hg]].
  destruct (float_order_key y x Hy Hx) as [Hl' [He' Hg']].
  destruct (float_order x y); cbn [CompOpp].
  - apply He'. symmetry. now apply He.
  - apply Hg'. now apply Hl.
  - apply Hl'. now apply Hg.
Qed.

Lemma float_order_Eq_l x x' y :
  is_nan x = false -> is_nan x' = false -> is_nan y = false ->
  float_order x x' = Eq -> float_order x y = float_order x' y.
Proof.
  intros Hx Hx' Hy H. apply (float_order_key x x' Hx Hx') in H.
  destruct (float_order_key x y Hx Hy) as [Hl [He Hg]].
  destruct (float_order_key x' y Hx' Hy) as [Hl' [He' Hg']].
  rewrite H in *.
  destruct (float_order x' y).
  - apply He. now apply He'.
  - apply Hl. now apply Hl'.
  - apply Hg. now apply Hg'.
Qed.

Lemma float_order_Lt_trans x y z :
  is_nan x = false -> is_nan y = false -> is_nan z = false ->
  float_order x y = Lt -> float_order y z = Lt -> float_order x z = Lt.
Proof.
  intros Hx Hy Hz H1 H2.
  apply (float_order_key x y Hx Hy) in H1.
  apply (float_order_key y z Hy Hz) in H2.
  apply (float_order_key x z Hx Hz). eapply key_lt_trans; eassumption.
Qed.

(** A cell with its missing values spelled [NA] is [NA], a float that is
    no NaN, or text. *)
Lemma present_cases a :
  present a = NA
  \/ (exists x, present a = Num x /\ is_nan x = false)
  \/ exists s, present a = Str s.
Proof.
  unfold present. destruct a as [|x|s]; cbn [is_na].
  - now left.
  - destruct (is_nan x) eqn:E; [now left | right; left; eauto].
  - right. right. eauto.
Qed.

Ltac present_cases a x H :=
  destruct (present_cases a) as [H|[[x [H ?]]|[x H]]]; rewrite H.

Lemma cell_compare_refl a : cell_compare a a = Eq.
Proof.
  unfold cell_compare. present_cases a x H.
  - reflexivity.
  - now apply float_order_refl.
  - apply String_as_OT.cmp_eq. reflexivity.
Qed.

Lemma cell_compare_antisym a b : cell_compare b a = CompOpp (cell_compare a b).
Proof.
  unfold cell_compare. present_cases a x Ha; present_cases b y Hb;
    try reflexivity.
  - now apply float_order_antisym.
  - apply String.compare_antisym.
Qed.

Lemma cell_compare_Eq_l a a' b :
  cell_compare a a' = Eq -> cell_compare a b = cell_compare a' b.
Proof.
  unfold cell_compare. present_cases a x Ha; present_cases a' x' Ha';
    try discriminate; intros Heq.
  - reflexivity.
  - present_cases b y Hb; try reflexivity. now apply float_order_Eq_l.
  - apply String.compare_eq_iff in Heq. now subst.
Qed.

Lemma cell_compare_Eq_r a b b' :
  cell_compare b b' = Eq -> cell_compare a b = cell_compare a b'.
Proof.
  intros H. rewrite (cell_compare_antisym b a), (cell_compare_antisym b' a).
  f_equal. now apply cell_compare_Eq_l.
Qed.

Lemma cell_compare_Lt_trans a b c :
  cell_compare a b = Lt -> cell_compare b c = Lt -> cell_compare a c = Lt.
Proof.
  unfold cell_compare. present_cases a x Ha; present_cases b y Hb;
    present_cases c z Hc; try discriminate; try reflexivity.
  - now apply float_order_Lt_trans.
  - rewrite !String_as_OT.cmp_lt. apply String_as_OT.lt_trans.
Qed.

Lemma cell_compare_Gt_Lt a b : cell_compare a b = Gt -> cell_compare b a = Lt.
Proof. intros H. now rewrite cell_compare_antisym, H. Qed.

Lemma cell_eqb_true a b :
  cell_eqb a b = true <->
  is_na a = false /\ is_na b = false /\ cell_compare a b = Eq.
Proof.
  unfold cell_eqb. rewrite !andb_true_iff, !negb_true_iff.
  destruct (cell_compare a b); intuition congruence.
Qed.

Lemma insert_key_In k l y : In y (insert_key k l) -> y = k \/ In y l.
Proof.
  induction l as [|x l IH]; simpl.
  - intuition.
  - destruct (cell_compare k x); simpl; intuition.
Qed.

Lemma insert_key_keeps k l y : In y l -> In y (insert_key k l).
Proof.
  induction l as [|x l IH]; simpl; [tauto|].
  destruct (cell_compare k x); simpl; intuition.
Qed.

Lemma insert_key_has k l :
  exists k', In k' (insert_key k l) /\ cell_compare k k' = Eq.
Proof.
  induction l as [|x l IH]; simpl.
  - exists k. split; [now left | apply cell_compare_refl].
  - destruct (cell_compare k x) eqn:E.
    + exists x. split; [now left | assumption].
    + exists k. split; [now left | apply cell_compare_refl].
    + destruct IH as [k' [Hin He]]. exists k'. split; [now right | assumption].
Qed.

Lemma insert_key_ascending k l : ascending l -> ascending (insert_key k l).
Proof.
  unfold ascending. induction 1 as [|x l Hl IH Hx]; simpl.
  - repeat constructor.
  - destruct (cell_compare k x) eqn:E.
    + now constructor.
    + constructor; [now constructor|]. constructor; [assumption|].
      eapply Forall_impl; [|exact Hx]. intros y Hy.
      eapply cell_compare_Lt_trans; eassumption.
    + constructor; [assumption|]. apply Forall_forall. intros y Hy.
      apply insert_key_In in Hy. destruct Hy as [->|Hy].
      * now apply cell_compare_Gt_Lt.
      * rewrite Forall_forall in Hx. auto.
Qed.

Lemma group_keys_ascending vals :
  forall acc, ascending acc -> ascending (group_keys vals acc).
Proof.
  induction vals as [|v vals IH]; intros acc H; simpl; [assumption|].
  apply IH. destruct (is_na v); auto using insert_key_ascending.
Qed.

Lemma group_keys_In vals :
  forall acc k, In k (group_keys vals acc) ->
                In k acc \/ (In k vals /\ is_na k = false).
Proof.
  induction vals as [|v vals IH]; intros acc k H; simpl in *; [now left|].
  apply IH in H. destruct H as [H|[H1 H2]]; [|now right; split; [right|]].
  destruct (is_na v) eqn:E; [now left|].
  apply insert_key_In in H. destruct H as [->|H]; [right | now left].
  split; [now left | assumption].
Qed.

Lemma group_keys_keeps vals :
  forall acc k, In k acc -> In k (group_keys vals acc).
Proof.
  induction vals as [|v vals IH]; intros acc k H; simpl; [assumption|].
  apply IH. destruct (is_na v); auto using insert_key_keeps.
Qed.

Lemma group_keys_cover vals :
  forall acc v, In v vals -> is_na v = false ->
    exists k, In k (group_keys vals acc) /\ cell_compare v k = Eq.
Proof.
  induction vals as [|x vals IH]; intros acc v Hin Hna; simpl in *; [tauto|].
  destruct Hin as [->|Hin]; [|now apply IH].
  rewrite Hna. destruct (insert_key_has v acc) as [k [Hk He]].
  exists k. split; [now apply group_keys_keeps | assumption].
Qed.

(** A strictly ascending list has no two entries that compare equal. *)
Lemma ascending_distinct l :
  ascending l ->
  forall i j, (i < j < List.length l)%nat ->
              cell_compare (nth i l NA) (nth j l NA) = Lt.
Proof.
  unfold ascending. induction 1 as [|x l Hl IH Hx]; intros i j Hij; simpl in *.
  - lia.
  - destruct j as [|j]; [lia|]. destruct i as [|i].
    + rewrite Forall_forall in Hx. apply Hx, nth_In. lia.
    + apply IH. lia.
Qed.

Lemma Forall2_In_l {A B} (R : A -> B -> Prop) l l' x :
  Forall2 R l l' -> In x l -> exists y, In y l' /\ R x y.
Proof.
  induction 1 as [|a b l l' Hab HF IH]; simpl; [tauto|].
  intros [->|H]; [eauto|]. destruct (IH H) as [y [Hy Hr]]. eauto.
Qed.

Lemma ascending_Eq os :
  forall ks, Forall2 (fun o k => cell_compare o k = Eq) os ks ->
             ascending ks -> ascending os.
Proof.
  unfold ascending. induction os as [|o os IH]; intros ks HF Hs.
  - constructor.
  - inversion HF as [|? k ? ks' Hok HF']; subst.
    inversion Hs as [|? ? Hs' Hk]; subst.
    constructor; [eapply IH; eassumption|].
    rewrite Forall_forall in *. intros o' Ho'.
    destruct (Forall2_In_l _ _ _ o' HF' Ho') as [k' [Hk' He]].
    rewrite (cell_compare_Eq_l _ _ _ Hok), (cell_compare_Eq_r _ _ _ He).
    auto.
Qed.

(** ** One group *)

Lemma compress_map_filter {A} (f : A -> bool) (l : list A) :
  compress (map f l) l = filter f l.
Proof.
  induction l as [|x l IH]; simpl; [reflexivity|].
  destruct (f x); now rewrite IH.
Qed.

Lemma compress_length_eq {A B} (mask : list bool) (l : list A) (l' : list B) :
  List.length l = List.length l' ->
  List.length (compress mask l) = List.length (compress mask l').
Proof.
  revert l l'. induction mask as [|b mask IH]; intros [|x l] [|y l'] H;
    simpl in *; try reflexivity; try discriminate.
  injection H as H. destruct b; simpl; auto.
Qed.

Lemma get_reindex row cols c :
  Py.get (reindex row cols) c
  = if Py.contains cols c then Some (lookup_cell row c) else None.
Proof.
  unfold reindex, Py.contains. induction cols as [|x cols IH]; simpl.
  - reflexivity.
  - rewrite (String.eqb_sym c x).
    destruct (String.eqb_spec x c); [now subst | assumption].
Qed.

Lemma keys_reindex row cols : Py.keys (reindex row cols) = cols.
Proof. unfold Py.keys, reindex. rewrite map_map. apply map_id. Qed.

Lemma lookup_reindex row cols c :
  In c cols -> lookup_cell (reindex row cols) c = lookup_cell row c.
Proof.
  intros H. unfold lookup_cell at 1. rewrite get_reindex.
  apply contains_In in H. now rewrite H.
Qed.

(** The loop of lines 126-128: every column of [cols] that [top_row] has is
    taken from it, the other entries stay. *)
Lemma get_override (top_row : selection) cols c :
  forall row,
    Py.get (fold_left (fun row c =>
                         match selection_get top_row c with
                         | Some v => Py.setitem row c v
                         | None => row
                         end) cols row) c
    = if Py.contains cols c
      then match selection_get top_row c with
           | Some v => Some v
           | None => Py.get row c
           end
      else Py.get row c.
Proof.
  unfold Py.contains. induction cols as [|x cols IH]; intros row; simpl.
  - reflexivity.
  - rewrite IH. rewrite (String.eqb_sym c x).
    destruct (String.eqb_spec x c) as [->|Hne]; simpl.
    + destruct (selection_get top_row c) eqn:E.
      * rewrite get_setitem_same. now destruct (existsb _ cols).
      * now destruct (existsb _ cols).
    + destruct (selection_get top_row x);
        [rewrite get_setitem_other by assumption|]; reflexivity.
Qed.

Lemma get_tabulate {V} (f : string -> V) cols c :
  Py.get (map (fun c => (c, f c)) cols) c
  = if Py.contains cols c then Some (f c) else None.
Proof.
  unfold Py.contains. induction cols as [|x cols IH]; simpl.
  - reflexivity.
  - rewrite (String.eqb_sym c x).
    destruct (String.eqb_spec x c); [now subst | assumption].
Qed.

(** ** The representative of a group *)

Lemma nth_snoc_old {A} (l : list A) (x d : A) j :
  (j < List.length l)%nat -> nth j (l ++ [x]) d = nth j l d.
Proof. intros H. now apply app_nth1. Qed.

Lemma nth_snoc_new {A} (l : list A) (x d : A) :
  nth (List.length l) (l ++ [x]) d = x.
Proof. rewrite app_nth2, Nat.sub_diag; [reflexivity | lia]. Qed.

Lemma fill_neg_inf_not_nan c : is_nan (fill_neg_inf c) = false.
Proof.
  destruct c as [|x|s]; cbn [fill_neg_inf]; try reflexivity.
  destruct (is_nan x) eqn:E; [reflexivity | exact E].
Qed.

Lemma leb_refl x : is_nan x = false -> (x <=? x)%float = true.
Proof. intros H. apply leb_true. auto. Qed.

Lemma ltb_leb x y : (x <? y)%float = true -> (x <=? y)%float = true.
Proof. intros H. apply ltb_true in H. apply leb_true. tauto. Qed.

Lemma leb_ltb_trans x y z :
  (x <=? y)%float = true -> (y <? z)%float = true -> (x <? z)%float = true.
Proof.
  intros H1 H2. apply leb_true in H1. apply ltb_true in H2. apply ltb_true.
  destruct H1 as [Hx [_ [H1|H1]]], H2 as [_ [Hz H2]];
    repeat split; try assumption.
  - eapply key_lt_trans; eassumption.
  - now rewrite H1.
Qed.

(** Two floats neither of which is NaN compare one way or the other. *)
Lemma ltb_false_leb x y :
  is_nan x = false -> is_nan y = false ->
  (x <? y)%float = false -> (y <=? x)%float = true.
Proof.
  intros Hx Hy H. apply leb_true. repeat split; try assumption.
  destruct (key_total (float_key x) (float_key y)) as [Hl|[He|Hg]]; auto.
  exfalso. assert (Ht : (x <? y)%float = true) by (apply ltb_true; auto).
  congruence.
Qed.

(** One step of the scan keeps what the scan has found true. *)
Lemma leader_step seen best c :
  leader seen best ->
  leader (seen ++ [c])
    match best with
    | None => Some (List.length seen, fill_neg_inf c)
    | Some (_, b) =>
        if (b <? fill_neg_inf c)%float
        then Some (List.length seen, fill_neg_inf c)
        else best
    end.
Proof.
  intros H. pose proof (fill_neg_inf_not_nan c) as Hc.
  assert (Hnew : (forall j, (j < List.length seen)%nat ->
                    (fill_neg_inf (nth j seen NA) <? fill_neg_inf c)%float
                    = true) ->
                 first_maximum (seen ++ [c]) (List.length seen)
                   (fill_neg_inf c)).
  { intros Hlt. unfold first_maximum. rewrite length_app. cbn [List.length].
    split; [lia|]. split; [now rewrite nth_snoc_new|]. split.
    - intros j Hj. destruct (Nat.eq_dec j (List.length seen)) as [->|Hne].
      + rewrite nth_snoc_new. now apply leb_refl.
      + rewrite nth_snoc_old by lia. apply ltb_leb, Hlt. lia.
    - intros j Hj. rewrite nth_snoc_old by lia. now apply Hlt. }
  destruct best as [[p m]|]; cbn [leader] in *.
  - destruct H as [Hp [Hm [Hle Hlt]]].
    destruct ((m <? fill_neg_inf c)%float) eqn:E; cbn [leader].
    + apply Hnew. intros j Hj. eapply leb_ltb_trans; [now apply Hle | exact E].
    + unfold first_maximum. rewrite length_app. cbn [List.length].
      split; [lia|]. split; [now rewrite nth_snoc_old|]. split.
      * intros j Hj. destruct (Nat.eq_dec j (List.length seen)) as [->|Hne].
        -- rewrite nth_snoc_new. apply ltb_false_leb; try assumption.
           rewrite <- Hm. apply fill_neg_inf_not_nan.
        -- rewrite nth_snoc_old by lia. apply Hle. lia.
      * intros j Hj. rewrite nth_snoc_old by lia. now apply Hlt.
  - subst seen. apply (Hnew (fun j (Hj : (j < 0)%nat) =>
                               match Nat.nlt_0_r j Hj with end)).
Qed.

Lemma idxmax_from_leader l :
  forall seen best,
    leader seen best ->
    leader (seen ++ l) (idxmax_from l (List.length seen) best).
Proof.
  induction l as [|c l IH]; intros seen best H; simpl.
  - now rewrite app_nil_r.
  - replace (seen ++ c :: l) with ((seen ++ [c]) ++ l)
      by (now rewrite <- app_assoc).
    replace (S (List.length seen)) with (List.length (seen ++ [c]))
      by (rewrite length_app; simpl; lia).
    apply IH. now apply leader_step.
Qed.

(** [idxmax] finds the label of the first row of the maximum. *)
Lemma idxmax_Some labels s label :
  idxmax labels s = Some label ->
  existsb (fun c => negb (is_na c)) (values s) = true
  /\ exists p m, first_maximum (values s) p m /\ label = nth p labels 0%nat.
Proof.
  unfold idxmax. destruct (forallb is_na (values s)) eqn:Ef; [discriminate|].
  intros H. split.
  - clear H. induction (values s) as [|c l IH]; [discriminate|].
    cbn [forallb existsb] in *. destruct (is_na c); [now apply IH | reflexivity].
  - pose proof (idxmax_from_leader (values s) [] None eq_refl) as Hl.
    simpl in Hl. destruct (idxmax_from (values s) 0 None) as [[p m]|];
      [|discriminate].
    injection H as <-. exists p, m. split; [exact Hl | reflexivity].
Qed.

(** [idxmax] fails only on a column without a number. *)
Lemma idxmax_None labels s :
  idxmax labels s = None -> forallb is_na (values s) = true.
Proof.
  unfold idxmax. destruct (forallb is_na (values s)) eqn:Ef; [reflexivity|].
  pose proof (idxmax_from_leader (values s) [] None eq_refl) as Hl.
  simpl in Hl. destruct (idxmax_from (values s) 0 None) as [[p m]|];
    [discriminate|].
  cbn [leader] in Hl. rewrite Hl in Ef. discriminate.
Qed.

(** ** Rows read by their label *)

Lemma filter_seq_none (f : nat -> bool) n k :
  (forall i, (k <= i < k + n)%nat -> f i = false) -> filter f (seq k n) = [].
Proof.
  revert k. induction n as [|n IH]; intros k H; [reflexivity|].
  cbn [seq filter]. rewrite H by lia. apply IH. intros i Hi. apply H. lia.
Qed.

Lemma filter_seq_single (f : nat -> bool) n p :
  (p < n)%nat ->
  (forall i, (i < n)%nat -> f i = true <-> i = p) ->
  filter f (seq 0 n) = [p].
Proof.
  intros Hp Hf.
  replace n with (p + S (n - S p))%nat by lia.
  rewrite seq_app, filter_app. cbn [seq filter Nat.add].
  rewrite (proj2 (Hf p Hp) eq_refl).
  rewrite !filter_seq_none; [reflexivity| |].
  - intros i Hi. destruct (f i) eqn:E; [|reflexivity].
    apply Hf in E; lia.
  - intros i Hi. destruct (f i) eqn:E; [|reflexivity].
    apply Hf in E; lia.
Qed.

(** A label that no other row has names one row. *)
Lemma rows_labelled_unique d p :
  NoDup (index d) -> (p < nrows d)%nat ->
  rows_labelled d (nth p (index d) 0%nat) = [p].
Proof.
  intros Hnd Hp. unfold rows_labelled. apply filter_seq_single; [assumption|].
  intros i Hi. rewrite Nat.eqb_eq. split; [|now intros ->].
  intros H. apply (proj1 (NoDup_nth (index d) 0%nat) Hnd i p Hi Hp H).
Qed.

(** The label of a row is found again. *)
Lemma rows_labelled_has d p :
  (p < nrows d)%nat -> In p (rows_labelled d (nth p (index d) 0%nat)).
Proof.
  intros Hp. unfold rows_labelled. apply filter_In. split.
  - apply in_seq. lia.
  - apply Nat.eqb_refl.
Qed.

Section Grouping.

Context {rt : Runtime}.

(** Lines 99-103 as one step: the copy is a new object, its uptake column
    is made numeric, and the row is read off it. *)
Lemma aggregate_group_run g key st :
  aggregate_group g key st
  = (reduce_group (with_numeric_uptake g) key, st ++ [with_numeric_uptake g]).
Proof.
  unfold aggregate_group, with_numeric_uptake.
  rewrite (bind_Return _ _ st (List.length st) (st ++ [g])) by reflexivity.
  rewrite (bind_Return _ _ _ _ _ (deref_run _ _ _ (nth_error_new st g))).
  destruct (Py.get (data g) "Gas uptake (mmol/g)") as [u|] eqn:E.
  - assert (Hc : Py.contains (columns g) "Gas uptake (mmol/g)" = true)
      by (apply contains_In; eapply get_Some_In; eassumption).
    rewrite Hc.
    rewrite (bind_Return _ _ _ tt
               (st ++ [set_column g "Gas uptake (mmol/g)" (to_numeric u)])).
    + now rewrite (bind_Return _ _ _ _ _
                     (deref_run _ _ _ (nth_error_new st _))).
    + rewrite (bind_Return _ _ _ _ _
                 (getitem_run _ _ _ _ _ (nth_error_new st g) E)).
      rewrite (setitem_run _ _ _ _ _ (nth_error_new st g)).
      now rewrite update_new.
  - assert (Hc : Py.contains (columns g) "Gas uptake (mmol/g)" = false).
    { apply contains_false. intros Hin.
      destruct (In_get_Some _ _ Hin) as [u Hu]. congruence. }
    rewrite Hc.
    rewrite (bind_Return _ _ _ tt (st ++ [g])) by reflexivity.
    now rewrite (bind_Return _ _ _ _ _ (deref_run _ _ _ (nth_error_new st g))).
Qed.

(** The rows of the loop over the groups, one per group and in the order
    of the groups. *)
Lemma aggregate_groups_rows groups :
  forall acc st rows st',
    for_each (fun grouped_rows kg =>
                row <- aggregate_group (snd kg) (fst kg) ;;
                ret (grouped_rows ++ [row])) groups acc st
    = (Return rows, st') ->
    exists rows',
      rows = acc ++ rows'
      /\ Forall2 (fun kg row =>
                    reduce_group (with_numeric_uptake (snd kg)) (fst kg)
                    = Return row) groups rows'.
Proof.
  induction groups as [|kg groups IH]; intros acc st rows st' H; simpl in H.
  - injection H as <- _. exists []. now rewrite app_nil_r.
  - apply bind_Return_inv in H. destruct H as [acc1 [st1 [H1 H2]]].
    apply bind_Return_inv in H1. destruct H1 as [row [st0 [Hrow Hacc]]].
    rewrite aggregate_group_run in Hrow. injection Hrow as Hrow _.
    injection Hacc as <- _.
    destruct (IH _ _ _ _ H2) as [rows' [-> HF]].
    exists (row :: rows'). rewrite <- app_assoc. split; [reflexivity|].
    now constructor.
Qed.

Lemma with_numeric_uptake_get g col :
  col <> "Gas uptake (mmol/g)" ->
  Py.get (data (with_numeric_uptake g)) col = Py.get (data g) col.
Proof.
  intros H. unfold with_numeric_uptake.
  destruct (Py.get (data g) "Gas uptake (mmol/g)"); [|reflexivity].
  simpl. apply get_setitem_other. congruence.
Qed.

Lemma with_numeric_uptake_columns g :
  columns (with_numeric_uptake g) = columns g.
Proof.
  unfold with_numeric_uptake.
  destruct (Py.get (data g) "Gas uptake (mmol/g)") eqn:E; [|reflexivity].
  unfold columns. simpl. apply keys_setitem_present.
  eapply get_Some_In; eassumption.
Qed.

Lemma with_numeric_uptake_index g : index (with_numeric_uptake g) = index g.
Proof.
  unfold with_numeric_uptake.
  now destruct (Py.get (data g) "Gas uptake (mmol/g)").
Qed.

(** The name in an output row: the group key for a group of several
    records, the record's own name for a single record. *)
Lemma reduce_group_MOF g key (row : grouped_row) :
  reduce_group g key = Return row ->
  lookup_cell row "MOF"
  = if (1 <? nrows g)%nat then key
    else if Py.contains (columns g) "MOF" then cell_at g "MOF" 0 else NA.
Proof.
  unfold reduce_group. destruct (1 <? nrows g)%nat.
  - destruct (Py.get (data g) "Gas uptake (mmol/g)") as [u|]; [|discriminate].
    destruct (idxmax (index g) u) as [idx_max|]; [|discriminate].
    destruct (loc g idx_max keep_cols) as [top_row|e]; [|discriminate].
    intros H. apply Return_inj in H. subst row. cbn [cells].
    rewrite lookup_reindex by (apply contains_In; vm_compute; reflexivity).
    unfold lookup_cell. rewrite get_override.
    replace (Py.contains keep_cols "MOF") with false
      by (vm_compute; reflexivity).
    now rewrite get_setitem_same.
  - intros H. apply Return_inj in H. subst row. cbn [cells].
    unfold lookup_cell. rewrite get_tabulate.
    replace (Py.contains OUTPUT_COLS "MOF") with true
      by (vm_compute; reflexivity).
    reflexivity.
Qed.

(** The row of a group carries a name that compares equal to the key. *)
Lemma group_row_name matched s key (row : grouped_row) :
  Py.get (data matched) "MOF" = Some s ->
  In key (values s) ->
  is_na key = false ->
  reduce_group
    (with_numeric_uptake
       (select_rows matched (map (fun v => cell_eqb v key) (values s)))) key
  = Return row ->
  cell_compare (lookup_cell row "MOF") key = Eq.
Proof.
  intros Hs Hin Hna H. apply reduce_group_MOF in H. rewrite H.
  destruct (1 <? _)%nat; [apply cell_compare_refl|].
  rewrite with_numeric_uptake_columns, select_rows_columns.
  assert (Hc : Py.contains (columns matched) "MOF" = true)
    by (apply contains_In; eapply get_Some_In; eassumption).
  rewrite Hc. unfold cell_at.
  rewrite with_numeric_uptake_get by discriminate.
  rewrite get_select_rows, Hs. cbn [option_map values].
  rewrite compress_map_filter.
  assert (Hk : In key (filter (fun v => cell_eqb v key) (values s))).
  { apply filter_In. split; [assumption|].
    apply cell_eqb_true. auto using cell_compare_refl. }
  destruct (filter (fun v => cell_eqb v key) (values s)) as [|x l] eqn:E;
    [destruct Hk|].
  assert (Hx : In x (filter (fun v => cell_eqb v key) (values s)))
    by (rewrite E; now left).
  apply filter_In in Hx. destruct Hx as [_ Hx].
  apply cell_eqb_true in Hx. simpl. tauto.
Qed.

(** X15. A table the call returns has one row per distinct name among the
    records of the matching subset (a missing name is no name), and its
    rows come in ascending order of the name, whatever the order of the
    records: [keys] lists those names once each, in ascending order, and
    the rows of the table carry them in that order. *)
Theorem output_rows_are_the_sorted_groups st df d inputs out st' :
  nth_error st df = Some d ->
  aligned d ->
  empty d = false ->
  normalise inputs [] <> [] ->
  find_matching_mofs df inputs st = (Return out, st') ->
  exists matched st1 keys,
    filter_records df (normalise inputs []) st = (Return matched, st1)
    /\ ascending keys
    /\ (forall k, In k keys ->
                  In k (column_values matched "MOF") /\ is_na k = false)
    /\ (forall v, In v (column_values matched "MOF") -> is_na v = false ->
                  exists k, In k keys /\ cell_compare v k = Eq)
    /\ nrows out = List.length keys
    /\ Forall2 (fun o k => cell_compare o k = Eq)
         (column_values out "MOF") keys
    /\ ascending (column_values out "MOF").
Proof.
  intros Hdf Ha He Hp H.
  assert (Hm : missing_columns d (normalise inputs []) = []).
  { unfold find_matching_mofs in H.
    rewrite (bind_Return _ _ _ _ _ (deref_run _ _ _ Hdf)), He in H.
    destruct (normalise inputs []) as [|kv provided]; [congruence|].
    destruct (missing_columns d (kv :: provided)); [reflexivity|discriminate]. }
  rewrite (find_matching_mofs_main _ _ _ _ Hdf He Hp Hm) in H.
  destruct (filter_records_run st df d (normalise inputs []) Hdf Ha)
    as [mask [Hrun [Hlen _]]].
  { apply normalise_NoDup. constructor. }
  { apply normalise_is_criterion. constructor. }
  { now apply missing_columns_nil. }
  set (w := work_table (normalise inputs []) d) in *.
  set (matched := select_rows w mask) in *.
  rewrite (bind_Return _ _ _ _ _ Hrun) in H.
  exists matched, (st ++ [w]).
  destruct (empty matched) eqn:Em.
  - (* no record matches: no rows and no names *)
    apply (f_equal fst) in H. cbn [fst ret] in H. apply Return_inj in H.
    subst out. exists []. split; [exact Hrun|].
    assert (Hnil : column_values matched "MOF" = []).
    { unfold column_values, matched. rewrite get_select_rows.
      destruct (Py.get (data w) "MOF") as [s|] eqn:Es; [|reflexivity].
      cbn [option_map values]. apply length_zero_iff_nil.
      rewrite (compress_length_eq mask (values s) (index w)).
      - unfold empty in Em. apply orb_true_iff in Em.
        destruct Em as [Em|Em]; [now apply Nat.eqb_eq in Em|].
        apply Nat.eqb_eq in Em. unfold matched, select_rows in Em.
        cbn [data] in Em. rewrite length_map in Em.
        unfold empty in He. apply orb_false_iff in He.
        destruct He as [_ He]. apply Nat.eqb_neq in He.
        assert (Hw : List.length (data w) = List.length (data d)).
        { pose proof (work_table_columns (normalise inputs []) d) as Hc.
          unfold columns, Py.keys in Hc.
          apply (f_equal (@List.length string)) in Hc.
          now rewrite !length_map in Hc. }
        congruence.
      - apply (aligned_get w "MOF" s); [|assumption].
        now apply work_table_aligned. }
    rewrite Hnil. split; [constructor|]. split; [intros k []|].
    split; [intros v []|]. split; [reflexivity|]. split; constructor.
  - (* the groups of the matching subset *)
    apply bind_Return_inv in H. destruct H as [groups [st2 [Hg H]]].
    apply bind_Return_inv in H. destruct H as [rows [st3 [Hrows H]]].
    apply (f_equal fst) in H. cbn [fst lift] in H.
    apply DataFrame_of_rows_Return in H.
    unfold groupby in Hg.
    destruct (Py.get (data matched) "MOF") as [s|] eqn:Es; [|discriminate].
    apply (f_equal fst) in Hg. cbn [fst ret] in Hg. apply Return_inj in Hg.
    destruct (aggregate_groups_rows _ _ _ _ _ Hrows) as [rows' [Hr HF]].
    simpl in Hr. subst rows'.
    set (keys := group_keys (values s) []) in *.
    assert (Hcv : column_values matched "MOF" = values s)
      by (unfold column_values; now rewrite Es).
    assert (Hkeys : forall k, In k keys -> In k (values s) /\ is_na k = false).
    { intros k Hk. apply group_keys_In in Hk. destruct Hk as [[]|Hk]. exact Hk. }
    assert (Hout : column_values out "MOF"
                   = map (fun r : grouped_row => lookup_cell r "MOF") rows).
    { subst out. reflexivity. }
    assert (HF2 : Forall2 (fun o k => cell_compare o k = Eq)
                    (map (fun r : grouped_row => lookup_cell r "MOF") rows)
                    keys).
    { subst groups. clear - HF Hkeys Es.
      revert rows HF. induction keys as [|k keys IH]; intros rows HF.
      - inversion HF. constructor.
      - inversion HF as [|? row ? rows' Hrow HF']; subst. cbn [map].
        constructor.
        + cbn [fst snd] in Hrow.
          destruct (Hkeys k (or_introl eq_refl)) as [Hin Hna].
          eapply group_row_name; eassumption.
        + apply IH; [|assumption]. intros k' Hk'. apply Hkeys. now right. }
    exists keys. rewrite Hcv, Hout.
    assert (Hasc : ascending keys)
      by (apply group_keys_ascending; constructor).
    split; [exact Hrun|]. split; [exact Hasc|]. split; [exact Hkeys|].
    split; [intros v Hv Hna; now apply group_keys_cover|].
    split; [|split; [exact HF2 | eapply ascending_Eq; eassumption]].
    subst out. unfold nrows, table_of_rows. cbn [index].
    rewrite length_seq. apply Forall2_length in HF.
    subst groups. now rewrite length_map in HF.
Qed.

Lemma no_missing_label d cols :
  (forall c, In c cols -> In c (columns d)) ->
  filter (fun c => negb (Py.contains (columns d) c)) cols = [].
Proof.
  intros H. induction cols as [|x cols IH]; simpl; [reflexivity|].
  assert (Hx : Py.contains (columns d) x = true)
    by (apply contains_In, H; now left).
  rewrite Hx. simpl. apply IH. intros c Hc. apply H. now right.
Qed.

(** A label that one row has gives that row. *)
Lemma loc_one_row d p cols :
  NoDup (index d) -> (p < nrows d)%nat ->
  (forall c, In c cols -> In c (columns d)) ->
  loc d (nth p (index d) 0%nat) cols
  = Return (one_row (map (fun c => (c, cell_at d c p)) cols)).
Proof.
  intros Hnd Hp H. unfold loc.
  now rewrite (rows_labelled_unique d p Hnd Hp), (no_missing_label d cols H).
Qed.

(** The means of line 120, read by column name: a column that is there
    and of numeric dtype has its mean, any other column has no entry. *)
Lemma get_mean_numeric_only (D : Py.dict Series) cols c :
  Py.get (mean_numeric_only
            (flat_map (fun c => match Py.get D c with
                                | Some s => [(c, s)]
                                | None => []
                                end) cols)) c
  = if Py.contains cols c then
      match Py.get D c with
      | Some s => if is_numeric (dtype_of s)
                  then Some (mean_cells (values s)) else None
      | None => None
      end
    else None.
Proof.
  unfold mean_numeric_only, Py.contains.
  induction cols as [|x cols IH]; [reflexivity|].
  cbn [flat_map existsb]. rewrite filter_app, map_app.
  destruct (String.eqb_spec c x) as [->|Hne]; cbn [orb].
  - destruct (Py.get D x) as [s|] eqn:E; cbn [filter fst snd map app].
    + destruct (is_numeric (dtype_of s)) eqn:En; cbn [map app Py.get fst snd].
      * now rewrite String.eqb_refl.
      * rewrite IH. now destruct (existsb _ cols).
    + rewrite IH. now destruct (existsb _ cols).
  - destruct (Py.get D x) as [s|]; cbn [filter fst snd map app];
      [|exact IH].
    destruct (is_numeric (dtype_of s)); cbn [map app Py.get fst snd];
      [|exact IH].
    destruct (String.eqb_spec x c); [congruence | exact IH].
Qed.

Lemma keep_cols_in_OUTPUT_COLS c : In c keep_cols -> In c OUTPUT_COLS.
Proof.
  intros H. apply contains_In.
  assert (Hall : forallb (Py.contains OUTPUT_COLS) keep_cols = true)
    by (vm_compute; reflexivity).
  rewrite forallb_forall in Hall. auto.
Qed.

Lemma avg_cols_spec c :
  In c avg_cols <-> In c OUTPUT_COLS /\ ~ In c keep_cols /\ c <> "MOF".
Proof.
  unfold avg_cols. rewrite filter_In, negb_true_iff, contains_false.
  rewrite in_app_iff. simpl. intuition.
Qed.

Lemma to_numeric_cell_Num c q :
  to_numeric_cell c = Num q -> is_na (to_numeric_cell c) = false.
Proof.
  intros H. destruct c as [|x|s]; cbn [to_numeric_cell] in *;
    try discriminate.
  - unfold present in *. destruct (is_na (Num x)) eqn:E; [discriminate|].
    exact E.
  - destruct (to_numeric_text s) as [x|]; [|discriminate].
    unfold present in *. destruct (is_na (Num x)) eqn:E; [discriminate|].
    exact E.
Qed.

(** C5 (as the code has it). For a group of several records with distinct
    row labels that has the operating-condition columns and at least one
    numeric uptake, the output row is built as follows.  The representative
    is the first record that has the greatest uptake, a missing uptake
    counted as -inf; the operating-condition columns are taken from it, the
    uptake as the number it was read as; every other output column except
    the name is the mean of the present values of the group's column when
    that column has a numeric dtype, and missing when the column is absent
    or of object dtype; the name is the group key. *)
Theorem group_of_several_records_row g key st :
  (1 < nrows g)%nat ->
  aligned g ->
  NoDup (index g) ->
  (forall c, In c keep_cols -> In c (columns g)) ->
  (exists j q, to_numeric_cell (cell_at g "Gas uptake (mmol/g)" j) = Num q) ->
  exists (row : grouped_row) rep m st',
    aggregate_group g key st = (Return row, st')
    /\ first_maximum
         (map to_numeric_cell (column_values g "Gas uptake (mmol/g)")) rep m
    /\ (forall c, In c keep_cols ->
          lookup_cell row c
          = if String.eqb c "Gas uptake (mmol/g)"
            then to_numeric_cell (cell_at g c rep)
            else cell_at g c rep)
    /\ (forall c, In c OUTPUT_COLS -> ~ In c keep_cols -> c <> "MOF" ->
          lookup_cell row c
          = match Py.get (data g) c with
            | Some s => if is_numeric (dtype_of s)
                        then mean_cells (values s) else NA
            | None => NA
            end)
    /\ lookup_cell row "MOF" = key
    /\ Py.keys row = OUTPUT_COLS.
Proof.
  intros Hn Ha Hnd Hkeep [j [q Hq]].
  set (uptake := "Gas uptake (mmol/g)") in *.
  assert (Hup : In uptake keep_cols)
    by (apply contains_In; vm_compute; reflexivity).
  destruct (In_get_Some (data g) uptake (Hkeep _ Hup)) as [u Hu].
  set (gw := with_numeric_uptake g).
  assert (Hgw : gw = set_column g uptake (to_numeric u))
    by (unfold gw, with_numeric_uptake; fold uptake; now rewrite Hu).
  assert (Hgu : Py.get (data gw) uptake = Some (to_numeric u))
    by (rewrite Hgw; apply get_setitem_same).
  assert (Hvals : map to_numeric_cell (column_values g uptake)
                  = values (to_numeric u))
    by (unfold column_values; now rewrite Hu).
  assert (Hidx : index gw = index g)
    by (unfold gw; apply with_numeric_uptake_index).
  assert (Hul : List.length (values (to_numeric u)) = nrows g).
  { cbn [to_numeric values]. rewrite length_map.
    eapply aligned_get; eassumption. }
  (* the representative *)
  destruct (idxmax (index gw) (to_numeric u)) as [label|] eqn:Ei.
  2:{ exfalso. apply idxmax_None in Ei. rewrite forallb_forall in Ei.
      assert (Hj : (j < List.length (values u))%nat).
      { destruct (Nat.lt_ge_cases j (List.length (values u))) as [H|H];
          [assumption|].
        unfold cell_at in Hq. rewrite Hu, nth_overflow in Hq by assumption.
        discriminate. }
      specialize (Ei (to_numeric_cell (nth j (values u) NA))).
      unfold cell_at in Hq. rewrite Hu in Hq.
      rewrite (to_numeric_cell_Num _ _ Hq) in Ei.
      assert (Hfalse : false = true); [|discriminate].
      apply Ei. cbn [to_numeric values]. apply in_map, nth_In, Hj. }
  destruct (idxmax_Some _ _ _ Ei) as [_ [rep [m [Hmax ->]]]].
  assert (Hrep : (rep < nrows g)%nat) by (destruct Hmax as [H _]; lia).
  (* the row *)
  assert (Hloc : loc gw (nth rep (index gw) 0%nat) keep_cols
                 = Return (one_row
                             (map (fun c => (c, cell_at gw c rep)) keep_cols))).
  { apply loc_one_row.
    - now rewrite Hidx.
    - unfold nrows. now rewrite Hidx.
    - intros c Hc. unfold gw. rewrite with_numeric_uptake_columns. auto. }
  assert (Hrun : exists avg_row,
             reduce_group gw key
             = Return (mkRow a_Series
                         (reindex
                            (fold_left
                               (fun row c =>
                                  match selection_get
                                          (one_row
                                             (map (fun c => (c, cell_at gw c rep))
                                                keep_cols)) c with
                                  | Some v => Py.setitem row c v
                                  | None => row
                                  end) keep_cols (Py.setitem avg_row "MOF" key))
                            OUTPUT_COLS))
             /\ forall c, In c avg_cols ->
                   Py.get avg_row c
                   = match Py.get (data g) c with
                     | Some s => if is_numeric (dtype_of s)
                                 then Some (mean_cells (values s)) else None
                     | None => None
                     end).
  { eexists. split.
    - unfold reduce_group. fold uptake.
      replace (1 <? nrows gw)%nat with true.
      2:{ symmetry. apply Nat.ltb_lt. unfold nrows. now rewrite Hidx. }
      rewrite Hgu, Ei, Hloc. reflexivity.
    - intros c Hc. rewrite get_mean_numeric_only.
      assert (Hcu : c <> uptake).
      { intros ->. apply avg_cols_spec in Hc. tauto. }
      unfold gw at 2. rewrite (with_numeric_uptake_get g c Hcu).
      destruct (Py.get (data g) c) as [s|] eqn:Ec.
      + replace (Py.contains
                   (filter (Py.contains (columns gw)) avg_cols) c) with true;
          [reflexivity|].
        symmetry. apply contains_In, filter_In. split; [assumption|].
        apply contains_In. unfold gw. rewrite with_numeric_uptake_columns.
        eapply get_Some_In; eassumption.
      + now destruct (Py.contains _ c). }
  destruct Hrun as [avg_row [Hrun Havg]].
  eexists _, rep, m, _. split.
  { rewrite aggregate_group_run. fold gw. rewrite Hrun. reflexivity. }
  split; [now rewrite Hvals|]. cbn [cells]. split; [|split; [|split]].
  - intros c Hc. rewrite lookup_reindex by now apply keep_cols_in_OUTPUT_COLS.
    unfold lookup_cell. rewrite get_override. cbn [selection_get].
    rewrite get_tabulate.
    apply contains_In in Hc. rewrite Hc.
    destruct (String.eqb_spec c uptake) as [->|Hne].
    + unfold cell_at. rewrite Hgu, Hu. cbn [to_numeric values].
      change NA with (to_numeric_cell NA) at 1. now rewrite map_nth.
    + unfold cell_at, gw. now rewrite with_numeric_uptake_get.
  - intros c Hout Hnk Hnm.
    rewrite lookup_reindex by assumption.
    unfold lookup_cell. rewrite get_override.
    apply contains_false in Hnk. rewrite Hnk.
    rewrite get_setitem_other by congruence.
    rewrite Havg by (apply avg_cols_spec; rewrite <- contains_false; auto).
    destruct (Py.get (data g) c) as [s|]; [|reflexivity].
    now destruct (is_numeric (dtype_of s)).
  - eapply reduce_group_MOF in Hrun. cbn [cells] in Hrun. rewrite Hrun.
    replace (1 <? nrows gw)%nat with true; [reflexivity|].
    symmetry. apply Nat.ltb_lt. unfold nrows. now rewrite Hidx.
  - apply keys_reindex.
Qed.

End Grouping.

(** * Further properties *)

Section Groups.

Context {rt : Runtime}.

(** ** Groups of one record, and groups that give no row *)

Lemma cell_at_with_numeric_uptake g c i :
  cell_at (with_numeric_uptake g) c i
  = if String.eqb c "Gas uptake (mmol/g)"
    then to_numeric_cell (cell_at g c i) else cell_at g c i.
Proof.
  destruct (String.eqb_spec c "Gas uptake (mmol/g)") as [->|Hne].
  - unfold cell_at, with_numeric_uptake.
    destruct (Py.get (data g) "Gas uptake (mmol/g)") as [u|] eqn:E.
    + cbn [set_column data]. rewrite get_setitem_same. cbn [to_numeric values].
      change NA with (to_numeric_cell NA) at 1. apply map_nth.
    + now rewrite E.
  - unfold cell_at. now rewrite with_numeric_uptake_get.
Qed.

Lemma to_numeric_cell_not_Str c t : to_numeric_cell c <> Str t.
Proof.
  destruct c as [|x|s]; cbn [to_numeric_cell]; try discriminate.
  - unfold present. destruct (is_na (Num x)); discriminate.
  - destruct (to_numeric_text s) as [x|]; [|discriminate].
    unfold present. destruct (is_na (Num x)); discriminate.
Qed.

Lemma loc_Return_inv d label cols top_row :
  loc d label cols = Return top_row ->
  forall c, In c cols -> In c (columns d).
Proof.
  unfold loc. destruct (rows_labelled d label) as [|i others]; [discriminate|].
  destruct (filter (fun c => negb (Py.contains (columns d) c)) cols) eqn:E;
    [|discriminate].
  intros _ c Hc. destruct (Py.contains (columns d) c) eqn:Ec;
    [now apply contains_In|].
  assert (Hin : In c (filter (fun c => negb (Py.contains (columns d) c)) cols))
    by (apply filter_In; split; [assumption | now rewrite Ec]).
  rewrite E in Hin. destruct Hin.
Qed.

(** X1. A group of one record never fails: its row has the output columns
    in order, each holding the record's own cell - the uptake as the number
    it is read as - or a missing value where the table has no such
    column. *)
Theorem single_record_group_row g key st :
  (nrows g <= 1)%nat ->
  exists row,
    aggregate_group g key st = (Return row, st ++ [with_numeric_uptake g])
    /\ Py.keys row = OUTPUT_COLS
    /\ forall c, In c OUTPUT_COLS ->
         lookup_cell row c
         = if String.eqb c "Gas uptake (mmol/g)"
           then to_numeric_cell (cell_at g c 0) else cell_at g c 0.
Proof.
  intros Hn. rewrite aggregate_group_run. unfold reduce_group.
  replace (1 <? nrows (with_numeric_uptake g))%nat with false.
  2:{ symmetry. apply Nat.ltb_ge. unfold nrows.
      now rewrite with_numeric_uptake_index. }
  eexists. split; [reflexivity|]. cbn [cells]. split.
  - unfold Py.keys. rewrite map_map. apply map_id.
  - intros c Hc. unfold lookup_cell. rewrite get_tabulate.
    apply contains_In in Hc. rewrite Hc.
    rewrite <- cell_at_with_numeric_uptake.
    destruct (Py.contains (columns (with_numeric_uptake g)) c) eqn:E;
      [reflexivity|].
    unfold cell_at.
    destruct (Py.get (data (with_numeric_uptake g)) c) eqn:Eg; [|reflexivity].
    apply get_Some_In, contains_In in Eg.
    unfold columns in E. congruence.
Qed.

(** X2. A group of several records gives a row only if its table has all
    the operating-condition columns and some record has a numeric uptake;
    in every other case the loop over the groups stops with an exception.
    Either way the one object the step makes is the copy of the group. *)
Theorem group_of_several_records_needs_uptake g key st :
  (1 < nrows g)%nat ->
  exists o,
    aggregate_group g key st = (o, st ++ [with_numeric_uptake g])
    /\ ((exists row, o = Return row) ->
        (forall c, In c keep_cols -> In c (columns g))
        /\ exists j q,
             to_numeric_cell (cell_at g "Gas uptake (mmol/g)" j) = Num q).
Proof.
  intros Hn. rewrite aggregate_group_run. eexists. split; [reflexivity|].
  intros [row Hrow]. unfold reduce_group in Hrow.
  replace (1 <? nrows (with_numeric_uptake g))%nat with true in Hrow.
  2:{ symmetry. apply Nat.ltb_lt. unfold nrows.
      now rewrite with_numeric_uptake_index. }
  destruct (Py.get (data (with_numeric_uptake g)) "Gas uptake (mmol/g)")
    as [u|] eqn:Eu; [|discriminate].
  destruct (idxmax (index (with_numeric_uptake g)) u) as [label|] eqn:Ei;
    [|discriminate].
  destruct (loc (with_numeric_uptake g) label keep_cols) as [top_row|e] eqn:El;
    [|discriminate].
  pose proof (loc_Return_inv _ _ _ _ El) as Hcols. split.
  - intros c Hc. rewrite <- (with_numeric_uptake_columns g). auto.
  - destruct (idxmax_Some _ _ _ Ei) as [Hex _].
    apply existsb_exists in Hex. destruct Hex as [x [Hx Hna]].
    apply negb_true_iff in Hna.
    destruct (In_nth _ _ NA Hx) as [j [Hj Hnth]].
    pose proof (cell_at_with_numeric_uptake g "Gas uptake (mmol/g)" j) as Hc.
    rewrite String.eqb_refl in Hc.
    unfold cell_at at 1 in Hc. rewrite Eu, Hnth in Hc.
    exists j. rewrite <- Hc. destruct x as [|q|t].
    + discriminate.
    + eauto.
    + symmetry in Hc. now apply to_numeric_cell_not_Str in Hc.
Qed.

End Groups.

Section Pipeline.

Context {rt : Runtime}.

(** ** The call as a whole *)

(** The call past the checks of the criteria, as one equation: the working
    copy is the one new object of the filter, and what follows depends on
    the matching subset alone. *)
Lemma main_path_outcome st df d inputs :
  nth_error st df = Some d ->
  aligned d ->
  empty d = false ->
  normalise inputs [] <> [] ->
  missing_columns d (normalise inputs []) = [] ->
  let provided := normalise inputs [] in
  let w := work_table provided d in
  exists mask,
    List.length mask = nrows d
    /\ (forall i, (i < nrows d)%nat -> nth i mask false = matches provided d i)
    /\ find_matching_mofs df inputs st
       = let matched := select_rows w mask in
         if empty matched
         then (Return (DataFrame_new OUTPUT_COLS), st ++ [w])
         else
           match Py.get (data matched) "MOF" with
           | None => (Raise (KeyError_labels ["MOF"]), st ++ [w])
           | Some s =>
               match aggregate_groups
                       (map (fun key =>
                               (key, select_rows matched
                                       (map (fun v => cell_eqb v key) (values s))))
                            (group_keys (values s) [])) (st ++ [w]) with
               | (Return rows, st') =>
                   (DataFrame_of_rows rows OUTPUT_COLS, st')
               | (Raise e, st') => (Raise e, st')
               end
           end.
Proof.
  intros Hdf Ha He Hp Hm provided w.
  destruct (filter_records_run st df d provided Hdf Ha)
    as [mask [Hrun [Hlen Hnth]]].
  { apply normalise_NoDup. constructor. }
  { apply normalise_is_criterion. constructor. }
  { now apply missing_columns_nil. }
  exists mask. split; [assumption|]. split; [assumption|].
  rewrite (find_matching_mofs_main _ _ _ _ Hdf He Hp Hm).
  fold provided. rewrite (bind_Return _ _ _ _ _ Hrun). fold w. cbv zeta.
  destruct (empty (select_rows w mask)); [reflexivity|].
  unfold groupby.
  destruct (Py.get (data (select_rows w mask)) "MOF") as [s|];
    [|reflexivity].
  unfold bind at 1. unfold ret at 1.
  unfold bind. destruct (aggregate_groups _ _) as [[rows|e] st']; reflexivity.
Qed.

(** The rows that match are there in the subset. *)
Lemma matching_rows_index provided d mask :
  List.length mask = nrows d ->
  (forall i, (i < nrows d)%nat -> nth i mask false = matches provided d i) ->
  index (select_rows (work_table provided d) mask)
  = map (fun i => nth i (index d) 0%nat)
      (filter (matches provided d) (seq 0 (nrows d))).
Proof.
  intros Hlen Hnth. cbn [select_rows index]. rewrite work_table_index.
  rewrite (compress_filter 0%nat) by exact Hlen.
  f_equal. apply filter_ext_in.
  intros i Hi. apply in_seq in Hi. apply Hnth. lia.
Qed.

Lemma data_length_work_table provided d :
  List.length (data (work_table provided d)) = List.length (data d).
Proof.
  pose proof (work_table_columns provided d) as Hc.
  unfold columns, Py.keys in Hc.
  apply (f_equal (@List.length string)) in Hc.
  now rewrite !length_map in Hc.
Qed.

Lemma matching_subset_not_empty provided d mask :
  empty d = false ->
  List.length mask = nrows d ->
  (forall i, (i < nrows d)%nat -> nth i mask false = matches provided d i) ->
  filter (matches provided d) (seq 0 (nrows d)) <> [] ->
  empty (select_rows (work_table provided d) mask) = false.
Proof.
  intros He Hlen Hnth Hrows. unfold empty, nrows at 1.
  rewrite (matching_rows_index _ _ _ Hlen Hnth), length_map.
  apply orb_false_iff. split.
  - apply Nat.eqb_neq. intros H. apply length_zero_iff_nil in H. contradiction.
  - cbn [select_rows data]. rewrite length_map, data_length_work_table.
    unfold empty in He. now apply orb_false_iff in He.
Qed.

(** X3. On a table without a "MOF" column the call fails as soon as some
    record matches: grouping raises the [KeyError] of the missing label,
    after the working copy was made. *)
Theorem no_MOF_column_raises st df d inputs :
  nth_error st df = Some d ->
  aligned d ->
  empty d = false ->
  normalise inputs [] <> [] ->
  missing_columns d (normalise inputs []) = [] ->
  ~ In "MOF" (columns d) ->
  filter (matches (normalise inputs []) d) (seq 0 (nrows d)) <> [] ->
  find_matching_mofs df inputs st
  = (Raise (KeyError_labels ["MOF"]),
     st ++ [work_table (normalise inputs []) d]).
Proof.
  intros Hdf Ha He Hp Hm Hmof Hrows.
  destruct (main_path_outcome st df d inputs Hdf Ha He Hp Hm)
    as [mask [Hlen [Hnth Hrun]]].
  rewrite Hrun. cbv zeta.
  rewrite (matching_subset_not_empty _ _ _ He Hlen Hnth Hrows).
  destruct (Py.get (data (select_rows _ mask)) "MOF") as [s|] eqn:E;
    [|reflexivity].
  exfalso. apply Hmof. apply get_Some_In in E.
  change (Py.keys (data (select_rows (work_table (normalise inputs []) d) mask)))
    with (columns (select_rows (work_table (normalise inputs []) d) mask)) in E.
  now rewrite select_rows_columns, work_table_columns in E.
Qed.

Lemma bind_Raise_inv {A B} (m : M A) (k : A -> M B) st e st2 :
  bind m k st = (Raise e, st2) ->
  m st = (Raise e, st2)
  \/ exists a st1, m st = (Return a, st1) /\ k a st1 = (Raise e, st2).
Proof.
  unfold bind. destruct (m st) as [[a|e0] st1]; intros H.
  - right. eauto.
  - left. injection H as -> ->. reflexivity.
Qed.

(** When the loop over the groups raises, the exception is that of the
    first group that gives no row. *)
Lemma aggregate_groups_raise groups :
  forall acc st e st',
    for_each (fun grouped_rows kg =>
                row <- aggregate_group (snd kg) (fst kg) ;;
                ret (grouped_rows ++ [row])) groups acc st
    = (Raise e, st') ->
    exists kg, In kg groups
               /\ reduce_group (with_numeric_uptake (snd kg)) (fst kg) = Raise e.
Proof.
  induction groups as [|kg groups IH]; intros acc st e st' H; simpl in H.
  - discriminate.
  - apply bind_Raise_inv in H. destruct H as [H|[acc1 [st1 [_ H]]]].
    + apply bind_Raise_inv in H. destruct H as [H|[row [st1 [_ H]]]].
      * rewrite aggregate_group_run in H. exists kg.
        split; [now left | congruence].
      * discriminate.
    + destruct (IH _ _ _ _ H) as [kg' [Hin Hr]]. exists kg'.
      split; [now right | assumption].
Qed.

Lemma Forall2_In_r {A B} (R : A -> B -> Prop) l l' y :
  Forall2 R l l' -> In y l' -> exists x, In x l /\ R x y.
Proof.
  induction 1 as [|a b l l' Hab HF IH]; simpl; [tauto|].
  intros [->|H]; [eauto|]. destruct (IH H) as [x [Hx Hr]]. eauto.
Qed.

(** The label [idxmax] returns is the label of a row. *)
Lemma idxmax_label d s label :
  List.length (values s) = nrows d ->
  idxmax (index d) s = Some label ->
  rows_labelled d label <> [].
Proof.
  intros Hlen H. apply idxmax_Some in H.
  destruct H as [_ [p [m [[Hp _] ->]]]]. rewrite Hlen in Hp.
  intros E. pose proof (rows_labelled_has d p Hp) as Hin.
  rewrite E in Hin. destruct Hin.
Qed.

(** The exceptions of a group: no numeric uptake, or operating-condition
    columns that the table does not have. *)
Lemma reduce_group_Raise_inv g key e :
  aligned g ->
  reduce_group g key = Raise e ->
  e = ValueError_all_missing
  \/ exists labels,
       e = KeyError_labels labels /\ labels <> []
       /\ forall c, In c labels -> In c keep_cols /\ ~ In c (columns g).
Proof.
  intros Ha. unfold reduce_group. destruct (1 <? nrows g)%nat; [|discriminate].
  destruct (Py.get (data g) "Gas uptake (mmol/g)") as [u|] eqn:Eu.
  - destruct (idxmax (index g) u) as [label|] eqn:Ei;
      [|intros [= <-]; now left].
    unfold loc.
    destruct (rows_labelled g label) as [|i others] eqn:Er.
    { exfalso. apply (idxmax_label g u label); try assumption.
      eapply aligned_get; eassumption. }
    destruct (filter (fun c => negb (Py.contains (columns g) c)) keep_cols)
      as [|c0 labels] eqn:Ef; [destruct others; discriminate|].
    intros [= <-]. right. exists (c0 :: labels).
    split; [reflexivity|]. split; [discriminate|].
    intros c Hc. rewrite <- Ef in Hc. apply filter_In in Hc.
    destruct Hc as [Hk Hc]. split; [assumption|].
    apply contains_false. now apply negb_true_iff.
  - intros [= <-]. right. exists ["Gas uptake (mmol/g)"].
    split; [reflexivity|]. split; [discriminate|].
    intros c [<-|[]]. split.
    + apply contains_In. vm_compute. reflexivity.
    + intros Hin. destruct (In_get_Some _ _ Hin) as [u Hu]. congruence.
Qed.

(** A group of several records gives a [Series], a single record a
    [dict]. *)
Lemma reduce_group_kind g key (row : grouped_row) :
  reduce_group g key = Return row ->
  kind row = if (1 <? nrows g)%nat then a_Series else a_dict.
Proof.
  unfold reduce_group. destruct (1 <? nrows g)%nat.
  - destruct (Py.get (data g) "Gas uptake (mmol/g)") as [u|]; [|discriminate].
    destruct (idxmax (index g) u) as [label|]; [|discriminate].
    destruct (loc g label keep_cols) as [top_row|e]; [|discriminate].
    intros H. apply Return_inj in H. now subst row.
  - intros H. apply Return_inj in H. now subst row.
Qed.

(** The constructor of the result fails on one kind of rows only. *)
Lemma DataFrame_of_rows_Raise rows cols e :
  DataFrame_of_rows rows cols = Raise e ->
  e = AttributeError
  /\ exists first rest,
       rows = first :: rest /\ kind first = a_Series
       /\ exists r, In r rest /\ kind r = a_dict.
Proof.
  unfold DataFrame_of_rows. destruct rows as [|first rest]; [discriminate|].
  destruct (kind first) eqn:Ek; [|discriminate].
  destruct (existsb _ rest) eqn:Ex; [|discriminate].
  intros [= <-]. split; [reflexivity|]. exists first, rest.
  split; [reflexivity|]. split; [assumption|].
  apply existsb_exists in Ex. destruct Ex as [r [Hr Hk]]. exists r.
  split; [assumption|]. now destruct (kind r).
Qed.

Lemma with_numeric_uptake_aligned g :
  aligned g -> aligned (with_numeric_uptake g).
Proof.
  intros Ha. unfold with_numeric_uptake.
  destruct (Py.get (data g) "Gas uptake (mmol/g)") as [u|] eqn:E;
    [|assumption].
  apply set_column_aligned; [assumption|].
  cbn [to_numeric values]. rewrite length_map. eapply aligned_get; eassumption.
Qed.

Lemma select_rows_aligned d mask : aligned d -> aligned (select_rows d mask).
Proof.
  unfold aligned, select_rows, nrows. cbn [data index]. intros H.
  apply Forall_forall. intros [c s] Hin. apply in_map_iff in Hin.
  destruct Hin as [[c' s'] [[= <- <-] Hin]]. cbn [snd values].
  rewrite Forall_forall in H. specialize (H _ Hin). cbn [snd] in H.
  now apply compress_length_eq.
Qed.

(** X4. For criteria whose values are [None], text or floats, the call
    raises for five reasons only: criteria that name columns the table does
    not have (nothing was done yet); a table without a "MOF" column; a
    table without one of the operating-condition columns; an entity with
    several matching records none of which has a numeric uptake; and rows
    that the constructor of the result cannot read, because the entity
    that comes first has several matching records and a later one has a
    single record.  In particular no blank or [None] criterion ever reaches
    the arithmetic of the tolerance band. *)
Theorem raised_errors st df d inputs e st' :
  nth_error st df = Some d ->
  aligned d ->
  find_matching_mofs df inputs st = (Raise e, st') ->
  (e = KeyError_missing_columns (missing_columns d (normalise inputs []))
   /\ missing_columns d (normalise inputs []) <> [] /\ st' = st)
  \/ (e = KeyError_labels ["MOF"] /\ ~ In "MOF" (columns d))
  \/ (exists labels,
        e = KeyError_labels labels /\ labels <> []
        /\ forall c, In c labels -> In c keep_cols /\ ~ In c (columns d))
  \/ e = ValueError_all_missing
  \/ (e = AttributeError
      /\ exists matched st1 first rest,
           filter_records df (normalise inputs []) st = (Return matched, st1)
           /\ groupby matched "MOF" st1 = (Return (first :: rest), st1)
           /\ (1 < nrows (snd first))%nat
           /\ exists later, In later rest /\ (nrows (snd later) <= 1)%nat).
Proof.
  intros Hdf Ha H.
  destruct (empty d) eqn:He.
  { unfold find_matching_mofs in H.
    rewrite (bind_Return _ _ _ _ _ (deref_run _ _ _ Hdf)), He in H.
    discriminate. }
  destruct (normalise inputs []) as [|kv provided] eqn:Ep.
  { unfold find_matching_mofs in H.
    rewrite (bind_Return _ _ _ _ _ (deref_run _ _ _ Hdf)), He, Ep in H.
    discriminate. }
  destruct (missing_columns d (kv :: provided)) as [|c0 l] eqn:Em.
  2:{ left. unfold find_matching_mofs in H.
      rewrite (bind_Return _ _ _ _ _ (deref_run _ _ _ Hdf)), He, Ep, Em in H.
      injection H as <- <-. repeat split. discriminate. }
  right.
  assert (Hp : normalise inputs [] <> []) by (rewrite Ep; discriminate).
  rewrite <- Ep in Em.
  destruct (main_path_outcome st df d inputs Hdf Ha He Hp Em)
    as [mask [Hlen [Hnth Hrun]]].
  rewrite Hrun in H. cbv zeta in H.
  destruct (filter_records_run st df d (normalise inputs []) Hdf Ha)
    as [mask0 [Hfr [Hlen0 Hnth0]]].
  { apply normalise_NoDup. constructor. }
  { apply normalise_is_criterion. constructor. }
  { now apply missing_columns_nil. }
  assert (Hmask : mask0 = mask).
  { apply (nth_ext _ _ false false); [congruence|].
    intros i Hi. rewrite Hlen0 in Hi. now rewrite Hnth, Hnth0. }
  subst mask0. rewrite Ep in *.
  set (w := work_table (kv :: provided) d) in *.
  set (matched := select_rows w mask) in *.
  assert (Hcols : columns matched = columns d)
    by (unfold matched, w; now rewrite select_rows_columns, work_table_columns).
  assert (Ham : aligned matched).
  { unfold matched, w. apply select_rows_aligned. now apply work_table_aligned. }
  destruct (empty matched); [discriminate|].
  destruct (Py.get (data matched) "MOF") as [s|] eqn:Es.
  - right.
    destruct (aggregate_groups _ _) as [[rows|e0] st0] eqn:Eg.
    + right. right. injection H as H ->.
      apply DataFrame_of_rows_Raise in H.
      destruct H as [-> [first [rest [-> [Hk [r [Hr Hkr]]]]]]].
      split; [reflexivity|].
      destruct (aggregate_groups_rows _ _ _ _ _ Eg) as [rows' [Hr' HF]].
      simpl in Hr'. subst rows'.
      destruct (group_keys (values s) []) as [|k0 keys] eqn:Ek;
        [inversion HF|].
      cbn [map] in HF. inversion HF as [|? ? ? ? Hfirst HF']; subst.
      cbn [fst snd] in Hfirst.
      eexists matched, _, _, _. split; [exact Hfr|]. split.
      { unfold groupby. rewrite Es, Ek. reflexivity. }
      cbn [snd]. split.
      * apply reduce_group_kind in Hfirst. rewrite Hk in Hfirst.
        unfold nrows in *. rewrite with_numeric_uptake_index in Hfirst.
        destruct (1 <? _)%nat eqn:E; [now apply Nat.ltb_lt|discriminate].
      * destruct (Forall2_In_r _ _ _ r HF' Hr) as [kg [Hkg Hrow]].
        exists kg. split; [assumption|].
        apply reduce_group_kind in Hrow. rewrite Hkr in Hrow.
        unfold nrows in *. rewrite with_numeric_uptake_index in Hrow.
        destruct (1 <? _)%nat eqn:E; [discriminate|now apply Nat.ltb_ge].
    + injection H as -> ->.
      apply aggregate_groups_raise in Eg. destruct Eg as [kg [Hin Hr]].
      apply in_map_iff in Hin. destruct Hin as [key [<- _]]. cbn [snd fst] in Hr.
      apply reduce_group_Raise_inv in Hr.
      2:{ apply with_numeric_uptake_aligned. now apply select_rows_aligned. }
      destruct Hr as [->|[labels [-> [Hne Hl]]]]; [right; now left|].
      left. exists labels. split; [reflexivity|]. split; [assumption|].
      intros c Hc. destruct (Hl c Hc) as [Hk Hn]. split; [assumption|].
      rewrite with_numeric_uptake_columns in Hn.
      now rewrite select_rows_columns, Hcols in Hn.
  - left. injection H as <- _. split; [reflexivity|].
    intros Hin. rewrite <- Hcols in Hin.
    destruct (In_get_Some _ _ Hin) as [s Hs]. congruence.
Qed.

End Pipeline.

Section Soundness.

Context {rt : Runtime}.

(** ** What the criteria say about the returned table *)

Lemma work_table_get_other provided :
  forall d c, ~ In c (Py.keys provided) ->
              Py.get (data (work_table provided d)) c = Py.get (data d) c.
Proof.
  induction provided as [|[col val] provided IH]; intros d c Hc; simpl.
  - reflexivity.
  - simpl in Hc. rewrite IH by tauto.
    destruct (Py.get (data d) col); [|reflexivity].
    cbn [set_column data]. apply get_setitem_other. tauto.
Qed.

(** The working copy holds, for a criterion, the coerced column. *)
Lemma work_table_get provided :
  forall d c val s,
    NoDup (Py.keys provided) ->
    In (c, val) provided ->
    Py.get (data d) c = Some s ->
    Py.get (data (work_table provided d)) c = Some (coerce_column val s).
Proof.
  induction provided as [|[col val'] provided IH]; intros d c val s Hnd Hin Hs;
    simpl in *; [destruct Hin|].
  inversion Hnd as [|? ? Hnotin Hnd']; subst.
  destruct Hin as [[= -> ->]|Hin].
  - rewrite Hs, work_table_get_other by assumption.
    cbn [set_column data]. apply get_setitem_same.
  - assert (Hne : col <> c).
    { intros ->. apply Hnotin. apply (in_map fst) in Hin. exact Hin. }
    apply IH; [assumption | assumption |].
    destruct (Py.get (data d) col); [|assumption].
    cbn [set_column data]. now rewrite get_setitem_other.
Qed.

Lemma Forall_compress {A} (P : A -> Prop) (mask : list bool) (l : list A) :
  Forall P l -> Forall P (compress mask l).
Proof.
  intros H. revert mask. induction H as [|x l Hx Hl IH]; intros [|b mask];
    simpl; try constructor.
  destruct b; [constructor|]; auto.
Qed.

Lemma Forall_compress_mask {A} (P : A -> Prop) (a : A) :
  forall (l : list A) (mask : list bool),
    List.length mask = List.length l ->
    (forall i, (i < List.length l)%nat -> nth i mask false = true ->
               P (nth i l a)) ->
    Forall P (compress mask l).
Proof.
  induction l as [|x l IH]; intros [|b mask] Hlen H; simpl in *;
    try constructor; try discriminate.
  assert (Hrest : Forall P (compress mask l)).
  { apply IH; [congruence|]. intros i Hi Hm. apply (H (S i)); [lia | exact Hm]. }
  destruct b; [constructor|]; auto.
  apply (H 0%nat); [lia | reflexivity].
Qed.

Lemma output_column_cases c :
  In c OUTPUT_COLS -> c = "MOF" \/ In c keep_cols \/ In c avg_cols.
Proof.
  intros H. destruct (string_dec c "MOF") as [->|Hm]; [now left|].
  destruct (Py.contains keep_cols c) eqn:E.
  - right. left. now apply contains_In.
  - right. right. apply avg_cols_spec. apply contains_false in E. auto.
Qed.

Lemma NoDup_compress {A} (mask : list bool) (l : list A) :
  NoDup l -> NoDup (compress mask l).
Proof.
  intros H. revert mask. induction H as [|x l Hx Hl IH]; intros [|b mask];
    simpl; try constructor.
  destruct b; [|apply IH]. constructor; [|apply IH].
  intros Hin. apply Hx. clear - Hin. revert mask Hin.
  induction l as [|y l IH]; intros [|b mask] Hin; simpl in *; try tauto.
  destruct b; [destruct Hin as [->|Hin]|]; eauto.
Qed.

(** The operating-condition cells of a row of a group of several records
    with distinct labels, read back from [Return]: they are the cells of
    one record of the group. *)
Lemma reduce_group_several_inv g key (row : grouped_row) :
  (1 < nrows g)%nat ->
  aligned g ->
  NoDup (index g) ->
  reduce_group g key = Return row ->
  lookup_cell row "MOF" = key
  /\ exists rep, (rep < nrows g)%nat
       /\ forall c, In c keep_cols -> lookup_cell row c = cell_at g c rep.
Proof.
  intros Hn Ha Hnd H. pose proof (reduce_group_MOF _ _ _ H) as Hmof.
  apply Nat.ltb_lt in Hn. rewrite Hn in Hmof. split; [assumption|].
  unfold reduce_group in H. rewrite Hn in H.
  destruct (Py.get (data g) "Gas uptake (mmol/g)") as [u|] eqn:Eu;
    [|discriminate].
  destruct (idxmax (index g) u) as [label|] eqn:Ei; [|discriminate].
  destruct (idxmax_Some _ _ _ Ei) as [_ [rep [m [[Hrep _] ->]]]].
  rewrite (aligned_get _ _ _ Ha Eu) in Hrep.
  destruct (loc g (nth rep (index g) 0%nat) keep_cols) as [top_row|e] eqn:El;
    [|discriminate].
  pose proof (loc_Return_inv _ _ _ _ El) as Hcols.
  rewrite (loc_one_row g rep keep_cols Hnd Hrep Hcols) in El.
  apply Return_inj in El. subst top_row.
  apply Return_inj in H. subst row. cbn [cells].
  exists rep. split; [assumption|].
  intros c Hc. rewrite lookup_reindex by now apply keep_cols_in_OUTPUT_COLS.
  unfold lookup_cell. rewrite get_override. cbn [selection_get].
  rewrite get_tabulate.
  apply contains_In in Hc. now rewrite Hc.
Qed.

(** What holds of every cell that a column of the matching subset has,
    holds of the cell the output row of a group has in that column, for
    the name and for the operating-condition columns of a table with
    distinct row labels - if, for the uptake, it holds of the number such
    a cell is read as. *)
Lemma group_row_cell (P : cell -> Prop) matched sM key c sc
    (row : grouped_row) :
  aligned matched ->
  NoDup (index matched) ->
  Py.get (data matched) "MOF" = Some sM ->
  In key (group_keys (values sM) []) ->
  Py.get (data matched) c = Some sc ->
  Forall P (values sc) ->
  (c = "Gas uptake (mmol/g)" -> forall x, P x -> P (to_numeric_cell x)) ->
  reduce_group
    (with_numeric_uptake
       (select_rows matched (map (fun v => cell_eqb v key) (values sM)))) key
  = Return row ->
  c = "MOF" \/ In c keep_cols ->
  P (lookup_cell row c).
Proof.
  intros Ha Hnd HsM Hkey Hsc HP Hup Hrow Hc.
  assert (Hout : In c OUTPUT_COLS).
  { destruct Hc as [->|Hc]; [|now apply keep_cols_in_OUTPUT_COLS].
    apply contains_In. vm_compute. reflexivity. }
  set (flags := map (fun v => cell_eqb v key) (values sM)) in *.
  set (g := select_rows matched flags) in *.
  set (gw := with_numeric_uptake g) in *.
  assert (Hag : aligned g) by now apply select_rows_aligned.
  assert (Hagw : aligned gw) by now apply with_numeric_uptake_aligned.
  assert (Hgc : Py.get (data g) c
                = Some (mkSeries (dtype_of sc) (compress flags (values sc))))
    by (unfold g; now rewrite get_select_rows, Hsc).
  assert (HgM : Py.get (data g) "MOF"
                = Some (mkSeries (dtype_of sM) (compress flags (values sM))))
    by (unfold g; now rewrite get_select_rows, HsM).
  assert (Hnw : nrows gw = nrows g)
    by (unfold gw, nrows; now rewrite with_numeric_uptake_index).
  assert (Hndw : NoDup (index gw)).
  { unfold gw. rewrite with_numeric_uptake_index. unfold g.
    cbn [select_rows index]. now apply NoDup_compress. }
  (* the cells of the column in the copy of the group *)
  assert (Hcell : forall i, (i < nrows g)%nat -> P (cell_at gw c i)).
  { intros i Hi. unfold gw. rewrite cell_at_with_numeric_uptake.
    assert (Hin : P (cell_at g c i)).
    { unfold cell_at. rewrite Hgc. cbn [values].
      assert (HF : Forall P (compress flags (values sc)))
        by now apply Forall_compress.
      rewrite Forall_forall in HF. apply HF, nth_In.
      rewrite <- (aligned_get g c _ Hag Hgc) in Hi. exact Hi. }
    destruct (String.eqb_spec c "Gas uptake (mmol/g)"); auto. }
  apply group_keys_In in Hkey. destruct Hkey as [[]|[Hkin Hkna]].
  destruct (Nat.lt_ge_cases 1 (nrows g)) as [Hn|Hn].
  - (* several records *)
    destruct (reduce_group_several_inv gw key row) as [Hmof [rep [Hrep Hkeep]]];
      try assumption; [lia|].
    destruct Hc as [->|Hk].
    + rewrite Hmof. rewrite HsM in Hsc. injection Hsc as <-.
      rewrite Forall_forall in HP. auto.
    + rewrite (Hkeep c Hk). apply Hcell. lia.
  - (* one record *)
    assert (Hpos : (0 < nrows g)%nat).
    { rewrite <- (aligned_get g "MOF" _ Hag HgM). cbn [values]. unfold flags.
      rewrite compress_map_filter.
      assert (Hk : In key (filter (fun v => cell_eqb v key) (values sM))).
      { apply filter_In. split; [assumption|].
        apply cell_eqb_true. auto using cell_compare_refl. }
      destruct (filter _ (values sM)); [destruct Hk | simpl; lia]. }
    unfold reduce_group in Hrow.
    replace (1 <? nrows gw)%nat with false in Hrow
      by (symmetry; apply Nat.ltb_ge; lia).
    apply Return_inj in Hrow. subst row. cbn [cells].
    unfold lookup_cell. rewrite get_tabulate.
    apply contains_In in Hout. rewrite Hout.
    replace (Py.contains (columns gw) c) with true; [apply Hcell; lia|].
    symmetry. apply contains_In. unfold gw.
    rewrite with_numeric_uptake_columns. eapply get_Some_In; eassumption.
Qed.

Lemma Forall2_map_l {A B C} (R : B -> C -> Prop) (f : A -> B) l l' :
  Forall2 R (map f l) l' -> Forall2 (fun a c => R (f a) c) l l'.
Proof.
  revert l'. induction l as [|a l IH]; intros l' H; simpl in H;
    inversion H; subst; constructor; auto.
Qed.

Lemma Forall2_Forall_r {A B} (R : A -> B -> Prop) l l' :
  Forall2 R l l' -> Forall (fun y => exists x, In x l /\ R x y) l'.
Proof.
  induction 1 as [|x y l l' Hxy HF IH]; constructor.
  - exists x. split; [now left | assumption].
  - eapply Forall_impl; [|exact IH].
    intros y' [x' [Hin Hr]]. exists x'. split; [now right | assumption].
Qed.

(** A table the call returns is the empty one, or it has one row per key
    of the matching subset, each the row of that key's group. *)
Lemma returned_table_inv st df d inputs out st' :
  nth_error st df = Some d ->
  aligned d ->
  find_matching_mofs df inputs st = (Return out, st') ->
  out = DataFrame_new OUTPUT_COLS
  \/ exists mask sM rows,
       let provided := normalise inputs [] in
       let matched := select_rows (work_table provided d) mask in
       missing_columns d provided = []
       /\ List.length mask = nrows d
       /\ (forall i, (i < nrows d)%nat ->
                     nth i mask false = matches provided d i)
       /\ Py.get (data matched) "MOF" = Some sM
       /\ out = table_of_rows rows OUTPUT_COLS
       /\ Forall2 (fun key row =>
                     reduce_group
                       (with_numeric_uptake
                          (select_rows matched
                             (map (fun v => cell_eqb v key) (values sM)))) key
                     = Return row) (group_keys (values sM) []) rows.
Proof.
  intros Hdf Ha H.
  destruct (empty d) eqn:He.
  { left. unfold find_matching_mofs in H.
    rewrite (bind_Return _ _ _ _ _ (deref_run _ _ _ Hdf)), He in H.
    apply (f_equal fst) in H. cbn [fst ret] in H. apply Return_inj in H.
    now symmetry. }
  destruct (normalise inputs []) as [|kv provided] eqn:Ep.
  { left. unfold find_matching_mofs in H.
    rewrite (bind_Return _ _ _ _ _ (deref_run _ _ _ Hdf)), He, Ep in H.
    apply (f_equal fst) in H. cbn [fst ret] in H. apply Return_inj in H.
    now symmetry. }
  destruct (missing_columns d (kv :: provided)) as [|c0 l] eqn:Em.
  2:{ unfold find_matching_mofs in H.
      rewrite (bind_Return _ _ _ _ _ (deref_run _ _ _ Hdf)), He, Ep, Em in H.
      discriminate. }
  assert (Hp : normalise inputs [] <> []) by (rewrite Ep; discriminate).
  rewrite <- Ep in Em.
  destruct (main_path_outcome st df d inputs Hdf Ha He Hp Em)
    as [mask [Hlen [Hnth Hrun]]].
  rewrite Hrun in H. cbv zeta in H. rewrite Ep in *.
  set (matched := select_rows (work_table (kv :: provided) d) mask) in *.
  destruct (empty matched).
  { left. apply (f_equal fst) in H. cbn [fst] in H. apply Return_inj in H.
    now symmetry. }
  destruct (Py.get (data matched) "MOF") as [sM|] eqn:Es; [|discriminate].
  destruct (aggregate_groups _ _) as [[rows|e0] st0] eqn:Eg; [|discriminate].
  apply (f_equal fst) in H. cbn [fst] in H.
  apply DataFrame_of_rows_Return in H.
  right. exists mask, sM, rows. cbv zeta. fold matched.
  repeat (split; [first [assumption | now symmetry]|]).
  destruct (aggregate_groups_rows _ _ _ _ _ Eg) as [rows' [Hr HF]].
  simpl in Hr. subst rows'. now apply Forall2_map_l in HF.
Qed.

(** The cells a criterion column has in the matching subset are the
    coerced cells of records that satisfy the criterion. *)
Lemma matched_column_cells (P : cell -> Prop) (f : cell -> cell)
    provided d mask c val s0 :
  In (c, val) provided ->
  Py.get (data d) c = Some s0 ->
  aligned d ->
  List.length mask = nrows d ->
  (forall i, (i < nrows d)%nat -> nth i mask false = matches provided d i) ->
  (forall x, satisfies val x = true -> P (f x)) ->
  Forall P (compress mask (map f (values s0))).
Proof.
  intros Hin Hs Ha Hlen Hnth HP.
  pose proof (aligned_get _ _ _ Ha Hs) as Hl.
  apply (Forall_compress_mask P NA).
  - now rewrite length_map, Hl.
  - rewrite length_map. intros i Hi Hm.
    rewrite (nth_map_lt _ _ _ NA) by assumption. apply HP.
    rewrite Hnth in Hm by lia. unfold matches in Hm.
    rewrite forallb_forall in Hm. specialize (Hm _ Hin). cbn [fst snd] in Hm.
    unfold cell_at in Hm. now rewrite Hs in Hm.
Qed.

Lemma column_values_of_rows rows c :
  In c OUTPUT_COLS ->
  column_values (table_of_rows rows OUTPUT_COLS) c
  = map (fun r : grouped_row => lookup_cell r c) rows.
Proof.
  intros H. unfold column_values, table_of_rows. cbn [data].
  rewrite (get_tabulate
             (fun c => let l := map (fun r : grouped_row => lookup_cell r c)
                                  rows in
                       mkSeries (infer_dtype l) l)).
  apply contains_In in H. now rewrite H.
Qed.

Lemma column_values_new cols c : column_values (DataFrame_new cols) c = [].
Proof.
  unfold column_values, DataFrame_new. cbn [data].
  rewrite (get_tabulate (fun _ => mkSeries object [])).
  now destruct (Py.contains cols c).
Qed.

(** A number in a band of floats is no NaN and stays as it is when it is
    read as a number. *)
Lemma between_cell_to_numeric lower upper x :
  between_cell lower upper x = true ->
  between_cell lower upper (to_numeric_cell x) = true.
Proof.
  intros H. pose proof H as H'. apply between_cell_true in H'.
  destruct H' as [y [-> [H1 _]]]. apply leb_not_nan in H1.
  cbn [to_numeric_cell]. unfold present. cbn [is_na].
  destruct H1 as [_ H1]. now rewrite H1.
Qed.

Lemma matched_table_labels provided d mask :
  NoDup (index d) -> NoDup (index (select_rows (work_table provided d) mask)).
Proof.
  intros H. cbn [select_rows index]. rewrite work_table_index.
  now apply NoDup_compress.
Qed.

(** X6. In a table with distinct row labels, every cell a returned table
    has in the name column or in an operating-condition column, when that
    column has a numeric criterion [v], is a number in the band of [v]:
    the cell of a single record and the cell taken from a representative
    alike.  (A mean need not lie in the band of its column.) *)
Theorem numeric_criterion_holds_in_output st df d inputs out st' c v :
  nth_error st df = Some d ->
  aligned d ->
  NoDup (index d) ->
  find_matching_mofs df inputs st = (Return out, st') ->
  In (c, Py.Num_ v) (normalise inputs []) ->
  c = "MOF" \/ In c keep_cols ->
  Forall (fun x => between_cell (v * factor_098)%float (v * factor_102)%float x
                   = true)
    (column_values out c).
Proof.
  intros Hdf Ha Hlab H Hin Hc.
  assert (Hout : In c OUTPUT_COLS).
  { destruct Hc as [->|Hc]; [|now apply keep_cols_in_OUTPUT_COLS].
    apply contains_In. vm_compute. reflexivity. }
  destruct (returned_table_inv _ _ _ _ _ _ Hdf Ha H)
    as [->|[mask [sM [rows [Hm [Hlen [Hnth [HsM [-> HF]]]]]]]]].
  { rewrite column_values_new. constructor. }
  set (provided := normalise inputs []) in *.
  set (w := work_table provided d) in *.
  set (matched := select_rows w mask) in *.
  set (P := fun x => between_cell (v * factor_098)%float
                       (v * factor_102)%float x = true).
  assert (Hnd : NoDup (Py.keys provided))
    by (apply normalise_NoDup; constructor).
  destruct (In_get_Some (data d) c) as [s0 Hs0].
  { eapply missing_columns_nil; [eassumption|].
    apply (in_map fst) in Hin. exact Hin. }
  assert (Hwc : Py.get (data w) c = Some (to_numeric s0))
    by (apply (work_table_get provided d c (Py.Num_ v) s0); assumption).
  assert (Hmc : Py.get (data matched) c
                = Some (mkSeries float64
                          (compress mask (map to_numeric_cell (values s0)))))
    by (unfold matched; now rewrite get_select_rows, Hwc).
  assert (HP : Forall P (compress mask (map to_numeric_cell (values s0)))).
  { apply (matched_column_cells P to_numeric_cell provided d mask c
             (Py.Num_ v) s0); auto. }
  rewrite column_values_of_rows by assumption.
  apply Forall_map.
  eapply Forall_impl; [|exact (Forall2_Forall_r _ _ _ HF)].
  intros row [key [Hkey Hrow]].
  apply (group_row_cell P matched sM key c
           (mkSeries float64
              (compress mask (map to_numeric_cell (values s0)))) row); auto.
  - unfold matched. apply select_rows_aligned. now apply work_table_aligned.
  - now apply matched_table_labels.
  - intros _ x Hx. now apply between_cell_to_numeric.
Qed.

(** X7. In a table with distinct row labels, every cell a returned table
    has in the name column or in an operating-condition column other than
    the uptake, when that column has a text criterion [t], is the text of
    [t] stripped and lower-cased: the table shows the normalised text of
    the working copy, not the spelling of the caller's table. *)
Theorem text_criterion_holds_in_output st df d inputs out st' c t :
  nth_error st df = Some d ->
  aligned d ->
  NoDup (index d) ->
  find_matching_mofs df inputs st = (Return out, st') ->
  In (c, Py.Str_ t) (normalise inputs []) ->
  c = "MOF" \/ In c keep_cols ->
  c <> "Gas uptake (mmol/g)" ->
  Forall (fun x => x = Str (str_lower (Py.strip t))) (column_values out c).
Proof.
  intros Hdf Ha Hlab H Hin Hc Hcu.
  assert (Hout : In c OUTPUT_COLS).
  { destruct Hc as [->|Hc]; [|now apply keep_cols_in_OUTPUT_COLS].
    apply contains_In. vm_compute. reflexivity. }
  destruct (returned_table_inv _ _ _ _ _ _ Hdf Ha H)
    as [->|[mask [sM [rows [Hm [Hlen [Hnth [HsM [-> HF]]]]]]]]].
  { rewrite column_values_new. constructor. }
  set (provided := normalise inputs []) in *.
  set (w := work_table provided d) in *.
  set (matched := select_rows w mask) in *.
  set (P := fun x => x = Str (str_lower (Py.strip t))).
  assert (Hnd : NoDup (Py.keys provided))
    by (apply normalise_NoDup; constructor).
  destruct (In_get_Some (data d) c) as [s0 Hs0].
  { eapply missing_columns_nil; [eassumption|].
    apply (in_map fst) in Hin. exact Hin. }
  assert (Hwc : Py.get (data w) c = Some (normalise_text s0))
    by (apply (work_table_get provided d c (Py.Str_ t) s0); assumption).
  assert (Hmc : Py.get (data matched) c
                = Some (mkSeries object
                          (compress mask (map normalise_text_cell (values s0)))))
    by (unfold matched; now rewrite get_select_rows, Hwc).
  assert (HP : Forall P (compress mask (map normalise_text_cell (values s0)))).
  { apply (matched_column_cells P normalise_text_cell provided d mask c
             (Py.Str_ t) s0); auto.
    intros x Hx. cbn [satisfies] in Hx. unfold P.
    destruct (normalise_text_cell x) as [|q|text]; try discriminate.
    cbn [eq_text_cell] in Hx. apply String.eqb_eq in Hx. now subst. }
  rewrite column_values_of_rows by assumption.
  apply Forall_map.
  eapply Forall_impl; [|exact (Forall2_Forall_r _ _ _ HF)].
  intros row [key [Hkey Hrow]].
  apply (group_row_cell P matched sM key c
           (mkSeries object
              (compress mask (map normalise_text_cell (values s0)))) row);
    auto.
  - unfold matched. apply select_rows_aligned. now apply work_table_aligned.
  - now apply matched_table_labels.
  - intros Hu. contradiction.
Qed.

End Soundness.

(** ** Normalising the criteria, once more *)

Lemma setitem_new {V} (d : Py.dict V) k v :
  ~ In k (Py.keys d) -> Py.setitem d k v = d ++ [(k, v)].
Proof.
  induction d as [|[k0 v0] d IH]; simpl; intros H; [reflexivity|].
  destruct (String.eqb_spec k0 k); [tauto|]. f_equal. apply IH. tauto.
Qed.

(** Criteria that are clean - distinct stripped names, no blank value -
    pass through normalisation as they are. *)
Lemma normalise_clean items :
  forall acc,
    NoDup (Py.keys acc ++ Py.keys items) ->
    (forall k, In k (Py.keys items) -> Py.strip k = k) ->
    Forall (fun kv => is_criterion (snd kv) = true) items ->
    normalise items acc = acc ++ items.
Proof.
  induction items as [|[k v] items IH]; intros acc Hnd Hk Hv; simpl.
  - now rewrite app_nil_r.
  - inversion Hv as [|? ? Hv1 Hv2]; subst. cbn [snd] in Hv1.
    assert (Hstep : normalise items (Py.setitem acc (Py.strip k) v)
                    = acc ++ (k, v) :: items).
    { rewrite (Hk k) by now left.
      assert (Hnew : ~ In k (Py.keys acc)).
      { intros Hin. apply NoDup_remove_2 in Hnd. apply Hnd.
        apply in_or_app. now left. }
      rewrite setitem_new by assumption. rewrite IH.
      - now rewrite <- app_assoc.
      - unfold Py.keys in *. rewrite map_app. cbn [map fst].
        rewrite <- app_assoc. exact Hnd.
      - intros k' Hk'. apply Hk. now right.
      - assumption. }
    destruct v as [|s|q]; [discriminate| |exact Hstep].
    cbn [is_criterion] in Hv1. apply negb_true_iff in Hv1. now rewrite Hv1.
Qed.

Lemma setitem_keys_stripped {V} (d : Py.dict V) k v :
  (forall k', In k' (Py.keys d) -> Py.strip k' = k') ->
  forall k', In k' (Py.keys (Py.setitem d (Py.strip k) v)) -> Py.strip k' = k'.
Proof.
  intros H k' Hk'. apply keys_setitem_In in Hk'.
  destruct Hk' as [->|Hk']; [apply strip_idempotent | auto].
Qed.

Lemma normalise_keys_stripped items :
  forall acc,
    (forall k, In k (Py.keys acc) -> Py.strip k = k) ->
    forall k, In k (Py.keys (normalise items acc)) -> Py.strip k = k.
Proof.
  induction items as [|[k v] items IH]; intros acc H; simpl; [assumption|].
  destruct v as [|s|q]; [now apply IH| |].
  - destruct (Py.is_empty (Py.strip s)); [now apply IH|].
    apply IH. now apply setitem_keys_stripped.
  - apply IH. now apply setitem_keys_stripped.
Qed.

(** X8. Normalising criteria twice is normalising them once: what comes
    out of the normalisation has stripped, distinct names and no blank
    value, and passes through it unchanged. *)
Theorem normalise_idempotent inputs :
  normalise (normalise inputs []) [] = normalise inputs [].
Proof.
  apply (normalise_clean (normalise inputs []) []).
  - cbn [Py.keys map app]. apply normalise_NoDup. constructor.
  - apply normalise_keys_stripped. intros k [].
  - apply normalise_is_criterion. constructor.
Qed.

(** X9. What normalisation keeps under a name is the last value given
    under any spelling of that name that is neither [None] nor blank
    text; a name without such a value is not kept. *)
Theorem normalise_keeps_last_value inputs k :
  Py.get (normalise inputs []) k = last_given inputs k.
Proof.
  assert (H : forall items acc,
             Py.get (normalise items acc) k
             = match last_given items k with
               | Some v => Some v
               | None => Py.get acc k
               end).
  { induction items as [|[k' v] items IH]; intros acc; [reflexivity|].
    cbn [normalise last_given].
    assert (Hset : Py.get (normalise items (Py.setitem acc (Py.strip k') v)) k
                   = match last_given items k with
                     | Some v' => Some v'
                     | None => if String.eqb (Py.strip k') k then Some v
                               else Py.get acc k
                     end).
    { rewrite IH. destruct (last_given items k); [reflexivity|].
      destruct (String.eqb_spec (Py.strip k') k) as [<-|Hne].
      - apply get_setitem_same.
      - now apply get_setitem_other. }
    destruct v as [|s|q]; cbn [is_criterion andb].
    - rewrite IH. now destruct (last_given items k).
    - destruct (Py.is_empty (Py.strip s)); cbn [negb andb].
      + rewrite IH. now destruct (last_given items k).
      + rewrite Hset. destruct (last_given items k); [reflexivity|].
        now destruct (String.eqb (Py.strip k') k).
    - rewrite Hset. destruct (last_given items k); [reflexivity|].
      now destruct (String.eqb (Py.strip k') k). }
  rewrite H. now destruct (last_given inputs k).
Qed.

(** ** The order of the criteria *)

Lemma setitem_swap {V} (d : Py.dict V) x y (a b : V) :
  x <> y -> In x (Py.keys d) -> In y (Py.keys d) ->
  Py.setitem (Py.setitem d x a) y b = Py.setitem (Py.setitem d y b) x a.
Proof.
  intros Hne. induction d as [|[k v] d IH]; simpl; [tauto|].
  intros Hx Hy.
  destruct (String.eqb_spec k x) as [Hkx|Hkx];
    destruct (String.eqb_spec k y) as [Hky|Hky]; try congruence; simpl.
  - subst k. destruct (String.eqb_spec x y); [congruence|].
    now rewrite String.eqb_refl.
  - subst k. destruct (String.eqb_spec y x); [congruence|].
    now rewrite String.eqb_refl.
  - destruct (String.eqb_spec k x); [congruence|].
    destruct (String.eqb_spec k y); [congruence|].
    f_equal. apply IH; tauto.
Qed.

Lemma forallb_Permutation {A} (f : A -> bool) l l' :
  Permutation l l' -> forallb f l = forallb f l'.
Proof.
  induction 1; simpl; try congruence.
  now rewrite !andb_assoc, (andb_comm (f y) (f x)).
Qed.

Section Order.

Context {rt : Runtime}.

Lemma work_table_swap d x vx y vy :
  x <> y ->
  work_table [(x, vx); (y, vy)] d = work_table [(y, vy); (x, vx)] d.
Proof.
  intros Hne. cbn [work_table].
  destruct (Py.get (data d) x) as [sx|] eqn:Ex;
    destruct (Py.get (data d) y) as [sy|] eqn:Ey;
    cbn [set_column data];
    rewrite ?get_setitem_other by congruence; rewrite ?Ex, ?Ey;
    try reflexivity.
  unfold set_column. cbn [index data]. f_equal.
  apply setitem_swap; [assumption | |]; eapply get_Some_In; eassumption.
Qed.

Lemma work_table_app p1 p2 d :
  work_table (p1 ++ p2) d = work_table p2 (work_table p1 d).
Proof.
  revert d. induction p1 as [|[c v] p1 IH]; intros d; [reflexivity|].
  cbn [app work_table]. apply IH.
Qed.

(** The working copy does not depend on the order of the criteria. *)
Lemma work_table_Permutation p p' :
  Permutation p p' -> NoDup (Py.keys p) ->
  forall d, work_table p d = work_table p' d.
Proof.
  induction 1 as [|[c v] p p' Hp IH|[y vy] [x vx] p|p p' p'' H1 IH1 H2 IH2];
    intros Hnd d.
  - reflexivity.
  - cbn [work_table]. apply IH. now inversion Hnd.
  - change ((y, vy) :: (x, vx) :: p) with ([(y, vy); (x, vx)] ++ p).
    change ((x, vx) :: (y, vy) :: p) with ([(x, vx); (y, vy)] ++ p).
    rewrite !work_table_app. f_equal. apply work_table_swap.
    inversion Hnd as [|? ? Hn _]; subst. intros ->. apply Hn. now left.
  - rewrite IH1 by assumption. apply IH2.
    eapply Permutation_NoDup; [|exact Hnd].
    now apply Permutation_map.
Qed.

Lemma missing_columns_Permutation d p p' :
  Permutation p p' ->
  missing_columns d p = [] -> missing_columns d p' = [].
Proof.
  intros Hp H. unfold missing_columns in *.
  destruct (filter _ (Py.keys p')) as [|k l] eqn:E; [reflexivity|].
  assert (Hin : In k (filter (fun k => negb (Py.contains (columns d) k))
                        (Py.keys p'))) by (rewrite E; now left).
  apply filter_In in Hin. destruct Hin as [Hin Hk].
  assert (Hin' : In k (filter (fun k => negb (Py.contains (columns d) k))
                         (Py.keys p))).
  { apply filter_In. split; [|assumption].
    eapply Permutation_in; [|exact Hin].
    apply Permutation_sym. now apply Permutation_map. }
  rewrite H in Hin'. destruct Hin'.
Qed.

(** X14. The order in which the criteria are given does not matter: two
    sets of criteria that normalise to the same criteria in another order,
    all naming columns of the table, give the same outcome and leave the
    same objects. *)
Theorem criteria_order_is_irrelevant st df d inputs inputs' :
  nth_error st df = Some d ->
  aligned d ->
  Permutation (normalise inputs []) (normalise inputs' []) ->
  missing_columns d (normalise inputs []) = [] ->
  find_matching_mofs df inputs st = find_matching_mofs df inputs' st.
Proof.
  intros Hdf Ha Hperm Hm.
  destruct (empty d) eqn:He.
  { unfold find_matching_mofs.
    now rewrite !(bind_Return _ _ _ _ _ (deref_run _ _ _ Hdf)), He. }
  destruct (normalise inputs []) as [|kv p] eqn:Ep.
  { apply Permutation_nil in Hperm. unfold find_matching_mofs.
    now rewrite !(bind_Return _ _ _ _ _ (deref_run _ _ _ Hdf)), He, Ep, Hperm. }
  assert (Hp : normalise inputs [] <> []) by (rewrite Ep; discriminate).
  assert (Hp' : normalise inputs' [] <> []).
  { intros E. rewrite E in Hperm. apply Permutation_sym, Permutation_nil in Hperm.
    discriminate. }
  rewrite <- Ep in *.
  pose proof (missing_columns_Permutation d _ _ Hperm Hm) as Hm'.
  destruct (main_path_outcome st df d inputs Hdf Ha He Hp Hm)
    as [mask [Hlen [Hnth Hrun]]].
  destruct (main_path_outcome st df d inputs' Hdf Ha He Hp' Hm')
    as [mask' [Hlen' [Hnth' Hrun']]].
  rewrite Hrun, Hrun'. cbv zeta.
  assert (Hw : work_table (normalise inputs []) d
               = work_table (normalise inputs' []) d).
  { apply work_table_Permutation; [assumption|].
    apply normalise_NoDup. constructor. }
  assert (Hmask : mask = mask').
  { apply (nth_ext _ _ false false); [congruence|].
    intros i Hi. rewrite Hlen in Hi. rewrite Hnth, Hnth' by assumption.
    unfold matches. now apply forallb_Permutation. }
  now rewrite Hw, Hmask.
Qed.

End Order.

(** ** The search form *)

Lemma normalise_keys_from items :
  forall acc k,
    In k (Py.keys (normalise items acc)) ->
    In k (Py.keys acc) \/ exists k', In k' (Py.keys items) /\ k = Py.strip k'.
Proof.
  induction items as [|[k0 v] items IH]; intros acc k H; simpl in H;
    [now left|].
  assert (Hset : In k (Py.keys (normalise items (Py.setitem acc (Py.strip k0) v)))
                 -> In k (Py.keys acc)
                    \/ exists k', In k' (Py.keys ((k0, v) :: items))
                                  /\ k = Py.strip k').
  { intros Hin. apply IH in Hin. destruct Hin as [Hin|[k' [Hk' ->]]].
    - apply keys_setitem_In in Hin. destruct Hin as [->|Hin]; [|now left].
      right. exists k0. split; [now left | reflexivity].
    - right. exists k'. split; [now right | reflexivity]. }
  assert (Hskip : In k (Py.keys (normalise items acc))
                  -> In k (Py.keys acc)
                     \/ exists k', In k' (Py.keys ((k0, v) :: items))
                                   /\ k = Py.strip k').
  { intros Hin. apply IH in Hin. destruct Hin as [Hin|[k' [Hk' ->]]];
      [now left|].
    right. exists k'. split; [now right | reflexivity]. }
  destruct v as [|s|q]; [auto| |auto].
  destruct (Py.is_empty (Py.strip s)); auto.
Qed.

Section Form.

Variable float : string -> option PrimFloat.float.

Lemma field_criterion_keys (items : Py.dict (option string)) k :
  In k (Py.keys (flat_map (App.field_criterion float) items)) ->
  In k (Py.keys items).
Proof.
  induction items as [|[k0 [val|]] items IH];
    cbn [flat_map App.field_criterion fst snd Py.keys map app];
    [tauto| |intros H; right; now apply IH].
  destruct (Py.is_empty (Py.strip val)); cbn [app map fst].
  - intros H. right. now apply IH.
  - intros [<-|H]; [now left | right; now apply IH].
Qed.

Lemma parse_inputs_distinct items :
  forall acc,
    NoDup (Py.keys acc ++ Py.keys items) ->
    App.parse_inputs float items acc
    = acc ++ flat_map (App.field_criterion float) items.
Proof.
  induction items as [|[k [val|]] items IH]; intros acc Hnd;
    cbn [App.parse_inputs flat_map App.field_criterion fst snd].
  - now rewrite app_nil_r.
  - assert (Hnew : ~ In k (Py.keys acc)).
    { intros Hin. apply NoDup_remove_2 in Hnd. apply Hnd.
      apply in_or_app. now left. }
    assert (Hrest : NoDup (Py.keys acc ++ Py.keys items))
      by (eapply NoDup_remove_1; exact Hnd).
    destruct (Py.is_empty (Py.strip val)); [now apply IH|].
    rewrite setitem_new by assumption. rewrite IH.
    + now rewrite <- app_assoc.
    + unfold Py.keys in *. rewrite map_app. cbn [map fst].
      rewrite <- app_assoc. exact Hnd.
  - apply IH. eapply NoDup_remove_1. exact Hnd.
Qed.

Lemma field_criterion_NoDup (items : Py.dict (option string)) :
  NoDup (Py.keys items) ->
  NoDup (Py.keys (flat_map (App.field_criterion float) items)).
Proof.
  induction items as [|[k [val|]] items IH]; intros Hnd;
    cbn [flat_map App.field_criterion fst snd]; [constructor| |].
  - inversion Hnd as [|? ? Hnotin Hnd']; subst.
    destruct (Py.is_empty (Py.strip val)); [now apply IH|].
    cbn [app Py.keys map fst]. constructor; [|now apply IH].
    intros Hin. apply Hnotin. now apply field_criterion_keys.
  - inversion Hnd; subst. now apply IH.
Qed.

(** X10. For a form, whose fields have distinct names, the parsed criteria
    are, in the order of the form, the fields whose text is not blank: a
    criterion is passed on under a name exactly when the field of that
    name holds text that is not blank, and it is the number Python reads
    the stripped text as, or else the stripped text. *)
Theorem parsed_inputs_are_the_filled_fields input_values :
  NoDup (Py.keys input_values) ->
  App.parse_inputs float input_values []
  = flat_map (App.field_criterion float) input_values
  /\ forall k v,
       In (k, v) (App.parse_inputs float input_values []) <->
       exists val,
         In (k, Some val) input_values
         /\ Py.strip val <> ""
         /\ v = match float (Py.strip val) with
                | Some x => Py.Num_ x
                | None => Py.Str_ (Py.strip val)
                end.
Proof.
  intros Hnd.
  pose proof (parse_inputs_distinct input_values [] Hnd) as Heq.
  cbn [app] in Heq. split; [exact Heq|].
  intros k v. rewrite Heq, in_flat_map. split.
  - intros [[k0 [val|]] [Hin Hf]]; cbn [App.field_criterion fst snd] in Hf;
      [|destruct Hf].
    destruct (Py.is_empty (Py.strip val)) eqn:E; [destruct Hf|].
    destruct Hf as [[= <- <-]|[]]. exists val.
    split; [assumption|]. split; [|reflexivity].
    intros Hs. rewrite Hs in E. discriminate.
  - intros [val [Hin [Hs ->]]]. exists (k, Some val).
    split; [assumption|]. cbn [App.field_criterion fst snd].
    destruct (Py.is_empty (Py.strip val)) eqn:E; [|now left].
    destruct (Py.strip val); [congruence | discriminate].
Qed.

(** X11. The matcher has nothing to normalise in what the form hands
    over: with distinct field names free of surrounding blanks, the
    criteria the matcher works with are the parsed criteria themselves. *)
Theorem form_criteria_are_normalised input_values :
  NoDup (Py.keys input_values) ->
  (forall k, In k (Py.keys input_values) -> Py.strip k = k) ->
  normalise (App.parse_inputs float input_values []) []
  = App.parse_inputs float input_values [].
Proof.
  intros Hnd Hk.
  rewrite (parse_inputs_distinct input_values []) by exact Hnd.
  cbn [app]. apply (normalise_clean _ []).
  - cbn [Py.keys map app]. now apply field_criterion_NoDup.
  - intros k Hin. apply Hk. now apply field_criterion_keys.
  - apply Forall_forall. intros [k v] Hin. apply in_flat_map in Hin.
    destruct Hin as [[k0 [val|]] [_ Hin]];
      cbn [App.field_criterion fst snd] in Hin; [|destruct Hin].
    destruct (Py.is_empty (Py.strip val)) eqn:E; [destruct Hin|].
    destruct Hin as [[= <- <-]|[]]. cbn [snd].
    destruct (float (Py.strip val)); [reflexivity|].
    cbn [is_criterion]. now rewrite strip_idempotent, E.
Qed.

Lemma parse_inputs_blank items :
  forall acc,
    Forall (fun kv => match snd kv with
                      | None => True
                      | Some val => Py.strip val = ""
                      end) items ->
    App.parse_inputs float items acc = acc.
Proof.
  induction items as [|[k [val|]] items IH]; intros acc H;
    cbn [App.parse_inputs]; [reflexivity| |].
  - inversion H as [|? ? Hv Hrest]; subst. cbn [snd] in Hv. rewrite Hv.
    now apply IH.
  - inversion H; subst. now apply IH.
Qed.

Lemma parse_inputs_keys_from items :
  forall acc k,
    In k (Py.keys (App.parse_inputs float items acc)) ->
    In k (Py.keys acc) \/ In k (Py.keys items).
Proof.
  induction items as [|[k0 [val|]] items IH]; intros acc k H;
    cbn [App.parse_inputs] in H; [now left| |].
  - destruct (Py.is_empty (Py.strip val)).
    + apply IH in H. simpl. tauto.
    + apply IH in H. destruct H as [H|H]; [|simpl; tauto].
      apply keys_setitem_In in H. simpl. intuition.
  - apply IH in H. simpl. tauto.
Qed.

Section Submit.

Context {rt : Runtime}.

(** X12. A form with nothing but blank fields is answered with the
    warning, and the matcher is not called: no object is made or
    changed. *)
Theorem blank_form_is_warned df_data input_values st :
  Forall (fun kv => match snd kv with
                    | None => True
                    | Some val => Py.strip val = ""
                    end) input_values ->
  App.on_submit float df_data input_values st
  = (Return App.warning_no_input, st).
Proof.
  intros H. unfold App.on_submit.
  now rewrite (parse_inputs_blank input_values [] H).
Qed.

(** X13. When the loaded table has a column for every field of the form,
    the page never shows the error of unknown criteria columns, whatever
    is typed into the fields. *)
Theorem form_never_names_unknown_columns df_data d input_values st e st' :
  nth_error st df_data = Some d ->
  aligned d ->
  (forall k, In k (Py.keys input_values) -> In (Py.strip k) (columns d)) ->
  App.on_submit float df_data input_values st = (Return (App.error e), st') ->
  match e with
  | KeyError_missing_columns _ => False
  | _ => True
  end.
Proof.
  intros Hdf Ha Hcols H.
  destruct e as [missing_cols| | | | | |]; try exact I.
  unfold App.on_submit in H.
  set (parsed := App.parse_inputs float input_values []) in *.
  assert (Hm : missing_columns d (normalise parsed []) = []).
  { unfold missing_columns.
    destruct (filter _ (Py.keys (normalise parsed []))) as [|k l] eqn:E;
      [reflexivity|].
    assert (Hin : In k (filter (fun k => negb (Py.contains (columns d) k))
                          (Py.keys (normalise parsed []))))
      by (rewrite E; now left).
    apply filter_In in Hin. destruct Hin as [Hin Hn].
    apply negb_true_iff, contains_false in Hn. exfalso. apply Hn.
    apply normalise_keys_from in Hin. destruct Hin as [[]|[k' [Hk' ->]]].
    apply Hcols. unfold parsed in Hk'.
    apply parse_inputs_keys_from in Hk'. now destruct Hk' as [[]|Hk']. }
  destruct parsed as [|kv parsed'] eqn:Ep; [discriminate|].
  destruct (find_matching_mofs df_data (kv :: parsed') st)
    as [[out|e0] st0] eqn:Ef.
  { destruct (empty out); discriminate. }
  injection H as -> ->.
  destruct (empty d) eqn:He.
  { unfold find_matching_mofs in Ef.
    rewrite (bind_Return _ _ _ _ _ (deref_run _ _ _ Hdf)), He in Ef.
    discriminate. }
  destruct (normalise (kv :: parsed') []) as [|kv' provided] eqn:En.
  { unfold find_matching_mofs in Ef.
    rewrite (bind_Return _ _ _ _ _ (deref_run _ _ _ Hdf)), He, En in Ef.
    discriminate. }
  assert (Hp : normalise (kv :: parsed') [] <> [])
    by (rewrite En; discriminate).
  rewrite <- En in Hm.
  destruct (main_path_outcome st df_data d (kv :: parsed') Hdf Ha He Hp Hm)
    as [mask [_ [_ Hrun]]].
  rewrite Hrun in Ef. cbv zeta in Ef.
  destruct (empty (select_rows _ mask)); [discriminate|].
  destruct (Py.get (data (select_rows _ mask)) "MOF"); [|discriminate].
  destruct (aggregate_groups _ _) as [[rows|e1] st1] eqn:Eg.
  { injection Ef as Ef _. apply DataFrame_of_rows_Raise in Ef.
    destruct Ef as [Ef _]. discriminate. }
  injection Ef as -> _.
  apply aggregate_groups_raise in Eg. destruct Eg as [kg [_ Hr]].
  unfold reduce_group in Hr. destruct (1 <? _)%nat; [|discriminate].
  destruct (Py.get _ "Gas uptake (mmol/g)") as [u|]; [|discriminate].
  destruct (idxmax _ u) as [label|]; [|discriminate].
  unfold loc in Hr. destruct (rows_labelled _ label) as [|i others];
    [discriminate|].
  destruct (filter _ keep_cols); [destruct others|]; discriminate.
Qed.

End Submit.

End Form.

(** * Worked examples *)

Section Examples.

#[local] Existing Instance Demo.runtime.

Lemma scenario_aligned : aligned Demo.scenario.
Proof. repeat constructor. Qed.

(** C10 on a table with the input schema and no rows, asked for a column it
    does not have. *)
Lemma empty_dataset_witness :
  find_matching_mofs 0 [("no such column", Py.Num_ 1)] [DataFrame_new INPUT_COLS]
  = (Return (DataFrame_new OUTPUT_COLS), [DataFrame_new INPUT_COLS]).
Proof.
  apply (empty_dataset_returns_empty_table
           [DataFrame_new INPUT_COLS] 0 (DataFrame_new INPUT_COLS));
    reflexivity.
Defined.

(** C1 on the scenario table with one blank and one absent value. *)
Lemma blank_criteria_witness :
  find_matching_mofs 0 [("MOF", Py.Str_ "  "); ("N2", Py.None_)] [Demo.scenario]
  = (Return (DataFrame_new OUTPUT_COLS), [Demo.scenario]).
Proof.
  apply (blank_criteria_return_empty_table [Demo.scenario] 0 Demo.scenario).
  - reflexivity.
  - repeat constructor.
Defined.

(** The same call refutes C1 as stated: all criteria are blank, the table
    has rows, and the call returns a table instead of raising. *)
Lemma blank_criteria_do_not_raise :
  let inputs := [("MOF", Py.Str_ "  "); ("N2", Py.None_)] in
  Forall (fun kv => blank (snd kv)) inputs
  /\ nrows Demo.scenario = 3%nat
  /\ ~ exists e st',
        find_matching_mofs 0 inputs [Demo.scenario] = (Raise e, st').
Proof.
  split; [repeat constructor|]. split; [reflexivity|].
  intros [e [st' H]]. vm_compute in H. discriminate.
Qed.

(** C2 with two unknown columns among three criteria. *)
Lemma unknown_columns_witness :
  exists missing_cols,
    find_matching_mofs 0
      [(" X ", Py.Num_ 1); ("MOF", Py.Str_ "a"); ("Y", Py.Str_ "u")]
      [Demo.scenario]
    = (Raise (KeyError_missing_columns missing_cols), [Demo.scenario])
    /\ forall k, In k missing_cols <->
         In k (Py.keys (normalise
                 [(" X ", Py.Num_ 1); ("MOF", Py.Str_ "a"); ("Y", Py.Str_ "u")]
                 []))
         /\ ~ In k (columns Demo.scenario).
Proof.
  apply (unknown_columns_raise_one_error [Demo.scenario] 0 Demo.scenario).
  - reflexivity.
  - reflexivity.
  - exists "X". split; [now left|].
    intros H. repeat (destruct H as [H|H]; [discriminate H|]). exact H.
Defined.

Example unknown_columns_listed :
  fst (find_matching_mofs 0
         [(" X ", Py.Num_ 1); ("MOF", Py.Str_ "a"); ("Y", Py.Str_ "u")]
         [Demo.scenario])
  = Raise (KeyError_missing_columns ["X"; "Y"]).
Proof. reflexivity. Qed.


(** For the criterion -5 the upper end of the band, -5.1, is below the
    lower end, -4.9, and no record is kept, not even the one that holds
    -5. *)
Example numeric_criterion_negative :
  ((-5 * factor_102) <? (-5 * factor_098))%float = true
  /\ fst (apply_criterion 0 [true; true] ("x", Py.Num_ (-5))
            [ {| index := [0; 1]%nat;
                 data := [("x", Demo.floats [(-5); 5]%Z)] |} ])
     = Return [false; false].
Proof. split; reflexivity. Qed.


(** The ends of the band are floats: for the criterion 1 the lower end is
    the float nearest to 0.98, which is below 0.98, and a record holding
    that float is kept. *)
Example band_ends_are_rounded :
  Prim2SF (1 * factor_098)%float
  = S754_finite false 8827055269646172 (-53)
  /\ (8827055269646172 * 100 < 98 * 2 ^ 53)%Z
  /\ fst (apply_criterion 0 [true] ("x", Py.Num_ 1)
            [ {| index := [0]%nat;
                 data := [("x", mkSeries float64 [Num factor_098])] |} ])
     = Return [true].
Proof. repeat split. Qed.

(** C4 on the name column of the scenario. *)
Lemma text_criterion_witness :
  exists mask' st',
    apply_criterion 0 [true; true; true] ("MOF", Py.Str_ " a ") [Demo.scenario]
    = (Return mask', st')
    /\ (nth 2 mask' false = true <->
        nth 2 [true; true; true] false = true /\
        exists text,
          astype_str_cell (nth 2 (values (Demo.texts ["A"; "A"; "B"])) NA)
          = Str text
          /\ str_lower (Py.strip text) = str_lower (Py.strip " a "))
    /\ (astype_str_cell (nth 2 (values (Demo.texts ["A"; "A"; "B"])) NA) = NA ->
        nth 2 mask' false = false).
Proof.
  apply (text_criterion_matches_normalised_text [Demo.scenario] 0 Demo.scenario
           "MOF" (Demo.texts ["A"; "A"; "B"]) " a " [true; true; true] 2).
  - reflexivity.
  - reflexivity.
  - reflexivity.
  - simpl. lia.
  - reflexivity.
Defined.

Example text_criterion_mask :
  fst (apply_criterion 0 [true; true; true] ("MOF", Py.Str_ " a ")
         [Demo.scenario])
  = Return [true; true; false].
Proof. reflexivity. Qed.

(** The scenario of the specification: the two records of "A" match, the
    record of "B" does not; the one row has the uptake 5 of the second
    record and the mean 15 of the descriptors 10 and 20. *)
Example scenario_answer :
  Demo.call 0 Demo.criteria [Demo.scenario]
  = (Return Demo.answer, Demo.final_store)
  /\ nrows Demo.answer = 1%nat
  /\ column_values Demo.answer "Gas uptake (mmol/g)" = [Num 5]
  /\ column_values Demo.answer "PLD (Å)" = [Num 15].
Proof. repeat split. Qed.


Example matching_subset_rows :
  filter (matches (normalise Demo.criteria []) Demo.scenario)
    (seq 0 (nrows Demo.scenario)) = [0; 1]%nat
  /\ match fst (filter_records 0 (normalise Demo.criteria []) [Demo.scenario])
     with
     | Return matched =>
         index matched = [0; 1]%nat
         /\ column_values matched "MOF" = [Str "a"; Str "a"]
         /\ column_values matched "Gas uptake (mmol/g)" = [Num 2; Num 5]
     | Raise _ => False
     end.
Proof. vm_compute. repeat split. Qed.

(** A criterion that no record satisfies: the empty table, no error. *)
Example no_match_returns_empty_table :
  Demo.call 0 [("Gas Pressure (bar)", Py.Num_ 7)] [Demo.scenario]
  = (Return (DataFrame_new OUTPUT_COLS),
     [Demo.scenario; work_table [("Gas Pressure (bar)", Py.Num_ 7)]
                       Demo.scenario]).
Proof. reflexivity. Qed.

(** C7 fails on the scenario when all three records match.  The subset
    has the two names "A" and "B"; the loop appends a [Series] for the two
    records of "A" and then a [dict] for the record of "B"; and the
    constructor of the result raises instead of giving the two rows. *)
Theorem rows_of_two_kinds_raise :
  filter (matches (normalise Demo.pressure []) Demo.scenario)
    (seq 0 (nrows Demo.scenario)) = [0; 1; 2]%nat
  /\ group_keys (column_values Demo.scenario "MOF") [] = [Str "A"; Str "B"]
  /\ fst (find_matching_mofs 0 Demo.pressure [Demo.scenario])
     = Raise AttributeError.
Proof. repeat split. Qed.

(** X15 on the four records: three names, three rows, in order. *)
Lemma output_rows_witness :
  exists matched st1 keys,
    filter_records 0 (normalise Demo.pressure []) [Demo.unsorted]
    = (Return matched, st1)
    /\ ascending keys
    /\ (forall k, In k keys ->
                  In k (column_values matched "MOF") /\ is_na k = false)
    /\ (forall v, In v (column_values matched "MOF") -> is_na v = false ->
                  exists k, In k keys /\ cell_compare v k = Eq)
    /\ nrows Demo.sorted_answer = List.length keys
    /\ Forall2 (fun o k => cell_compare o k = Eq)
         (column_values Demo.sorted_answer "MOF") keys
    /\ ascending (column_values Demo.sorted_answer "MOF").
Proof.
  apply (output_rows_are_the_sorted_groups [Demo.unsorted] 0 Demo.unsorted
           Demo.pressure Demo.sorted_answer Demo.sorted_store).
  - reflexivity.
  - repeat constructor.
  - reflexivity.
  - vm_compute. discriminate.
  - vm_compute. reflexivity.
Defined.

(** Three names in four records, out of order: three rows, in order. *)
Example groups_are_sorted :
  column_values Demo.sorted_answer "MOF"
  = [Str "HKUST-1"; Str "MOF-5"; Str "ZIF-8"]
  /\ column_values Demo.sorted_answer "Gas Temperature (°C)"
     = [Num 25; Num 25; Num 25]
  /\ column_values Demo.sorted_answer "Gas uptake (mmol/g)"
     = [Num 4; Num 6; Num 3].
Proof. repeat split. Qed.

(** C8 on the scenario. *)
Lemma output_schema_witness : columns Demo.answer = OUTPUT_COLS.
Proof.
  apply (returned_table_has_output_schema [Demo.scenario] 0 Demo.criteria
           Demo.answer Demo.final_store).
  vm_compute. reflexivity.
Defined.

(** C9 on the scenario: the call coerces the name and the pressure column,
    and the caller's table still has them as they were. *)
Lemma input_dataset_witness :
  nth_error (snd (find_matching_mofs 0 Demo.criteria [Demo.scenario])) 0
  = Some Demo.scenario
  /\ firstn (List.length [Demo.scenario])
       (snd (find_matching_mofs 0 Demo.criteria [Demo.scenario]))
     = [Demo.scenario].
Proof.
  apply (input_dataset_unchanged [Demo.scenario] 0 Demo.scenario Demo.criteria).
  reflexivity.
Defined.

Example working_copy_is_coerced :
  option_map (fun w => column_values w "MOF") (nth_error Demo.final_store 1)
  = Some [Str "a"; Str "a"; Str "b"]
  /\ option_map (fun w => column_values w "MOF") (nth_error Demo.final_store 0)
    = Some [Str "A"; Str "A"; Str "B"].
Proof. split; reflexivity. Qed.

(** C5 on the two records of "A". *)
Lemma group_row_witness :
  exists (row : grouped_row) rep m st',
    aggregate_group Demo.group_A (Str "A") [] = (Return row, st')
    /\ first_maximum
         (map to_numeric_cell
            (column_values Demo.group_A "Gas uptake (mmol/g)")) rep m
    /\ (forall c, In c keep_cols ->
          lookup_cell row c
          = if String.eqb c "Gas uptake (mmol/g)"
            then to_numeric_cell (cell_at Demo.group_A c rep)
            else cell_at Demo.group_A c rep)
    /\ (forall c, In c OUTPUT_COLS -> ~ In c keep_cols -> c <> "MOF" ->
          lookup_cell row c
          = match Py.get (data Demo.group_A) c with
            | Some s => if is_numeric (dtype_of s)
                        then mean_cells (values s) else NA
            | None => NA
            end)
    /\ lookup_cell row "MOF" = Str "A"
    /\ Py.keys row = OUTPUT_COLS.
Proof.
  apply (group_of_several_records_row Demo.group_A (Str "A") []).
  - vm_compute. lia.
  - repeat constructor.
  - repeat constructor; simpl; intuition discriminate.
  - intros c Hc. apply contains_In.
    assert (Hall : forallb (Py.contains (columns Demo.group_A)) keep_cols = true)
      by reflexivity.
    rewrite forallb_forall in Hall. auto.
  - exists 0%nat, 2%float. reflexivity.
Defined.

Example group_row_of_A :
  match fst (aggregate_group Demo.group_A (Str "A") []) with
  | Return row =>
      kind row = a_Series
      /\ lookup_cell row "Gas uptake (mmol/g)" = Num 5
      /\ lookup_cell row "N2" = Num 2
      /\ lookup_cell row "PLD (Å)" = Num 15
  | Raise _ => False
  end.
Proof. vm_compute. repeat split. Qed.

(** C5 as stated fails on a descriptor column of object dtype: the two
    records of the group hold the numbers 10 and 20 there, whose mean is
    15, and the output row has a missing value. *)
Lemma object_column_is_not_averaged :
  let group := select_rows Demo.mixed [true; true; false] in
  nrows group = 2%nat
  /\ column_values group "Void Fraction" = [Num 10; Num 20]
  /\ mean_cells (column_values group "Void Fraction") = Num 15
  /\ exists (row : grouped_row) st',
      aggregate_group group (Str "A") [] = (Return row, st')
      /\ lookup_cell row "Void Fraction" = NA
      /\ lookup_cell row "Void Fraction"
         <> mean_cells (column_values group "Void Fraction").
Proof.
  split; [reflexivity|]. split; [reflexivity|]. split; [reflexivity|].
  eexists _, _. split; [vm_compute; reflexivity|].
  split; [reflexivity | discriminate].
Qed.

Example object_column_end_to_end :
  match fst (Demo.call 0 [("MOF", Py.Str_ "A")] [Demo.mixed]) with
  | Return out => column_values out "Void Fraction" = [NA]
                  /\ column_values out "PLD (Å)" = [Num 15]
  | Raise _ => False
  end.
Proof. vm_compute. split; reflexivity. Qed.

(** Two records under one row label: [.loc] gives both of them, and the
    output row takes no operating-condition cell from the representative,
    while the means are there. *)
Example duplicated_label_carries_nothing :
  let group := select_rows Demo.relabelled [true; true; false] in
  index group = [7; 7]%nat
  /\ match fst (aggregate_group group (Str "A") []) with
     | Return row =>
         map (lookup_cell row) keep_cols = [NA; NA; NA; NA; NA; NA]
         /\ lookup_cell row "PLD (Å)" = Num 15
     | Raise _ => False
     end.
Proof. vm_compute. repeat split. Qed.

(** A missing uptake counts as -inf: of the uptakes missing, -inf the
    first record is the representative, and the row has no uptake. *)
Example missing_uptake_counts_as_neg_infinity :
  let group :=
    set_column Demo.group_A "Gas uptake (mmol/g)"
      (mkSeries float64 [NA; Num neg_infinity]) in
  idxmax (index group) (mkSeries float64 [NA; Num neg_infinity]) = Some 0%nat
  /\ match fst (aggregate_group group (Str "A") []) with
     | Return row =>
         lookup_cell row "Gas uptake (mmol/g)" = NA
         /\ lookup_cell row "N2" = Num 1
     | Raise _ => False
     end.
Proof. vm_compute. repeat split. Qed.

End Examples.

(** * Further worked examples *)

Section MoreExamples.

#[local] Existing Instance Demo.runtime.

Lemma INPUT_COLS_distinct : NoDup INPUT_COLS.
Proof.
  assert (H : nodup string_dec INPUT_COLS = INPUT_COLS)
    by (vm_compute; reflexivity).
  rewrite <- H. apply NoDup_nodup.
Qed.

Lemma INPUT_COLS_stripped k : In k INPUT_COLS -> Py.strip k = k.
Proof.
  assert (H : forallb (fun k => String.eqb (Py.strip k) k) INPUT_COLS = true)
    by (vm_compute; reflexivity).
  rewrite forallb_forall in H. intros Hk. now apply String.eqb_eq, H.
Qed.

Lemma form_keys : Py.keys Cases.form = INPUT_COLS.
Proof. reflexivity. Qed.

(** White space of Unicode is stripped like the space: a no-break space
    (C2 A0) before and an ideographic space (E3 80 80) after the name. *)
Example strip_unicode_white_space :
  Py.strip (String (ascii_of_nat 194) (String (ascii_of_nat 160)
              (String.append "PLD (Å)"
                 (String (ascii_of_nat 227) (String (ascii_of_nat 128)
                    (String (ascii_of_nat 128) ""))))))
  = "PLD (Å)".
Proof. reflexivity. Qed.

(** X1 on the one record of "B". *)
Lemma single_record_group_witness :
  exists row,
    aggregate_group Cases.group_B (Str "B") []
    = (Return row, [] ++ [with_numeric_uptake Cases.group_B])
    /\ Py.keys row = OUTPUT_COLS
    /\ forall c, In c OUTPUT_COLS ->
         lookup_cell row c
         = if String.eqb c "Gas uptake (mmol/g)"
           then to_numeric_cell (cell_at Cases.group_B c 0)
           else cell_at Cases.group_B c 0.
Proof.
  apply (single_record_group_row Cases.group_B (Str "B") []).
  vm_compute. lia.
Defined.

(** X2 on the two records of "A". *)
Lemma several_records_witness :
  exists o,
    aggregate_group Demo.group_A (Str "A") []
    = (o, [] ++ [with_numeric_uptake Demo.group_A])
    /\ ((exists row, o = Return row) ->
        (forall c, In c keep_cols -> In c (columns Demo.group_A))
        /\ exists j q,
             to_numeric_cell (cell_at Demo.group_A "Gas uptake (mmol/g)" j)
             = Num q).
Proof.
  apply (group_of_several_records_needs_uptake Demo.group_A (Str "A") []).
  vm_compute. lia.
Defined.

(** Two records of one entity without a numeric uptake: no row. *)
Example several_records_without_uptake :
  fst (aggregate_group (select_rows Cases.no_uptake [true; true; false])
         (Str "A") [])
  = Raise ValueError_all_missing.
Proof. reflexivity. Qed.

(** X3 on the table without a name column. *)
Lemma no_MOF_column_witness :
  find_matching_mofs 0 [("N2", Py.Num_ 1)] [Cases.no_names]
  = (Raise (KeyError_labels ["MOF"]),
     [Cases.no_names]
     ++ [work_table (normalise [("N2", Py.Num_ 1)] []) Cases.no_names]).
Proof.
  apply (no_MOF_column_raises [Cases.no_names] 0 Cases.no_names).
  - reflexivity.
  - repeat constructor.
  - reflexivity.
  - vm_compute. discriminate.
  - reflexivity.
  - intros [H|[]]. discriminate H.
  - vm_compute. discriminate.
Defined.

(** X4 on the scenario when all three records match: the rows of "A" and
    of "B" are of two kinds. *)
Lemma raised_errors_witness :
  let inputs := Demo.pressure in
  let d := Demo.scenario in
  let e := AttributeError in
  (e = KeyError_missing_columns (missing_columns d (normalise inputs []))
   /\ missing_columns d (normalise inputs []) <> []
   /\ snd (find_matching_mofs 0 inputs [d]) = [d])
  \/ (e = KeyError_labels ["MOF"] /\ ~ In "MOF" (columns d))
  \/ (exists labels,
        e = KeyError_labels labels /\ labels <> []
        /\ forall c, In c labels -> In c keep_cols /\ ~ In c (columns d))
  \/ e = ValueError_all_missing
  \/ (e = AttributeError
      /\ exists matched st1 first rest,
           filter_records 0 (normalise inputs []) [d] = (Return matched, st1)
           /\ groupby matched "MOF" st1 = (Return (first :: rest), st1)
           /\ (1 < nrows (snd first))%nat
           /\ exists later, In later rest /\ (nrows (snd later) <= 1)%nat).
Proof.
  apply (raised_errors [Demo.scenario] 0 Demo.scenario Demo.pressure
           AttributeError
           (snd (find_matching_mofs 0 Demo.pressure [Demo.scenario]))).
  - reflexivity.
  - exact scenario_aligned.
  - vm_compute. reflexivity.
Defined.

Lemma criteria_normalised :
  normalise Demo.criteria []
  = [("MOF", Py.Str_ " a "); ("Gas Pressure (bar)", Py.Num_ 1)].
Proof. reflexivity. Qed.

Lemma scenario_labels : NoDup (index Demo.scenario).
Proof. repeat constructor; simpl; intuition discriminate. Qed.

(** X6 on the scenario: the pressure of the one row is within the band
    of 1. *)
Lemma numeric_output_witness :
  Forall (fun x => between_cell (1 * factor_098)%float (1 * factor_102)%float x
                   = true)
    (column_values Demo.answer "Gas Pressure (bar)").
Proof.
  apply (numeric_criterion_holds_in_output [Demo.scenario] 0 Demo.scenario
           Demo.criteria Demo.answer Demo.final_store).
  - reflexivity.
  - exact scenario_aligned.
  - exact scenario_labels.
  - vm_compute. reflexivity.
  - rewrite criteria_normalised. right. now left.
  - right. apply contains_In. vm_compute. reflexivity.
Defined.

(** A mean need not lie in the band of its column: three records that
    hold 0.011 satisfy a criterion whose band ends at 0.011, and their
    mean, with the sum taken from the first to the last, is the next float
    above 0.011. *)
Example mean_can_leave_the_band :
  let v := 0x1.6161616161616p-7%float in
  let x := 0x1.6872b020c49bap-7%float in
  let column := [Num x; Num x; Num x] in
  (v * factor_102)%float = x
  /\ forallb (between_cell (v * factor_098) (v * factor_102)%float) column
     = true
  /\ mean_cells column = Num 0x1.6872b020c49bbp-7
  /\ between_cell (v * factor_098) (v * factor_102)%float (mean_cells column)
     = false.
Proof. repeat split. Qed.

(** X7 on the scenario: the one row is named "a", not "A". *)
Lemma text_output_witness :
  Forall (fun x => x = Str (str_lower (Py.strip " a ")))
    (column_values Demo.answer "MOF").
Proof.
  apply (text_criterion_holds_in_output [Demo.scenario] 0 Demo.scenario
           Demo.criteria Demo.answer Demo.final_store).
  - reflexivity.
  - exact scenario_aligned.
  - exact scenario_labels.
  - vm_compute. reflexivity.
  - rewrite criteria_normalised. now left.
  - now left.
  - discriminate.
Defined.

Example names_collide :
  normalise [(" N2", Py.Num_ 1); ("MOF", Py.Str_ "x"); ("N2 ", Py.Num_ 2);
             ("N2", Py.Str_ " ")] []
  = [("N2", Py.Num_ 2); ("MOF", Py.Str_ "x")].
Proof. reflexivity. Qed.

(** X10 on the form of the page. *)
Lemma parsed_inputs_witness :
  App.parse_inputs Cases.float Cases.form []
  = flat_map (App.field_criterion Cases.float) Cases.form
  /\ forall k v,
       In (k, v) (App.parse_inputs Cases.float Cases.form []) <->
       exists val,
         In (k, Some val) Cases.form
         /\ Py.strip val <> ""
         /\ v = match Cases.float (Py.strip val) with
                | Some x => Py.Num_ x
                | None => Py.Str_ (Py.strip val)
                end.
Proof.
  apply (parsed_inputs_are_the_filled_fields Cases.float Cases.form).
  rewrite form_keys. exact INPUT_COLS_distinct.
Defined.

Example form_parsed :
  App.parse_inputs Cases.float Cases.form []
  = [("MOF", Py.Str_ "a"); ("Gas Pressure (bar)", Py.Num_ 1)].
Proof. reflexivity. Qed.

(** X11 on the form of the page. *)
Lemma form_criteria_witness :
  normalise (App.parse_inputs Cases.float Cases.form []) []
  = App.parse_inputs Cases.float Cases.form [].
Proof.
  apply (form_criteria_are_normalised Cases.float Cases.form).
  - rewrite form_keys. exact INPUT_COLS_distinct.
  - rewrite form_keys. exact INPUT_COLS_stripped.
Defined.

(** X12 on the form of the page with nothing typed in. *)
Lemma blank_form_witness :
  App.on_submit Cases.float 0 Cases.blank_form [Demo.scenario]
  = (Return App.warning_no_input, [Demo.scenario]).
Proof.
  apply (blank_form_is_warned Cases.float 0 Cases.blank_form [Demo.scenario]).
  repeat constructor.
Defined.

Example form_finds_one_entity :
  fst (App.on_submit Cases.float 0 Cases.form [Demo.scenario])
  = Return (App.success 1 Demo.answer).
Proof. reflexivity. Qed.

(** X13 on a search for "A" in the table without a numeric uptake: the
    page shows an error, and it is not the error of unknown columns. *)
Lemma form_error_witness :
  fst (App.on_submit Cases.float 0 [("MOF", Some "A")] [Cases.no_uptake])
  = Return (App.error ValueError_all_missing)
  /\ match ValueError_all_missing with
     | KeyError_missing_columns _ => False
     | _ => True
     end.
Proof.
  split; [reflexivity|].
  apply (form_never_names_unknown_columns Cases.float 0 Cases.no_uptake
           [("MOF", Some "A")] [Cases.no_uptake] ValueError_all_missing
           (snd (App.on_submit Cases.float 0 [("MOF", Some "A")]
                   [Cases.no_uptake]))).
  - reflexivity.
  - repeat constructor.
  - intros k [<-|[]]. apply contains_In. vm_compute. reflexivity.
  - vm_compute. reflexivity.
Defined.

(** X14 on the scenario, the two criteria given either way round. *)
Lemma criteria_order_witness :
  find_matching_mofs 0
    [("MOF", Py.Str_ " a "); ("Gas Pressure (bar)", Py.Num_ 1)]
    [Demo.scenario]
  = find_matching_mofs 0
      [("Gas Pressure (bar)", Py.Num_ 1); ("MOF", Py.Str_ " a ")]
      [Demo.scenario].
Proof.
  apply (criteria_order_is_irrelevant [Demo.scenario] 0 Demo.scenario).
  - reflexivity.
  - exact scenario_aligned.
  - apply perm_swap.
  - reflexivity.
Defined.

End MoreExamples.
